(** * Cart page script: a shallow embedding of [script.js]

    The page script keeps a list of line items in a [CartManager], mirrors it
    into [localStorage] as JSON text under the key ['cart'] and into a few DOM
    elements.  This file embeds the script function by function and proves
    the properties stated for it.

    Modelling conventions.
    - A JavaScript number is a [num]: an integer ([Int z]) or [NaN].  The
      cart's prices, quantities and identifiers are integers; [NaN] is what
      [parseInt] returns on text without a leading integer.  The integers of
      the model are the mathematical ones.  Those of JavaScript are doubles:
      reading, printing, adding and multiplying integers is exact as long as
      operands and results are safe integers, of magnitude at most
      [MAX_SAFE_INTEGER], and rounds beyond.  What is proved about the numbers
      a user types or steps, and about sums and products, is stated within
      that range.
    - A JavaScript string is a [string]; each character stands for one code
      unit below 256.
    - [JSON.stringify] and [JSON.parse] are functions on text
      ([JSON_stringify], [JSON_parse]); the parser reads its input once, one
      code unit at a time, so it is total.
    - A line item carries the five members the script reads, in the order of
      the remote document: [id], [title], [image], [price], [quantity].
    - The script splices titles and image references into markup as they
      are.  When they are free of markup ([markup_free]) the container holds
      one row per item; when one of them is not, the elements the markup
      yields are not interpreted ([Spliced]).
    - The document is the part of it the script touches: the rows of the item
      container (each with its [data-id], the text of its quantity input and
      its line total), the subtotal, total and count elements, and the
      [display] style of the modal.  The locale formatter is not interpreted:
      [Currency amount] stands for the text it gives.
    - The browser is a [World]: the store, what the remote resource answers,
      and the logs of requests, console messages and alerts.  [fetchCartItems]
      runs to its end before any event is handled.
    - Exceptions are explicit.  Input whose behaviour lies outside these
      conventions (JSON numbers with a fraction or an exponent, escapes above
      code unit 255, keys written as integers) yields [Unsupported] rather
      than an invented answer.  So does a load from a document that is not a
      cart (no [items] array, or items of another shape): the script then
      leaves in [this.items] a value that is no list of line items, a state
      the [CartManager] of this model does not have.  What is proved about
      loading says which documents it is about. *)

From Stdlib Require Import ZArith Lia Bool Ascii String List.
From Stdlib Require Import Decimal DecimalString DecimalPos DecimalZ.
From stdpp Require Import base option strings gmap.

#[local] Open Scope string_scope.
#[local] Open Scope Z_scope.

(** ** Numbers *)

Inductive num : Type :=
  | NaN
  | Int (z : Z).

(** [a + b], [a - b] and [a * b] on integers are those of the integers:
    what JavaScript computes when operands and result are safe integers.
    [NaN] absorbs. *)
Definition num_add (a b : num) : num :=
  match a, b with
  | Int x, Int y => Int (x + y)
  | _, _ => NaN
  end.

Definition num_sub (a b : num) : num :=
  match a, b with
  | Int x, Int y => Int (x - y)
  | _, _ => NaN
  end.

Definition num_mul (a b : num) : num :=
  match a, b with
  | Int x, Int y => Int (x * y)
  | _, _ => NaN
  end.

(** [Number.MAX_SAFE_INTEGER]: up to this magnitude the integers are doubles
    and so are their neighbours, so that [parseInt], [String], [+], [-] and
    [*] are exact on them. *)
Definition MAX_SAFE_INTEGER : Z := 2 ^ 53 - 1.

Definition safe (z : Z) : Prop := Z.abs z <= MAX_SAFE_INTEGER.

(** [a === b] on numbers: [NaN] equals nothing, itself included. *)
Definition num_strict_eq (a b : num) : bool :=
  match a, b with
  | Int x, Int y => x =? y
  | _, _ => false
  end.

(** The values that meet in the script's identifier comparisons. *)
Inductive value : Type :=
  | VNum (n : num)
  | VStr (s : string).

(** [a === b]: values of different types are never strictly equal. *)
Definition strict_eq (a b : value) : bool :=
  match a, b with
  | VNum x, VNum y => num_strict_eq x y
  | VStr x, VStr y => String.eqb x y
  | _, _ => false
  end.

(** ** Numbers and text *)

(** [String(z)] for an integer: decimal digits, with a leading minus sign.
    This is what JavaScript prints for a safe integer. *)
Definition Z_to_string (z : Z) : string :=
  NilZero.string_of_int (Z.to_int z).

(** [String(n)]. *)
Definition num_to_string (n : num) : string :=
  match n with
  | NaN => "NaN"
  | Int z => Z_to_string z
  end.

Definition code (c : ascii) : Z := Z.of_N (N_of_ascii c).

(** White space and line terminators below code unit 256. *)
Definition is_white_space (c : ascii) : bool :=
  let n := code c in
  ((9 <=? n) && (n <=? 13)) || (n =? 32) || (n =? 160).

Fixpoint trim_start (s : string) : string :=
  match s with
  | String c r => if is_white_space c then trim_start r else s
  | EmptyString => s
  end.

(** The value of a character as a digit: 0-9, then letters from 10 on. *)
Definition digit_of (c : ascii) : option Z :=
  let n := code c in
  if (48 <=? n) && (n <=? 57) then Some (n - 48)
  else if (97 <=? n) && (n <=? 122) then Some (n - 87)
  else if (65 <=? n) && (n <=? 90) then Some (n - 55)
  else None.

Definition radix_digit (R : Z) (c : ascii) : option Z :=
  match digit_of c with
  | Some d => if d <? R then Some d else None
  | None => None
  end.

(** The value, in radix [R], of the longest prefix of [s] made of digits,
    continuing from [acc]. *)
Fixpoint radix_prefix (R : Z) (s : string) (acc : Z) : Z :=
  match s with
  | String c r =>
      match radix_digit R c with
      | Some d => radix_prefix R r (acc * R + d)
      | None => acc
      end
  | EmptyString => acc
  end.

(** The digits of [parseInt] once white space and sign are gone: a [0x]
    prefix selects radix 16, the longest digit prefix is the magnitude, and
    without any digit the result is [NaN]. *)
Definition parse_magnitude (sign : Z) (s2 : string) : num :=
  let '(R, s3) :=
    match s2 with
    | String "0" (String "x" r) => (16, r)
    | String "0" (String "X" r) => (16, r)
    | _ => (10, s2)
    end in
  match s3 with
  | String c _ =>
      match radix_digit R c with
      | Some _ => Int (sign * radix_prefix R s3 0)
      | None => NaN
      end
  | EmptyString => NaN
  end.

(** [parseInt(s)] with no radix argument: leading white space is skipped and
    a sign is read before the digits.  The result is the integer the digits
    denote, which is what JavaScript returns when that integer is safe. *)
Definition parseInt (s : string) : num :=
  match trim_start s with
  | String "-" r => parse_magnitude (-1) r
  | String "+" r => parse_magnitude 1 r
  | s1 => parse_magnitude 1 s1
  end.

(** ** Exceptions and results *)

Inductive exn : Type :=
  | SyntaxError
  | TypeError
  | NetworkError.

Inductive result (A : Type) : Type :=
  | Ok (a : A)
  | Throw (e : exn)
  | Unsupported.

Arguments Ok {A} a.
Arguments Throw {A} e.
Arguments Unsupported {A}.

(** ** JSON values and [JSON.stringify] *)

#[local] Unset Elimination Schemes.
Inductive json : Type :=
  | JNull
  | JBool (b : bool)
  | JNum (z : Z)
  | JStr (s : string)
  | JArr (elements : list json)
  | JObj (members : list (string * json)).
#[local] Set Elimination Schemes.

Definition dquote : ascii := "034"%char.

Definition hex_digit (n : Z) : ascii :=
  ascii_of_N (Z.to_N (if n <? 10 then 48 + n else 87 + n)).

(** One code unit inside a quoted JSON string. *)
Definition quote_char (c : ascii) : string :=
  match code c with
  | 8 => "\b"
  | 9 => "\t"
  | 10 => "\n"
  | 12 => "\f"
  | 13 => "\r"
  | 34 => String "\" (String dquote "")
  | 92 => "\\"
  | n =>
      if n <? 32
      then "\u00" ++ String (hex_digit (n / 16)) (String (hex_digit (n mod 16)) "")
      else String c ""
  end.

Fixpoint quote_chars (s : string) : string :=
  match s with
  | String c r => quote_char c ++ quote_chars r
  | EmptyString => ""
  end.

Definition quote (s : string) : string :=
  String dquote (quote_chars s ++ String dquote "").

(** [JSON.stringify(j)], without indentation. *)
Fixpoint JSON_stringify (j : json) : string :=
  match j with
  | JNull => "null"
  | JBool true => "true"
  | JBool false => "false"
  | JNum z => Z_to_string z
  | JStr s => quote s
  | JArr l =>
      "[" ++
      (fix elements (l : list json) : string :=
         match l with
         | [] => "]"
         | x :: r =>
             JSON_stringify x ++
             match r with [] => "]" | _ :: _ => "," ++ elements r end
         end) l
  | JObj m =>
      "{" ++
      (fix members (m : list (string * json)) : string :=
         match m with
         | [] => "}"
         | (k, x) :: r =>
             quote k ++ ":" ++ JSON_stringify x ++
             match r with [] => "}" | _ :: _ => "," ++ members r end
         end) m
  end.

(** The two inner loops of [JSON_stringify], by name. *)
Fixpoint stringify_elements (l : list json) : string :=
  match l with
  | [] => "]"
  | x :: r =>
      JSON_stringify x ++
      match r with [] => "]" | _ :: _ => "," ++ stringify_elements r end
  end.

Fixpoint stringify_members (m : list (string * json)) : string :=
  match m with
  | [] => "}"
  | (k, x) :: r =>
      quote k ++ ":" ++ JSON_stringify x ++
      match r with [] => "}" | _ :: _ => "," ++ stringify_members r end
  end.

(** ** [JSON.parse]

    The parser reads the text one code unit at a time.  Its state is the
    syntactic position ([mode]), the containers still open ([frame]s), and a
    mark set when the text, though well formed, carries something outside the
    modelling conventions. *)

Inductive frame : Type :=
  | CArr (elems_rev : list json)
  | CMem (members : list (string * json)) (key : string).

Inductive esc : Type :=
  | ENone
  | EBack
  | EUni (count : nat) (acc : Z).

Inductive nstate : Type :=
  | NMinus | NZero | NInt | NDot | NFrac | NExp | NExpSign | NExpDigits.

Inductive mode : Type :=
  | MValue
  | MArrFirst
  | MArrNext (elems_rev : list json)
  | MObjFirst
  | MObjKey (members : list (string * json))
  | MObjColon (members : list (string * json)) (key : string)
  | MObjNext (members : list (string * json))
  | MStr (key_of : option (list (string * json))) (acc_rev : list ascii) (e : esc)
  | MNum (ns : nstate) (neg : bool) (mag : Z)
  | MLit (rest : string) (v : json)
  | MDone (v : json).

Record pstate : Type := mkP {
  p_mode : mode;
  p_stack : list frame;
  p_odd : bool
}.

(** Defining a member: an existing key keeps its place and takes the new
    value, a new key goes last. *)
Fixpoint obj_set (k : string) (v : json) (ms : list (string * json))
  : list (string * json) :=
  match ms with
  | [] => [(k, v)]
  | (k', v') :: r =>
      if String.eqb k' k then (k', v) :: r else (k', v') :: obj_set k v r
  end.

Fixpoint get_field (k : string) (ms : list (string * json)) : option json :=
  match ms with
  | [] => None
  | (k', v) :: r => if String.eqb k' k then Some v else get_field k r
  end.

Definition is_digit (n : Z) : bool := (48 <=? n) && (n <=? 57).

Fixpoint all_digits (s : string) : bool :=
  match s with
  | String c r => is_digit (code c) && all_digits r
  | EmptyString => true
  end.

(** Keys written as integers are kept by JavaScript in numeric order, not in
    order of definition; they are outside the conventions. *)
Definition index_like (k : string) : bool :=
  match k with
  | EmptyString => false
  | _ => all_digits k
  end.

(** The values that stand for JavaScript objects as they are: within each
    object no key occurs twice and none is written as an integer. *)
Fixpoint wf_json (j : json) : bool :=
  match j with
  | JArr l => forallb wf_json l
  | JObj m =>
      bool_decide (NoDup (map fst m))
      && forallb (fun kv => negb (index_like (fst kv)) && wf_json (snd kv)) m
  | _ => true
  end.

Definition string_of_rev (acc_rev : list ascii) : string :=
  string_of_list_ascii (List.rev acc_rev).

(** A finished value goes to the innermost open container. *)
Definition complete (v : json) (st : list frame) (odd : bool) : pstate :=
  match st with
  | [] => mkP (MDone v) [] odd
  | CArr es :: st' => mkP (MArrNext (v :: es)) st' odd
  | CMem ms k :: st' => mkP (MObjNext (obj_set k v ms)) st' odd
  end.

Definition is_json_ws (n : Z) : bool :=
  (n =? 32) || (n =? 9) || (n =? 10) || (n =? 13).

Definition hex_value (n : Z) : option Z :=
  if is_digit n then Some (n - 48)
  else if (97 <=? n) && (n <=? 102) then Some (n - 87)
  else if (65 <=? n) && (n <=? 70) then Some (n - 55)
  else None.

(** The first code unit of a value. *)
Definition start_value (st : list frame) (odd : bool) (c : ascii) : option pstate :=
  match code c with
  | 91 => Some (mkP MArrFirst st odd)
  | 123 => Some (mkP MObjFirst st odd)
  | 34 => Some (mkP (MStr None [] ENone) st odd)
  | 45 => Some (mkP (MNum NMinus true 0) st odd)
  | 48 => Some (mkP (MNum NZero false 0) st odd)
  | 116 => Some (mkP (MLit "rue" (JBool true)) st odd)
  | 102 => Some (mkP (MLit "alse" (JBool false)) st odd)
  | 110 => Some (mkP (MLit "ull" JNull) st odd)
  | n => if is_digit n then Some (mkP (MNum NInt false (n - 48)) st odd) else None
  end.

(** A code unit inside a string literal. *)
Definition step_string (key_of : option (list (string * json)))
    (acc : list ascii) (e : esc) (st : list frame) (odd : bool) (c : ascii)
  : option pstate :=
  let n := code c in
  let push (x : ascii) (o : bool) := Some (mkP (MStr key_of (x :: acc) ENone) st o) in
  match e with
  | ENone =>
      if n =? 34 then
        let s := string_of_rev acc in
        match key_of with
        | Some ms => Some (mkP (MObjColon ms s) st (index_like s || odd))
        | None => Some (complete (JStr s) st odd)
        end
      else if n =? 92 then Some (mkP (MStr key_of acc EBack) st odd)
      else if n <? 32 then None
      else push c odd
  | EBack =>
      match n with
      | 34 => push dquote odd
      | 92 => push "\"%char odd
      | 47 => push "/"%char odd
      | 98 => push "008"%char odd
      | 102 => push "012"%char odd
      | 110 => push "010"%char odd
      | 114 => push "013"%char odd
      | 116 => push "009"%char odd
      | 117 => Some (mkP (MStr key_of acc (EUni 0 0)) st odd)
      | _ => None
      end
  | EUni count v =>
      match hex_value n with
      | Some h =>
          let v' := v * 16 + h in
          if (count <? 3)%nat
          then Some (mkP (MStr key_of acc (EUni (S count) v')) st odd)
          else push (ascii_of_N (Z.to_N (v' mod 256))) ((256 <=? v') || odd)
      | None => None
      end
  end.

(** A code unit at a position outside numbers. *)
Definition step_plain (m : mode) (st : list frame) (odd : bool) (c : ascii)
  : option pstate :=
  let n := code c in
  match m with
  | MValue =>
      if is_json_ws n then Some (mkP MValue st odd) else start_value st odd c
  | MArrFirst =>
      if is_json_ws n then Some (mkP MArrFirst st odd)
      else if n =? 93 then Some (complete (JArr []) st odd)
      else start_value (CArr [] :: st) odd c
  | MArrNext es =>
      if is_json_ws n then Some (mkP (MArrNext es) st odd)
      else if n =? 44 then Some (mkP MValue (CArr es :: st) odd)
      else if n =? 93 then Some (complete (JArr (List.rev es)) st odd)
      else None
  | MObjFirst =>
      if is_json_ws n then Some (mkP MObjFirst st odd)
      else if n =? 125 then Some (complete (JObj []) st odd)
      else if n =? 34 then Some (mkP (MStr (Some []) [] ENone) st odd)
      else None
  | MObjKey ms =>
      if is_json_ws n then Some (mkP (MObjKey ms) st odd)
      else if n =? 34 then Some (mkP (MStr (Some ms) [] ENone) st odd)
      else None
  | MObjColon ms k =>
      if is_json_ws n then Some (mkP (MObjColon ms k) st odd)
      else if n =? 58 then Some (mkP MValue (CMem ms k :: st) odd)
      else None
  | MObjNext ms =>
      if is_json_ws n then Some (mkP (MObjNext ms) st odd)
      else if n =? 44 then Some (mkP (MObjKey ms) st odd)
      else if n =? 125 then Some (complete (JObj ms) st odd)
      else None
  | MStr key_of acc e => step_string key_of acc e st odd c
  | MLit rest v =>
      match rest with
      | String c' rest' =>
          if Ascii.eqb c c' then
            match rest' with
            | EmptyString => Some (complete v st odd)
            | _ => Some (mkP (MLit rest' v) st odd)
            end
          else None
      | EmptyString => None
      end
  | MDone v => if is_json_ws n then Some (mkP (MDone v) st odd) else None
  | MNum _ _ _ => None
  end.

Definition num_value (neg : bool) (mag : Z) : json :=
  JNum (if neg then - mag else mag).

(** Whether a number may end in this state, and if so whether it has a
    fraction or an exponent (which the conventions leave out). *)
Definition num_final (ns : nstate) : option bool :=
  match ns with
  | NZero | NInt => Some false
  | NFrac | NExpDigits => Some true
  | NMinus | NDot | NExp | NExpSign => None
  end.

(** The number ends before [c], which is then read at the position after the
    value. *)
Definition end_number (ns : nstate) (neg : bool) (mag : Z)
    (st : list frame) (odd : bool) (c : ascii) : option pstate :=
  match num_final ns with
  | Some o =>
      let p := complete (num_value neg mag) st (o || odd) in
      step_plain (p_mode p) (p_stack p) (p_odd p) c
  | None => None
  end.

(** A code unit inside a number. *)
Definition step_num (ns : nstate) (neg : bool) (mag : Z)
    (st : list frame) (odd : bool) (c : ascii) : option pstate :=
  let n := code c in
  let go (ns' : nstate) (mag' : Z) := Some (mkP (MNum ns' neg mag') st odd) in
  let is_e := (n =? 101) || (n =? 69) in
  match ns with
  | NMinus =>
      if n =? 48 then go NZero 0
      else if is_digit n then go NInt (n - 48)
      else None
  | NZero =>
      if is_digit n then None
      else if n =? 46 then go NDot mag
      else if is_e then go NExp mag
      else end_number ns neg mag st odd c
  | NInt =>
      if is_digit n then go NInt (mag * 10 + (n - 48))
      else if n =? 46 then go NDot mag
      else if is_e then go NExp mag
      else end_number ns neg mag st odd c
  | NDot => if is_digit n then go NFrac mag else None
  | NFrac =>
      if is_digit n then go NFrac mag
      else if is_e then go NExp mag
      else end_number ns neg mag st odd c
  | NExp =>
      if is_digit n then go NExpDigits mag
      else if (n =? 43) || (n =? 45) then go NExpSign mag
      else None
  | NExpSign => if is_digit n then go NExpDigits mag else None
  | NExpDigits =>
      if is_digit n then go NExpDigits mag
      else end_number ns neg mag st odd c
  end.

Definition step (p : pstate) (c : ascii) : option pstate :=
  match p_mode p with
  | MNum ns neg mag => step_num ns neg mag (p_stack p) (p_odd p) c
  | m => step_plain m (p_stack p) (p_odd p) c
  end.

Fixpoint run (s : string) (p : pstate) : option pstate :=
  match s with
  | String c r =>
      match step p c with
      | Some p' => run r p'
      | None => None
      end
  | EmptyString => Some p
  end.

(** At the end of the text a value must be complete and no container open. *)
Definition finish (p : pstate) : option (json * bool) :=
  match p_mode p, p_stack p with
  | MDone v, [] => Some (v, p_odd p)
  | MNum ns neg mag, [] =>
      match num_final ns with
      | Some o => Some (num_value neg mag, o || p_odd p)
      | None => None
      end
  | _, _ => None
  end.

(** [JSON.parse(s)]: the value, or a [SyntaxError]. *)
Definition JSON_parse (s : string) : result json :=
  match run s (mkP MValue [] false) with
  | Some p =>
      match finish p with
      | Some (v, false) => Ok v
      | Some (_, true) => Unsupported
      | None => Throw SyntaxError
      end
  | None => Throw SyntaxError
  end.

(** Truthiness of a parsed value, as [||] and [if] test it. *)
Definition truthy (j : json) : bool :=
  match j with
  | JNull => false
  | JBool b => b
  | JNum z => negb (z =? 0)
  | JStr s => negb (String.eqb s "")
  | JArr _ | JObj _ => true
  end.

(** ** Decimal text as a number

    [input.value > 1] converts the text of the input to a number.  A number
    input holds the empty string or a decimal numeral: an optional minus
    sign, digits, an optional fraction, an optional exponent.  [read_decimal]
    gives the exact value [m * 10 ^ e] of such text as the pair [(m, e)]. *)

Fixpoint digits_span (s : string) (acc count : Z) : Z * Z * string :=
  match s with
  | String c r =>
      if is_digit (code c)
      then digits_span r (acc * 10 + (code c - 48)) (count + 1)
      else (acc, count, s)
  | EmptyString => (acc, count, s)
  end.

Definition read_exponent (s : string) : option Z :=
  match s with
  | EmptyString => Some 0
  | String c r =>
      if (code c =? 101) || (code c =? 69) then
        let '(sign, r') :=
          match r with
          | String "-" t => (-1, t)
          | String "+" t => (1, t)
          | _ => (1, r)
          end in
        match digits_span r' 0 0 with
        | (e, n, EmptyString) => if 0 <? n then Some (sign * e) else None
        | _ => None
        end
      else None
  end.

(** The numeral after its sign. *)
Definition read_unsigned (sign : Z) (s1 : string) : option (Z * Z) :=
  let '(i, ni, s2) := digits_span s1 0 0 in
  let '(m, nf, s3) :=
    match s2 with
    | String "." r => digits_span r i 0
    | _ => (i, -1, s2)
    end in
  if (nf =? 0) || ((ni =? 0) && (nf =? -1)) then None
  else
    match read_exponent s3 with
    | Some e => Some (sign * m, e - Z.max nf 0)
    | None => None
    end.

Definition read_decimal (s : string) : option (Z * Z) :=
  match s with
  | String "-" r => read_unsigned (-1) r
  | _ => read_unsigned 1 s
  end.

(** Whether the double nearest to [m * 10 ^ e] is greater than 1: the
    doubles next to 1 are 1 and 1 + 2^-52, and a value up to their midpoint
    rounds to 1. *)
Definition decimal_gt_one (m e : Z) : bool :=
  if 0 <=? e
  then 2 ^ 53 + 1 <? m * 10 ^ e * 2 ^ 53
  else (2 ^ 53 + 1) * 10 ^ (- e) <? m * 2 ^ 53.

(** [value > 1] for the text of a number input. *)
Definition value_gt_one (value : string) : result bool :=
  match value with
  | EmptyString => Ok false
  | _ =>
      match read_decimal value with
      | Some (m, e) => Ok (decimal_gt_one m e)
      | None => Unsupported
      end
  end.

(** ** The cart *)

Record LineItem : Type := mkItem {
  id : Z;
  title : string;
  image : string;
  price : Z;
  quantity : num
}.

Definition set_quantity (q : num) (it : LineItem) : LineItem :=
  mkItem (id it) (title it) (image it) (price it) q.

(** A line item as a JSON object.  [JSON.stringify] writes [NaN] as [null]. *)
Definition encode_item (it : LineItem) : json :=
  JObj [("id", JNum (id it));
        ("title", JStr (title it));
        ("image", JStr (image it));
        ("price", JNum (price it));
        ("quantity", match quantity it with Int q => JNum q | NaN => JNull end)].

(** The object [{ items: this.items }]. *)
Definition encode_cart (l : list LineItem) : json :=
  JObj [("items", JArr (map encode_item l))].

Definition keys_are (ks : list string) (ms : list (string * json)) : bool :=
  bool_decide (map fst ms = ks).

(** A parsed object read as a line item: the five members, in this order. *)
Definition decode_item (j : json) : option LineItem :=
  match j with
  | JObj ([(_, JNum i); (_, JStr t); (_, JStr im); (_, JNum p); (_, JNum q)] as ms) =>
      if keys_are ["id"; "title"; "image"; "price"; "quantity"] ms
      then Some (mkItem i t im p (Int q))
      else None
  | _ => None
  end.

Fixpoint decode_items (l : list json) : option (list LineItem) :=
  match l with
  | [] => Some []
  | j :: r =>
      match decode_item j, decode_items r with
      | Some it, Some its => Some (it :: its)
      | _, _ => None
      end
  end.

(** [cart.items] for a parsed object whose [items] member is an array of
    line items. *)
Definition items_of (cart : json) : option (list LineItem) :=
  match cart with
  | JObj ms =>
      match get_field "items" ms with
      | Some (JArr l) => decode_items l
      | _ => None
      end
  | _ => None
  end.

(** ** The page *)

(** Text shown in an element.  [Currency amount] stands for the text the
    locale formatter gives for [amount]. *)
Inductive text : Type :=
  | Plain (s : string)
  | Currency (amount : num).

Definition formatCurrency (amount : num) : text := Currency amount.

(** A [.cart-item] element: its identity in the document, its [data-id],
    the text in its quantity input and its line total. *)
Record Row : Type := mkRow {
  node : nat;
  data_id : string;
  input_value : string;
  item_total : text
}.

(** What the item container holds: rows, or other markup.  [Spliced l] is
    the markup built from the items [l] when a title or an image reference
    among them brings markup of its own: what elements it yields is not
    interpreted, and the model has no rows for it. *)
Inductive content : Type :=
  | Rows (rows : list Row)
  | Markup (html : string)
  | Spliced (l : list LineItem).

(** The characters that matter where the template splices a title or an
    image reference: into an attribute value between double quotes and into
    the text of an element.  Text without [<], [>], [&] and quotes can
    neither close the attribute nor open a tag. *)
Definition markup_char (c : ascii) : bool :=
  let n := code c in
  (n =? 60) || (n =? 62) || (n =? 38) || (n =? 34) || (n =? 39).

Fixpoint markup_free (s : string) : bool :=
  match s with
  | String c r => negb (markup_char c) && markup_free r
  | EmptyString => true
  end.

Definition plain_item (item : LineItem) : bool :=
  markup_free (title item) && markup_free (image item).

(** Assigning a number to [input.value]: a number input keeps a numeral and
    turns anything else, [NaN] included, into the empty string.  The numeral
    is that of [Z_to_string]. *)
Definition input_text (n : num) : string :=
  match n with
  | Int z => Z_to_string z
  | NaN => ""
  end.

Definition API_URL : string :=
  "https://cdn.shopify.com/s/files/1/0883/2188/4479/files/cart.json?v=1".

(** What the remote resource answers to a request. *)
Inductive response : Type :=
  | Unreachable
  | Body (text : string).

(** The browser around the script: the store, the answer of the remote
    resource, and, latest first, the addresses requested with [fetch], the
    messages sent to [console.error] and those shown with [alert]. *)
Record World : Type := mkWorld {
  localStorage : gmap string string;
  remote : response;
  requests : list string;
  console : list string;
  alerts : list string
}.

(** The fields of [this], with each element the script holds standing for
    what it shows: the content of the item container, the text of the
    subtotal, total and count elements, the [display] style of the modal.
    [next_node] numbers the elements created so far. *)
Record CartManager : Type := mkCart {
  items : list LineItem;
  subtotal : num;
  cartItemsContainer : content;
  subtotalElement : text;
  totalElement : text;
  cartCountElement : text;
  removeModal : string;
  itemToRemove : option Row;
  next_node : nat
}.

(** Field updates. *)

Definition with_items (l : list LineItem) (cm : CartManager) : CartManager :=
  mkCart l (subtotal cm) (cartItemsContainer cm) (subtotalElement cm)
    (totalElement cm) (cartCountElement cm) (removeModal cm) (itemToRemove cm)
    (next_node cm).

Definition with_container (c : content) (cm : CartManager) : CartManager :=
  mkCart (items cm) (subtotal cm) c (subtotalElement cm) (totalElement cm)
    (cartCountElement cm) (removeModal cm) (itemToRemove cm) (next_node cm).

Definition with_modal (display : string) (cm : CartManager) : CartManager :=
  mkCart (items cm) (subtotal cm) (cartItemsContainer cm) (subtotalElement cm)
    (totalElement cm) (cartCountElement cm) display (itemToRemove cm)
    (next_node cm).

Definition with_itemToRemove (o : option Row) (cm : CartManager) : CartManager :=
  mkCart (items cm) (subtotal cm) (cartItemsContainer cm) (subtotalElement cm)
    (totalElement cm) (cartCountElement cm) (removeModal cm) o (next_node cm).

Definition with_localStorage (m : gmap string string) (w : World) : World :=
  mkWorld m (remote w) (requests w) (console w) (alerts w).

(** ** Helper functions of the script *)

(** [localStorage.setItem('cart', JSON.stringify(cart))]. *)
Definition saveCartToLocalStorage (cart : json) (w : World) : World :=
  with_localStorage (<["cart" := JSON_stringify cart]> (localStorage w)) w.

(** [JSON.parse(localStorage.getItem('cart')) || null].  [getItem] gives
    [null] for a missing key, which [JSON.parse] reads as the text [null]. *)
Definition getCartFromLocalStorage (w : World) : result (option json) :=
  let stored :=
    match localStorage w !! "cart" with
    | Some t => t
    | None => "null"
    end in
  match JSON_parse stored with
  | Ok v => Ok (if truthy v then Some v else None)
  | Throw e => Throw e
  | Unsupported => Unsupported
  end.

(** ** [CartManager] *)

(** The constructor, on a page whose elements show [container], [sub],
    [total] and [count], with the modal's [display] style as the page has
    it. *)
Definition constructor (container : content) (sub total count : text)
    (display : string) : CartManager :=
  mkCart [] (Int 0) container sub total count display None 0.

(** The reduction in [calculateTotals] giving the subtotal. *)
Definition subtotal_of (l : list LineItem) : num :=
  fold_left
    (fun total item => num_add total (num_mul (Int (price item)) (quantity item)))
    l (Int 0).

(** The reduction in [calculateTotals] giving the cart count. *)
Definition totalItems_of (l : list LineItem) : num :=
  fold_left (fun count item => num_add count (quantity item)) l (Int 0).

Definition calculateTotals (cm : CartManager) : CartManager :=
  let subtotal' := subtotal_of (items cm) in
  let totalItems := totalItems_of (items cm) in
  mkCart (items cm) subtotal' (cartItemsContainer cm)
    (formatCurrency subtotal') (formatCurrency subtotal')
    (Plain (num_to_string totalItems))
    (removeModal cm) (itemToRemove cm) (next_node cm).

(** The [.cart-item] element that the markup of one item yields when the
    title and the image reference spliced into it are free of markup; [n] is
    its identity.  Of what the template splices, the element keeps what the
    script reads again: the [data-id], the value of the quantity input and
    the line total. *)
Definition createCartItemHTML (n : nat) (item : LineItem) : Row :=
  mkRow n (Z_to_string (id item)) (input_text (quantity item))
    (formatCurrency (num_mul (Int (price item)) (quantity item))).

Fixpoint create_rows (n : nat) (l : list LineItem) : list Row :=
  match l with
  | [] => []
  | item :: r => createCartItemHTML n item :: create_rows (S n) r
  end.

(** Setting [innerHTML] to the joined markup builds fresh elements: one
    row per item when every title and image reference is free of markup.
    The listeners attached to the rows are the handlers [on_change],
    [on_increase], [on_decrease] and [on_remove] below. *)
Definition renderCartItems (cm : CartManager) : CartManager :=
  let rows := create_rows (next_node cm) (items cm) in
  let container :=
    if forallb plain_item (items cm) then Rows rows else Spliced (items cm) in
  calculateTotals
    (mkCart (items cm) (subtotal cm) container (subtotalElement cm)
       (totalElement cm) (cartCountElement cm) (removeModal cm)
       (itemToRemove cm) (next_node cm + length rows)%nat).

Definition error_html : string :=
  "<p>Error loading cart. Please try again later.</p>".

(** The body of the [try] block of [fetchCartItems]: it returns, or throws
    in the state reached so far.  [Beyond] stands for a run that is outside
    the conventions: the parser's [Unsupported], or a document that is not a
    cart, from which the script assigns to [this.items] a value that is no
    list of line items before it goes on (to throw in [renderCartItems] when
    that value is no array, and to render it otherwise). *)
Inductive attempt : Type :=
  | Returned (cm : CartManager) (w : World)
  | Thrown (e : exn) (cm : CartManager) (w : World)
  | Beyond.

Definition fetch_and_render (cm : CartManager) (w : World) : attempt :=
  let w1 := mkWorld (localStorage w) (remote w) (API_URL :: requests w)
              (console w) (alerts w) in
  match remote w with
  | Unreachable => Thrown TypeError cm w1
  | Body t =>
      match JSON_parse t with
      | Throw e => Thrown e cm w1
      | Unsupported => Beyond
      | Ok JNull => Thrown TypeError cm w1
      | Ok cartData =>
          match items_of cartData with
          | Some l =>
              Returned (renderCartItems (with_items l cm))
                (saveCartToLocalStorage cartData w1)
          | None => Beyond
          end
      end
  end.

Definition fetchCartItems_try (cm : CartManager) (w : World) : attempt :=
  match getCartFromLocalStorage w with
  | Throw e => Thrown e cm w
  | Unsupported => Beyond
  | Ok (Some storedCart) =>
      match items_of storedCart with
      | Some l => Returned (renderCartItems (with_items l cm)) w
      | None => Beyond
      end
  | Ok None => fetch_and_render cm w
  end.

(** [console.error('Error fetching cart items:', error)]. *)
Definition log_error (w : World) : World :=
  mkWorld (localStorage w) (remote w) (requests w)
    ("Error fetching cart items:" :: console w) (alerts w).

Definition fetchCartItems (cm : CartManager) (w : World)
  : result (CartManager * World) :=
  match fetchCartItems_try cm w with
  | Returned cm' w' => Ok (cm', w')
  | Thrown e cm' w' =>
      Ok (with_container (Markup error_html) cm', log_error w')
  | Beyond => Unsupported
  end.

(** *** Rows of the container *)

Definition container_rows (cm : CartManager) : list Row :=
  match cartItemsContainer cm with
  | Rows rows => rows
  | Markup _ | Spliced _ => []
  end.

Definition get_row (n : nat) (cm : CartManager) : option Row :=
  List.find (fun r => Nat.eqb (node r) n) (container_rows cm).

Definition map_rows (f : Row -> Row) (cm : CartManager) : CartManager :=
  match cartItemsContainer cm with
  | Rows rows => with_container (Rows (map f rows)) cm
  | Markup _ | Spliced _ => cm
  end.

(** Writing the state of element [r] back into the document. *)
Definition put_row (r : Row) (cm : CartManager) : CartManager :=
  map_rows (fun r0 => if Nat.eqb (node r0) (node r) then r else r0) cm.

Definition set_row_total (n : nat) (t : text) (cm : CartManager) : CartManager :=
  map_rows
    (fun r0 =>
       if Nat.eqb (node r0) n
       then mkRow (node r0) (data_id r0) (input_value r0) t
       else r0) cm.

(** [element.remove()]. *)
Definition remove_row (n : nat) (cm : CartManager) : CartManager :=
  match cartItemsContainer cm with
  | Rows rows =>
      with_container (Rows (List.filter (fun r => negb (Nat.eqb (node r) n)) rows)) cm
  | Markup _ | Spliced _ => cm
  end.

(** *** Quantity *)

(** [item.id === parseInt(itemId)], the test of the lookup and, negated, of
    the removal. *)
Definition id_matches (itemId : string) (item : LineItem) : bool :=
  strict_eq (VNum (Int (id item))) (VNum (parseInt itemId)).

(** [item.id === itemId], the test of the lookup in the earlier version of
    the script. *)
Definition id_matches_uncoerced (itemId : string) (item : LineItem) : bool :=
  strict_eq (VNum (Int (id item))) (VStr itemId).

(** Assigning to a member of the object that [find] returned: the first
    element passing the test changes, in place. *)
Fixpoint update_first (test : LineItem -> bool) (f : LineItem -> LineItem)
    (l : list LineItem) : list LineItem :=
  match l with
  | [] => []
  | item :: r =>
      if test item then f item :: r else item :: update_first test f r
  end.

(** [updateItemQuantity(input)] for a given lookup test; [input] is the row
    holding the input element. *)
Definition updateItemQuantity_with (test : string -> LineItem -> bool)
    (input : Row) (cm : CartManager) (w : World) : CartManager * World :=
  let itemId := data_id input in
  let newQuantity := parseInt (input_value input) in
  match List.find (test itemId) (items cm) with
  | Some itemToUpdate =>
      let cm1 :=
        with_items
          (update_first (test itemId) (set_quantity newQuantity) (items cm)) cm in
      let cm2 :=
        set_row_total (node input)
          (formatCurrency (num_mul (Int (price itemToUpdate)) newQuantity)) cm1 in
      let cm3 := calculateTotals cm2 in
      (cm3, saveCartToLocalStorage (encode_cart (items cm3)) w)
  | None => (cm, w)
  end.

Definition updateItemQuantity : Row -> CartManager -> World -> CartManager * World :=
  updateItemQuantity_with id_matches.

(** Modelled from the spec: the earlier version of [updateItemQuantity],
    whose text stops right after its lookup.  The spec describes the two
    versions as the same logic with identifiers compared as strings in one
    and coerced to numbers in the other, so the rest of the body is taken to
    be that of the later version. *)
Definition updateItemQuantity_v1 : Row -> CartManager -> World -> CartManager * World :=
  updateItemQuantity_with id_matches_uncoerced.

Definition with_input_value (v : string) (r : Row) : Row :=
  mkRow (node r) (data_id r) v (item_total r).

(** The [change] listener of the quantity input of row [n], after the user
    has left [v] in it. *)
Definition on_change (n : nat) (v : string) (cm : CartManager) (w : World)
  : CartManager * World :=
  match get_row n cm with
  | Some r =>
      let input := with_input_value v r in
      updateItemQuantity input (put_row input cm) w
  | None => (cm, w)
  end.

(** The [click] listener of the increase button of row [n]. *)
Definition on_increase (n : nat) (cm : CartManager) (w : World)
  : CartManager * World :=
  match get_row n cm with
  | Some r =>
      let input :=
        with_input_value
          (input_text (num_add (parseInt (input_value r)) (Int 1))) r in
      updateItemQuantity input (put_row input cm) w
  | None => (cm, w)
  end.

(** The [click] listener of the decrease button of row [n]. *)
Definition on_decrease (n : nat) (cm : CartManager) (w : World)
  : result (CartManager * World) :=
  match get_row n cm with
  | Some r =>
      match value_gt_one (input_value r) with
      | Ok true =>
          let input :=
            with_input_value
              (input_text (num_sub (parseInt (input_value r)) (Int 1))) r in
          Ok (updateItemQuantity input (put_row input cm) w)
      | Ok false => Ok (cm, w)
      | Throw e => Throw e
      | Unsupported => Unsupported
      end
  | None => Ok (cm, w)
  end.

(** *** Removal *)

Definition showRemoveModal (cm : CartManager) : CartManager :=
  with_modal "block" cm.

(** The [click] listener of the removal icon of row [n]. *)
Definition on_remove (n : nat) (cm : CartManager) : CartManager :=
  match get_row n cm with
  | Some cartItem => showRemoveModal (with_itemToRemove (Some cartItem) cm)
  | None => cm
  end.

Definition closeRemoveModal (cm : CartManager) : CartManager :=
  with_itemToRemove None (with_modal "none" cm).

Definition confirmRemoveItem (cm : CartManager) (w : World)
  : CartManager * World :=
  match itemToRemove cm with
  | Some el =>
      let itemId := data_id el in
      let cm1 :=
        with_items
          (List.filter (fun item => negb (id_matches itemId item)) (items cm)) cm in
      let cm2 := remove_row (node el) cm1 in
      let cm3 := calculateTotals cm2 in
      let w' := saveCartToLocalStorage (encode_cart (items cm3)) w in
      (closeRemoveModal cm3, w')
  | None => (cm, w)
  end.

(** *** Checkout *)

Definition alert (msg : string) (w : World) : World :=
  mkWorld (localStorage w) (remote w) (requests w) (console w) (msg :: alerts w).

Definition proceedToCheckout (cm : CartManager) (w : World) : World :=
  match items cm with
  | [] => alert "Your cart is empty!" w
  | _ :: _ => alert "Proceeding to checkout..." w
  end.

Definition init : CartManager -> World -> result (CartManager * World) :=
  fetchCartItems.

(** ** User events *)

Inductive event : Type :=
  | Change (n : nat) (v : string)
  | Increase (n : nat)
  | Decrease (n : nat)
  | Remove (n : nat)
  | Cancel
  | Confirm
  | Checkout.

Definition handle (e : event) (cm : CartManager) (w : World)
  : result (CartManager * World) :=
  match e with
  | Change n v => Ok (on_change n v cm w)
  | Increase n => Ok (on_increase n cm w)
  | Decrease n => on_decrease n cm w
  | Remove n => Ok (on_remove n cm, w)
  | Cancel => Ok (closeRemoveModal cm, w)
  | Confirm => Ok (confirmRemoveItem cm w)
  | Checkout => Ok (cm, proceedToCheckout cm w)
  end.

Fixpoint handle_all (es : list event) (cm : CartManager) (w : World)
  : result (CartManager * World) :=
  match es with
  | [] => Ok (cm, w)
  | e :: r =>
      match handle e cm w with
      | Ok (cm', w') => handle_all r cm' w'
      | Throw x => Throw x
      | Unsupported => Unsupported
      end
  end.

(** ** The stated aggregates

    The sum of unit price times quantity over all items, and the sum of the
    quantities, written by recursion on the list and with the arithmetic of
    JavaScript numbers. *)

Fixpoint sum_num (l : list num) : num :=
  match l with
  | [] => Int 0
  | x :: r => num_add x (sum_num r)
  end.

Definition line_total (it : LineItem) : num :=
  num_mul (Int (price it)) (quantity it).

Definition stated_subtotal (l : list LineItem) : num :=
  sum_num (map line_total l).

Definition stated_item_count (l : list LineItem) : num :=
  sum_num (map quantity l).

(** The same sums over the integers, for a cart whose quantities are all
    integers. *)
Definition integral (l : list LineItem) : bool :=
  forallb (fun it => match quantity it with Int _ => true | NaN => false end) l.

Definition quantity_Z (it : LineItem) : Z :=
  match quantity it with
  | Int q => q
  | NaN => 0
  end.

Fixpoint sum_Z (l : list Z) : Z :=
  match l with
  | [] => 0
  | x :: r => x + sum_Z r
  end.

(** ** The removal dialogue *)

(** The controller awaits a confirmation for [el]: the element is pending
    and the modal is shown. *)
Definition confirming (el : Row) (cm : CartManager) : Prop :=
  itemToRemove cm = Some el /\ removeModal cm = "block".

(** Nothing is pending and the modal is hidden. *)
Definition idle (cm : CartManager) : Prop :=
  itemToRemove cm = None /\ removeModal cm = "none".

(** ** Induction on JSON values

    A value is reached once all the elements, or members, inside it are. *)

Section json_induction.
Variable P : json -> Prop.
Hypothesis HNull : P JNull.
Hypothesis HBool : forall b, P (JBool b).
Hypothesis HNum : forall z, P (JNum z).
Hypothesis HStr : forall s, P (JStr s).
Hypothesis HArr : forall l, Forall P l -> P (JArr l).
Hypothesis HObj : forall m, Forall (fun kv => P (snd kv)) m -> P (JObj m).

Fixpoint json_ind (j : json) : P j :=
  match j with
  | JNull => HNull
  | JBool b => HBool b
  | JNum z => HNum z
  | JStr s => HStr s
  | JArr l =>
      HArr l
        ((fix all (l : list json) : Forall P l :=
            match l with
            | [] => List.Forall_nil P
            | x :: r => List.Forall_cons P x r (json_ind x) (all r)
            end) l)
  | JObj m =>
      HObj m
        ((fix all (m : list (string * json)) : Forall (fun kv => P (snd kv)) m :=
            match m with
            | [] => List.Forall_nil _
            | kv :: r => List.Forall_cons _ kv r (json_ind (snd kv)) (all r)
            end) m)
  end.
End json_induction.

(** ** Notions used in the proofs about the parser *)

(** A numeral without a leading zero. *)
Definition head_nonzero (d : uint) : Prop :=
  match d with
  | Nil | D0 _ => False
  | _ => True
  end.

(** The parser's position after the digits of [z]. *)
Definition nstate_of (z : Z) : nstate := if z =? 0 then NZero else NInt.

(** A text goes on after a value if it begins with a separator or a closing
    bracket. *)
Definition delimited (rest : string) : Prop :=
  exists c r, rest = String c r /\ (c = "," \/ c = "]" \/ c = "}")%char.

(** What the parser is to show for one value [j]. *)
Definition read_back (j : json) : Prop :=
  wf_json j = true ->
  forall st odd (rest : string),
    (match j with JNum _ => delimited rest | _ => True end) ->
    run (JSON_stringify j ++ rest) (mkP MValue st odd)
    = run rest (complete j st odd).

Definition after_element (r : list json) : string :=
  match r with
  | [] => "]"
  | _ :: _ => "," ++ stringify_elements r
  end.

Definition after_member (r : list (string * json)) : string :=
  match r with
  | [] => "}"
  | _ :: _ => "," ++ stringify_members r
  end.

(** ** The quantity floor *)

(** Every quantity of the cart is an integer, at least 1. *)
Definition floor_ok (l : list LineItem) : Prop :=
  Forall (fun it => exists q, quantity it = Int q /\ 1 <= q) l.

(** Every quantity input of the page holds the text of an integer, at
    least 1. *)
Definition row_ok (r : Row) : Prop :=
  exists z, input_value r = Z_to_string z /\ 1 <= z.

Definition rows_ok (cm : CartManager) : Prop :=
  Forall row_ok (container_rows cm).

(** The events of the steppers and of the removal dialogue: all but a direct
    edit of a quantity input. *)
Definition no_edit (e : event) : bool :=
  match e with
  | Change _ _ => false
  | _ => true
  end.

(** ** Loading over unreadable text, as stated

    The stated handling of a stored text that [JSON.parse] rejects: the
    loader reports an empty store and the load goes on to the remote fetch,
    as when nothing is stored. *)
Definition parse_failure_is_cache_miss : Prop :=
  forall (cm : CartManager) (w : World) (t : string) (e : exn),
    localStorage w !! "cart" = Some t ->
    JSON_parse t = Throw e ->
    getCartFromLocalStorage w = Ok None
    /\ fetchCartItems_try cm w = fetch_and_render cm w.

(** ** Sample data *)

Definition shirt : LineItem := mkItem 1 "Shirt" "shirt.png" 1000 (Int 2).
Definition hat : LineItem := mkItem 5 "Hat" "hat.png" 250 (Int 1).

(** A browser holding [stored] under ['cart'] (or nothing), whose remote
    resource answers [r]. *)
Definition browser (stored : option string) (r : response) : World :=
  mkWorld
    (match stored with
     | Some t => <["cart" := t]> ∅
     | None => ∅
     end) r [] [] [].

(** The manager as constructed on a page with an empty cart display. *)
Definition fresh : CartManager :=
  constructor (Rows []) (Plain "") (Plain "") (Plain "0") "none".

(** The text of a cart with a shirt and a hat. *)
Definition cart_text : string := JSON_stringify (encode_cart [shirt; hat]).

(** A stored text that is not JSON. *)
Definition broken_text : string := "{".

(** The page after loading [cart_text] from the remote resource on an empty
    store. *)
Definition loaded : CartManager * World :=
  match fetchCartItems fresh (browser None (Body cart_text)) with
  | Ok p => p
  | _ => (fresh, browser None (Body cart_text))
  end.

(** The hat's row, and the page once its removal icon was clicked. *)
Definition hat_row : Row := createCartItemHTML 1 hat.
Definition shirt_row : Row := createCartItemHTML 0 shirt.
Definition removing_hat : CartManager := on_remove 1 (fst loaded).


(** ** What the parser holds while it reads

    Every value and every member list kept in the parser's state stands for
    a JavaScript value as it is ([wf_json]), as long as nothing outside the
    conventions was met. *)

Definition members_wf (ms : list (string * json)) : bool := wf_json (JObj ms).

Definition frame_wf (f : frame) : bool :=
  match f with
  | CArr es => forallb wf_json es
  | CMem ms k => members_wf ms && negb (index_like k)
  end.

Definition mode_wf (m : mode) : bool :=
  match m with
  | MValue | MArrFirst | MObjFirst | MNum _ _ _ | MStr None _ _ => true
  | MArrNext es => forallb wf_json es
  | MObjKey ms | MObjNext ms | MStr (Some ms) _ _ => members_wf ms
  | MObjColon ms k => members_wf ms && negb (index_like k)
  | MLit _ v | MDone v => wf_json v
  end.

Definition wf_state (m : mode) (st : list frame) : Prop :=
  mode_wf m = true /\ forallb frame_wf st = true.

(** A step from position [m], open containers [st] and mark [odd] to [p']
    never clears the mark, and keeps the state well formed while the mark is
    not set. *)
Definition preserves (odd : bool) (m : mode) (st : list frame) (p' : pstate)
  : Prop :=
  p_odd p' = false ->
  odd = false /\ (wf_state m st -> wf_state (p_mode p') (p_stack p')).

(** ** The page and the cart

    The conditions under which the page shows the cart. *)

(** The totals on display are those of the cart. *)
Definition totals_ok (cm : CartManager) : Prop :=
  subtotal cm = stated_subtotal (items cm)
  /\ subtotalElement cm = formatCurrency (stated_subtotal (items cm))
  /\ totalElement cm = formatCurrency (stated_subtotal (items cm))
  /\ cartCountElement cm = Plain (num_to_string (stated_item_count (items cm))).

(** Row [r] shows item [it]: its identifier, its quantity and its line
    total. *)
Definition shows (r : Row) (it : LineItem) : Prop :=
  data_id r = Z_to_string (id it)
  /\ input_value r = input_text (quantity it)
  /\ item_total r = formatCurrency (line_total it).

(** The pending element, if any, is one of the rows of the container. *)
Definition pending_ok (cm : CartManager) : Prop :=
  forall el, itemToRemove cm = Some el ->
    exists r, In r (container_rows cm) /\ node r = node el /\ data_id r = data_id el.

(** The page shows the cart: identifiers and elements are distinct,
    quantities are integers, and the rows show the items one by one, in
    order. *)
Definition page_ok (cm : CartManager) : Prop :=
  List.NoDup (map id (items cm))
  /\ List.NoDup (map node (container_rows cm))
  /\ integral (items cm) = true
  /\ Forall2 shows (container_rows cm) (items cm)
  /\ pending_ok cm.

(** The store holds the cart. *)
Definition stored_ok (cm : CartManager) (w : World) : Prop :=
  exists stored,
    getCartFromLocalStorage w = Ok (Some stored)
    /\ items_of stored = Some (items cm).

(** A direct edit that leaves the numeral of an integer in the input; any
    other event. *)
Definition integer_edit (e : event) : bool :=
  match e with
  | Change _ v =>
      match parseInt v with
      | Int z => String.eqb v (Z_to_string z)
      | NaN => false
      end
  | _ => true
  end.

(** The events of the quantity controls. *)
Definition quantity_event (e : event) : bool :=
  match e with
  | Change _ _ | Increase _ | Decrease _ => true
  | _ => false
  end.

(** The cart and the store after some events, against those before: either
    items and store are untouched, or the store holds the cart as it is
    now. *)
Definition written (cm : CartManager) (w : World) (cm' : CartManager)
    (w' : World) : Prop :=
  (items cm' = items cm /\ localStorage w' = localStorage w)
  \/ localStorage w' !! "cart" = Some (JSON_stringify (encode_cart (items cm'))).

(** The browser after some events, against the one before: no request was
    made, nothing was logged, and no key of the store but ['cart'] has
    changed. *)
Definition quiet (w w' : World) : Prop :=
  requests w' = requests w
  /\ console w' = console w
  /\ remote w' = remote w
  /\ forall k, k <> "cart" -> localStorage w' !! k = localStorage w !! k.

(** The cart [l] with the quantity of the item of identifier [k] set to
    [z]. *)
Definition with_quantity (k z : Z) (l : list LineItem) : list LineItem :=
  map (fun x => if id x =? k then set_quantity (Int z) x else x) l.

(** The cart [l] without the item of identifier [k]. *)
Definition without (k : Z) (l : list LineItem) : list LineItem :=
  List.filter (fun x => negb (id x =? k)) l.

(** What a line item is, quantity aside. *)
Definition catalog (it : LineItem) : Z * string * string * Z :=
  (id it, title it, image it, price it).

(** ** Within the safe integers

    The conditions under which the numbers of the script are exact. *)

(** The values a reduction with [+] goes through, from [acc] on. *)
Fixpoint running (acc : Z) (l : list Z) : list Z :=
  match l with
  | [] => []
  | x :: r => (acc + x) :: running (acc + x) r
  end.

(** A cart with integer quantities and safe prices whose line totals and
    whose quantities, whatever their signs, add up within the safe
    integers. *)
Definition safe_sums (l : list LineItem) : Prop :=
  integral l = true
  /\ Forall (fun it => safe (price it)) l
  /\ sum_Z (map (fun it => Z.abs (price it * quantity_Z it)) l) <= MAX_SAFE_INTEGER
  /\ sum_Z (map (fun it => Z.abs (quantity_Z it)) l) <= MAX_SAFE_INTEGER.

(** The quantities are integers of magnitude at most [b]. *)
Definition quantities_within (b : Z) (l : list LineItem) : Prop :=
  Forall (fun it => exists q, quantity it = Int q /\ Z.abs q <= b) l.

(** Identifiers and prices are safe integers, and so is every line total
    as long as the quantities are of magnitude at most [b]. *)
Definition catalog_within (b : Z) (l : list LineItem) : Prop :=
  Forall
    (fun it =>
       safe (id it) /\ safe (price it)
       /\ Z.abs (price it) * b <= MAX_SAFE_INTEGER) l.

(** A direct edit that leaves in the input the numeral of an integer of
    magnitude at most [b]; any other event. *)
Definition edit_within (b : Z) (e : event) : bool :=
  match e with
  | Change _ v =>
      match parseInt v with
      | Int z => String.eqb v (Z_to_string z) && (Z.abs z <=? b)
      | NaN => false
      end
  | _ => true
  end.

(** ** The documents a load is proved about *)

(** A cart: an object whose [items] member is an array of line items. *)
Definition is_cart (v : json) : Prop := exists l, items_of v = Some l.

(** Text in the store: what [JSON.parse] rejects, a falsy value, or a
    cart. *)
Definition stored_text_in_scope (t : string) : Prop :=
  (exists e, JSON_parse t = Throw e)
  \/ (exists v, JSON_parse t = Ok v /\ (truthy v = false \/ is_cart v)).

(** The body of the remote answer: what [JSON.parse] rejects, [null], or a
    cart. *)
Definition remote_text_in_scope (t : string) : Prop :=
  (exists e, JSON_parse t = Throw e)
  \/ (exists v, JSON_parse t = Ok v /\ (v = JNull \/ is_cart v)).

(** The store holds nothing under ['cart'], or text in scope; the remote
    resource is unreachable, or answers text in scope. *)
Definition load_in_scope (w : World) : Prop :=
  (forall t, localStorage w !! "cart" = Some t -> stored_text_in_scope t)
  /\ (forall t, remote w = Body t -> remote_text_in_scope t).
(** *** [parseInt] reads back what [String] prints *)

Lemma radix_prefix_uint (d : uint) (acc : Z) :
  radix_prefix 10 (NilEmpty.string_of_uint d) acc
  = acc * 10 ^ Z.of_N (DecimalPos.Unsigned.usize d) + Z.of_N (DecimalPos.Unsigned.of_lu (Decimal.rev d)).
Proof.
  revert acc.
  induction d as [|d IH|d IH|d IH|d IH|d IH|d IH|d IH|d IH|d IH|d IH];
    intros acc; cbn [NilEmpty.string_of_uint radix_prefix DecimalPos.Unsigned.usize].
  1: { cbn. lia. }
  all: unfold Decimal.rev; cbn [revapp]; rewrite DecimalPos.Unsigned.of_lu_revapp;
    change (radix_digit 10 _) with (Some 0) || change (radix_digit 10 _) with (Some 1)
    || change (radix_digit 10 _) with (Some 2) || change (radix_digit 10 _) with (Some 3)
    || change (radix_digit 10 _) with (Some 4) || change (radix_digit 10 _) with (Some 5)
    || change (radix_digit 10 _) with (Some 6) || change (radix_digit 10 _) with (Some 7)
    || change (radix_digit 10 _) with (Some 8) || change (radix_digit 10 _) with (Some 9);
    cbv iota beta; rewrite IH; fold (Decimal.rev d);
    rewrite N2Z.inj_succ, Z.pow_succ_r by lia;
    rewrite N2Z.inj_add, N2Z.inj_mul, N2Z.inj_pow;
    cbn [DecimalPos.Unsigned.of_lu]; lia.
Qed.

Lemma parse_magnitude_uint (sign : Z) (d : uint) :
  d <> Nil ->
  parse_magnitude sign (NilEmpty.string_of_uint d)
  = Int (sign * Z.of_N (Pos.of_uint d)).
Proof.
  intros Hd. rewrite DecimalPos.Unsigned.of_uint_alt.
  rewrite <- (Z.add_0_l (Z.of_N _)).
  change 0 with (0 * 10 ^ Z.of_N (DecimalPos.Unsigned.usize d)) at 1.
  rewrite <- radix_prefix_uint.
  destruct d as [|d|d|d|d|d|d|d|d|d|d]; try congruence; try reflexivity.
  destruct d; reflexivity.
Qed.

Lemma trim_start_uint (d : uint) :
  trim_start (NilEmpty.string_of_uint d) = NilEmpty.string_of_uint d.
Proof. destruct d; reflexivity. Qed.

Lemma parseInt_uint (d : uint) :
  d <> Nil ->
  parseInt (NilEmpty.string_of_uint d) = Int (Z.of_N (Pos.of_uint d)).
Proof.
  intros Hd. unfold parseInt. rewrite trim_start_uint.
  rewrite <- (Z.mul_1_l (Z.of_N _)), <- parse_magnitude_uint by assumption.
  destruct d; try congruence; reflexivity.
Qed.

(** [parseInt(String(z)) === z] for every integer [z]. *)
Lemma parseInt_Z_to_string (z : Z) : parseInt (Z_to_string z) = Int z.
Proof.
  destruct z as [|p|p]; [reflexivity| |].
  - unfold Z_to_string, Z.to_int, NilZero.string_of_int, NilZero.string_of_uint.
    pose proof (DecimalPos.Unsigned.to_uint_nonnil p) as Hp.
    destruct (Pos.to_uint p) eqn:E; try congruence;
      rewrite <- E in *; rewrite parseInt_uint by assumption;
      rewrite DecimalPos.Unsigned.of_to; reflexivity.
  - unfold Z_to_string, Z.to_int, NilZero.string_of_int, NilZero.string_of_uint.
    pose proof (DecimalPos.Unsigned.to_uint_nonnil p) as Hp.
    destruct (Pos.to_uint p) eqn:E; try congruence;
      rewrite <- E in *; unfold parseInt; cbn [trim_start]; 
      change (is_white_space "-") with false; cbv iota;
      rewrite parse_magnitude_uint by assumption;
      rewrite DecimalPos.Unsigned.of_to; reflexivity.
Qed.

Lemma stringify_arr (l : list json) :
  JSON_stringify (JArr l) = "[" ++ stringify_elements l.
Proof. reflexivity. Qed.

Lemma stringify_obj (m : list (string * json)) :
  JSON_stringify (JObj m) = "{" ++ stringify_members m.
Proof. reflexivity. Qed.

(** *** Running the parser over appended text *)

Lemma append_cons (c : ascii) (a b : string) :
  String c a ++ b = String c (a ++ b).
Proof. reflexivity. Qed.

Lemma append_nil (b : string) : "" ++ b = b.
Proof. reflexivity. Qed.

Lemma append_assoc (a b c : string) : (a ++ b) ++ c = a ++ (b ++ c).
Proof.
  induction a as [|x a IH]; [reflexivity|].
  rewrite !append_cons. now rewrite IH.
Qed.

Lemma append_empty (a : string) : a ++ "" = a.
Proof.
  induction a as [|x a IH]; [reflexivity|]. rewrite append_cons. now rewrite IH.
Qed.

Lemma run_cons (c : ascii) (r : string) (p : pstate) :
  run (String c r) p = match step p c with Some p' => run r p' | None => None end.
Proof. reflexivity. Qed.

Lemma run_app (a b : string) (p : pstate) :
  run (a ++ b) p = match run a p with Some p' => run b p' | None => None end.
Proof.
  revert p. induction a as [|c a IH]; intros p; [reflexivity|].
  rewrite append_cons, !run_cons.
  destruct (step p c); [apply IH | reflexivity].
Qed.

(** *** Strings are read back *)

Lemma run_quote_char (c : ascii) key_of acc st odd (rest : string) :
  run (quote_char c ++ rest) (mkP (MStr key_of acc ENone) st odd)
  = run rest (mkP (MStr key_of (c :: acc) ENone) st odd).
Proof.
  destruct c as [[] [] [] [] [] [] [] []]; reflexivity.
Qed.

Lemma run_quote_chars (s : string) key_of acc st odd (rest : string) :
  run (quote_chars s ++ rest) (mkP (MStr key_of acc ENone) st odd)
  = run rest
      (mkP (MStr key_of (List.rev (list_ascii_of_string s) ++ acc)%list ENone) st odd).
Proof.
  revert acc. induction s as [|c s IH]; intros acc; [reflexivity|].
  cbn [quote_chars list_ascii_of_string List.rev].
  rewrite append_assoc, run_quote_char, IH.
  now rewrite <- app_assoc.
Qed.

Lemma string_of_rev_rev (s : string) :
  string_of_rev (List.rev (list_ascii_of_string s) ++ [])%list = s.
Proof.
  unfold string_of_rev.
  rewrite app_nil_r, rev_involutive. apply string_of_list_ascii_of_string.
Qed.

Lemma run_quote_from (s : string) key_of st odd (rest : string) :
  run (quote_chars s ++ String dquote rest) (mkP (MStr key_of [] ENone) st odd)
  = match key_of with
    | Some ms => run rest (mkP (MObjColon ms s) st (index_like s || odd))
    | None => run rest (complete (JStr s) st odd)
    end.
Proof.
  rewrite run_quote_chars, run_cons.
  unfold step, p_mode, p_stack, p_odd, step_plain, step_string.
  change (code dquote =? 34) with true. cbv iota.
  rewrite string_of_rev_rev. destruct key_of; reflexivity.
Qed.

Lemma quote_append (s rest : string) :
  quote s ++ rest = String dquote (quote_chars s ++ String dquote rest).
Proof.
  unfold quote. rewrite append_cons, append_assoc. reflexivity.
Qed.

Lemma run_quote_value (s : string) st odd (rest : string) :
  run (quote s ++ rest) (mkP MValue st odd) = run rest (complete (JStr s) st odd).
Proof.
  rewrite quote_append, run_cons.
  change (step (mkP MValue st odd) dquote)
    with (Some (mkP (MStr None [] ENone) st odd)).
  cbv iota. apply (run_quote_from s None).
Qed.

Lemma run_quote_key (k : string) ms st odd (rest : string) :
  run (quote k ++ rest) (mkP (MObjKey ms) st odd)
  = run rest (mkP (MObjColon ms k) st (index_like k || odd)).
Proof.
  rewrite quote_append, run_cons.
  change (step (mkP (MObjKey ms) st odd) dquote)
    with (Some (mkP (MStr (Some ms) [] ENone) st odd)).
  cbv iota. apply (run_quote_from k (Some ms)).
Qed.

Lemma run_quote_first_key (k : string) st odd (rest : string) :
  run (quote k ++ rest) (mkP MObjFirst st odd)
  = run rest (mkP (MObjColon [] k) st (index_like k || odd)).
Proof.
  rewrite quote_append, run_cons.
  change (step (mkP MObjFirst st odd) dquote)
    with (Some (mkP (MStr (Some []) [] ENone) st odd)).
  cbv iota. apply (run_quote_from k (Some [])).
Qed.

(** *** Integers are read back *)

Lemma to_uint_head_nonzero (p : positive) : head_nonzero (Pos.to_uint p).
Proof.
  pose proof (DecimalPos.Unsigned.to_of (Pos.to_uint p)) as H.
  rewrite DecimalPos.Unsigned.of_to in H. cbn [N.to_uint] in H.
  pose proof (DecimalPos.Unsigned.to_uint_nonzero p) as Hz.
  pose proof (DecimalPos.Unsigned.to_uint_nonnil p) as Hn.
  destruct (Pos.to_uint p) as [|d|d|d|d|d|d|d|d|d|d]; cbn; try exact I;
    try congruence.
  unfold unorm in H. rewrite DecimalFacts.nzhead_D0 in H.
  destruct (nzhead d) eqn:E; try (symmetry in H; rewrite <- E in H;
    now apply DecimalFacts.nzhead_nonzero in H).
  exact (Hz H).
Qed.

Lemma run_digits (d : uint) neg mag st odd (rest : string) :
  run (NilEmpty.string_of_uint d ++ rest) (mkP (MNum NInt neg mag) st odd)
  = run rest
      (mkP (MNum NInt neg
              (mag * 10 ^ Z.of_N (DecimalPos.Unsigned.usize d)
               + Z.of_N (DecimalPos.Unsigned.of_lu (Decimal.rev d)))) st odd).
Proof.
  revert mag.
  induction d as [|d IH|d IH|d IH|d IH|d IH|d IH|d IH|d IH|d IH|d IH];
    intros mag;
    cbn [NilEmpty.string_of_uint DecimalPos.Unsigned.usize].
  1: { rewrite append_nil. do 3 f_equal.
       change (mag = mag * 1 + 0). lia. }
  all: rewrite append_cons, run_cons;
    match goal with
    | |- context [step ?p ?c] =>
        let r := eval cbv in (code c - 48) in
        change (step p c) with (Some (mkP (MNum NInt neg (mag * 10 + r)) st odd))
    end;
    cbv iota; unfold Decimal.rev; cbn [revapp];
    rewrite DecimalPos.Unsigned.of_lu_revapp; fold (Decimal.rev d);
    rewrite IH; do 3 f_equal;
    rewrite N2Z.inj_succ, Z.pow_succ_r by lia;
    rewrite N2Z.inj_add, N2Z.inj_mul, N2Z.inj_pow;
    cbn [DecimalPos.Unsigned.of_lu]; lia.
Qed.

Lemma of_lu_rev_head (d : uint) :
  Z.of_N (DecimalPos.Unsigned.of_lu (Decimal.rev d)) = Z.of_N (Pos.of_uint d).
Proof. now rewrite DecimalPos.Unsigned.of_uint_alt. Qed.

(** The digits of a positive integer, read where a number has just begun:
    at the start of a value, or after a minus sign. *)
Lemma run_uint (d : uint) (m : mode) neg st odd (rest : string) :
  head_nonzero d ->
  m = MValue /\ neg = false \/ m = MNum NMinus true 0 /\ neg = true ->
  run (NilEmpty.string_of_uint d ++ rest) (mkP m st odd)
  = run rest (mkP (MNum NInt neg (Z.of_N (Pos.of_uint d))) st odd).
Proof.
  intros Hd Hm. rewrite <- of_lu_rev_head.
  destruct d as [|d|d|d|d|d|d|d|d|d|d]; try contradiction;
    cbn [NilEmpty.string_of_uint]; rewrite append_cons, run_cons;
    match goal with
    | |- context [step _ ?c] =>
        let r := eval cbv in (code c - 48) in
        replace (step (mkP m st odd) c)
          with (Some (mkP (MNum NInt neg r) st odd))
          by (destruct Hm as [[-> ->]|[-> ->]]; reflexivity)
    end;
    cbv iota; unfold Decimal.rev; cbn [revapp];
    rewrite DecimalPos.Unsigned.of_lu_revapp; fold (Decimal.rev d);
    rewrite run_digits; do 3 f_equal;
    rewrite N2Z.inj_add, N2Z.inj_mul, N2Z.inj_pow;
    cbn [DecimalPos.Unsigned.of_lu]; lia.
Qed.

Lemma run_Z_to_string (z : Z) st odd (rest : string) :
  run (Z_to_string z ++ rest) (mkP MValue st odd)
  = run rest (mkP (MNum (nstate_of z) (z <? 0) (Z.abs z)) st odd).
Proof.
  destruct z as [|p|p]; [reflexivity| |].
  - unfold Z_to_string, Z.to_int, NilZero.string_of_int, NilZero.string_of_uint.
    pose proof (to_uint_head_nonzero p) as Hp.
    destruct (Pos.to_uint p) eqn:E; try contradiction;
      rewrite <- E in *; rewrite (run_uint _ MValue false) by auto;
      rewrite DecimalPos.Unsigned.of_to; reflexivity.
  - unfold Z_to_string, Z.to_int, NilZero.string_of_int, NilZero.string_of_uint.
    pose proof (to_uint_head_nonzero p) as Hp.
    destruct (Pos.to_uint p) eqn:E; try contradiction;
      rewrite <- E in *; rewrite append_cons, run_cons;
      change (step (mkP MValue st odd) "-")
        with (Some (mkP (MNum NMinus true 0) st odd));
      cbv iota; rewrite (run_uint _ (MNum NMinus true 0) true) by auto;
      rewrite DecimalPos.Unsigned.of_to; reflexivity.
Qed.

Lemma num_value_abs (z : Z) : num_value (z <? 0) (Z.abs z) = JNum z.
Proof. unfold num_value. destruct (Z.ltb_spec z 0); f_equal; lia. Qed.

Lemma run_number_end (z : Z) st odd (rest : string) :
  delimited rest ->
  run rest (mkP (MNum (nstate_of z) (z <? 0) (Z.abs z)) st odd)
  = run rest (complete (JNum z) st odd).
Proof.
  intros (c & r & -> & Hc). rewrite !run_cons. rewrite <- num_value_abs.
  unfold nstate_of.
  destruct Hc as [-> | [-> | ->]]; destruct (z =? 0); destruct st as [|[] st];
    reflexivity.
Qed.

(** *** Values are read back *)

(** Right after an opening bracket, the first code unit of a value is read
    as at the start of any value, with the new array open. *)
Lemma stringify_first (j : json) :
  exists c s,
    JSON_stringify j = String c s
    /\ forall st odd,
         step (mkP MArrFirst st odd) c = step (mkP MValue (CArr [] :: st) odd) c.
Proof.
  destruct j as [|[]|z|s|l|m]; try (do 2 eexists; split; [reflexivity|reflexivity]).
  destruct z as [|p|p]; try (do 2 eexists; split; [reflexivity|reflexivity]).
  cbn [JSON_stringify].
  unfold Z_to_string, Z.to_int, NilZero.string_of_int, NilZero.string_of_uint.
  pose proof (to_uint_head_nonzero p) as Hp.
  destruct (Pos.to_uint p); try contradiction;
    do 2 eexists; (split; [reflexivity|reflexivity]).
Qed.

Lemma obj_set_fresh (k : string) (v : json) (ms : list (string * json)) :
  k ∉ map fst ms -> obj_set k v ms = (ms ++ [(k, v)])%list.
Proof.
  induction ms as [|[k' v'] ms IH]; intros Hk; [reflexivity|].
  cbn [obj_set map fst] in *.
  apply not_elem_of_cons in Hk as [Hne Hk].
  destruct (String.eqb_spec k' k); [congruence|].
  now rewrite IH.
Qed.

Lemma read_back_delimited (j : json) st odd (rest : string) :
  read_back j -> wf_json j = true -> delimited rest ->
  run (JSON_stringify j ++ rest) (mkP MValue st odd)
  = run rest (complete j st odd).
Proof.
  intros H Hwf Hd. apply H; [assumption|]. now destruct j.
Qed.

Lemma delimited_after_element r (rest : string) :
  delimited (after_element r ++ rest).
Proof. destruct r; do 2 eexists; (split; [reflexivity|auto]). Qed.

Lemma delimited_after_member r (rest : string) :
  delimited (after_member r ++ rest).
Proof. destruct r; do 2 eexists; (split; [reflexivity|auto]). Qed.

Lemma append_char (c : ascii) (a rest : string) :
  (String c "" ++ a) ++ rest = String c (a ++ rest).
Proof. rewrite append_assoc. reflexivity. Qed.

Lemma run_after_element (r : list json) :
  Forall read_back r -> forallb wf_json r = true ->
  forall es st odd (rest : string),
    run (after_element r ++ rest) (mkP (MArrNext es) st odd)
    = run rest (complete (JArr (List.rev es ++ r)%list) st odd).
Proof.
  induction 1 as [|x r Hx Hr IH]; intros Hwf es st odd rest.
  - rewrite app_nil_r. reflexivity.
  - cbn [forallb] in Hwf. apply andb_true_iff in Hwf as [Hwx Hwr].
    unfold after_element. rewrite append_char, run_cons.
    change (step (mkP (MArrNext es) st odd) ",")
      with (Some (mkP MValue (CArr es :: st) odd)).
    cbv iota. cbn [stringify_elements]. fold (after_element r).
    rewrite append_assoc.
    rewrite (read_back_delimited x) by auto using delimited_after_element.
    cbn [complete]. rewrite IH by assumption.
    cbn [List.rev]. now rewrite <- app_assoc.
Qed.

Lemma run_after_member (r : list (string * json)) :
  Forall (fun kv => read_back (snd kv)) r ->
  forallb (fun kv => negb (index_like (fst kv)) && wf_json (snd kv)) r = true ->
  forall ms st odd (rest : string),
    NoDup (map fst (ms ++ r)%list) ->
    run (after_member r ++ rest) (mkP (MObjNext ms) st odd)
    = run rest (complete (JObj (ms ++ r)%list) st odd).
Proof.
  induction 1 as [|[k x] r Hx Hr IH]; intros Hwf ms st odd rest Hnd.
  - rewrite app_nil_r. reflexivity.
  - cbn [forallb fst snd] in Hwf, Hx.
    apply andb_true_iff in Hwf as [Hw Hwr].
    apply andb_true_iff in Hw as [Hk Hwx].
    apply negb_true_iff in Hk.
    unfold after_member. rewrite append_char, run_cons.
    change (step (mkP (MObjNext ms) st odd) ",")
      with (Some (mkP (MObjKey ms) st odd)).
    cbv iota. cbn [stringify_members]. fold (after_member r).
    rewrite append_assoc, run_quote_key, Hk. cbn [orb].
    rewrite append_char, run_cons.
    change (step (mkP (MObjColon ms k) st odd) ":")
      with (Some (mkP MValue (CMem ms k :: st) odd)).
    cbv iota. rewrite append_assoc.
    rewrite (read_back_delimited x) by auto using delimited_after_member.
    cbn [complete]. rewrite obj_set_fresh.
    + rewrite IH; [now rewrite <- app_assoc|assumption|].
      now rewrite <- app_assoc.
    + rewrite map_app in Hnd. apply NoDup_app in Hnd as (_ & Hd & _).
      intros Hin. apply (Hd k Hin). cbn. left.
Qed.

Lemma read_back_all (j : json) : read_back j.
Proof.
  induction j as [|b|z|s|l IH|m IH] using json_ind; intros Hwf st odd rest Hrest.
  - reflexivity.
  - destruct b; reflexivity.
  - cbn [JSON_stringify]. rewrite run_Z_to_string. now apply run_number_end.
  - apply run_quote_value.
  - rewrite stringify_arr, append_char, run_cons.
    change (step (mkP MValue st odd) "[") with (Some (mkP MArrFirst st odd)).
    cbv iota. cbn [wf_json] in Hwf.
    destruct l as [|x r]; [reflexivity|].
    cbn [stringify_elements]. fold (after_element r).
    apply Forall_cons in IH as [Hx Hr].
    cbn [forallb] in Hwf. apply andb_true_iff in Hwf as [Hwx Hwr].
    rewrite append_assoc.
    destruct (stringify_first x) as (c & s & E & Hc).
    transitivity
      (run (JSON_stringify x ++ after_element r ++ rest)
         (mkP MValue (CArr [] :: st) odd)).
    { rewrite E, append_cons, !run_cons, Hc. reflexivity. }
    rewrite (read_back_delimited x) by auto using delimited_after_element.
    cbn [complete]. now rewrite run_after_element.
  - rewrite stringify_obj, append_char, run_cons.
    change (step (mkP MValue st odd) "{") with (Some (mkP MObjFirst st odd)).
    cbv iota. cbn [wf_json] in Hwf.
    apply andb_true_iff in Hwf as [Hnd Hwf].
    apply bool_decide_eq_true in Hnd.
    destruct m as [|[k x] r]; [reflexivity|].
    cbn [stringify_members]. fold (after_member r).
    apply Forall_cons in IH as [Hx Hr]. cbn [snd] in Hx.
    cbn [forallb fst snd] in Hwf.
    apply andb_true_iff in Hwf as [Hw Hwr].
    apply andb_true_iff in Hw as [Hk Hwx].
    apply negb_true_iff in Hk.
    rewrite append_assoc, run_quote_first_key, Hk. cbn [orb].
    rewrite append_char, run_cons.
    change (step (mkP (MObjColon [] k) st odd) ":")
      with (Some (mkP MValue (CMem [] k :: st) odd)).
    cbv iota. rewrite append_assoc.
    rewrite (read_back_delimited x) by auto using delimited_after_member.
    cbn [complete obj_set].
    now rewrite (run_after_member r Hr Hwr [(k, x)]).
Qed.

(** [JSON.parse(JSON.stringify(j))] gives [j] back. *)
Lemma JSON_parse_stringify (j : json) :
  wf_json j = true -> JSON_parse (JSON_stringify j) = Ok j.
Proof.
  intros Hwf. unfold JSON_parse.
  destruct j as [|b|z|s|l|m].
  1, 2, 4, 5, 6:
    rewrite <- (append_empty (JSON_stringify _));
    rewrite (read_back_all _ Hwf [] false "" I); reflexivity.
  rewrite <- (append_empty (JSON_stringify _)). cbn [JSON_stringify].
  rewrite run_Z_to_string. cbn [run finish p_mode p_stack p_odd].
  unfold nstate_of. rewrite num_value_abs.
  destruct (z =? 0); reflexivity.
Qed.

(** *** Carts are read back *)

Lemma wf_encode_item (it : LineItem) : wf_json (encode_item it) = true.
Proof. destruct it as [i t im p [|q]]; reflexivity. Qed.

Lemma wf_encode_cart (l : list LineItem) : wf_json (encode_cart l) = true.
Proof.
  unfold encode_cart. cbn [wf_json map fst snd forallb].
  replace (forallb wf_json (map encode_item l)) with true; [reflexivity|].
  symmetry. induction l as [|it l IH]; [reflexivity|].
  cbn [map forallb]. now rewrite wf_encode_item, IH.
Qed.

Lemma decode_encode_item (it : LineItem) (q : Z) :
  quantity it = Int q -> decode_item (encode_item it) = Some it.
Proof. destruct it as [i t im p n]; cbn [quantity]; intros ->. reflexivity. Qed.

Lemma decode_encode_items (l : list LineItem) :
  integral l = true -> decode_items (map encode_item l) = Some l.
Proof.
  induction l as [|it l IH]; [reflexivity|].
  cbn [integral forallb]. intros H. apply andb_true_iff in H as [Hq Hl].
  destruct (quantity it) as [|q] eqn:E; [discriminate|].
  cbn [map decode_items]. rewrite (decode_encode_item it q E).
  unfold integral in IH. now rewrite IH.
Qed.

Lemma items_of_encode_cart (l : list LineItem) :
  integral l = true -> items_of (encode_cart l) = Some l.
Proof. intros H. cbn. now apply decode_encode_items. Qed.

Lemma get_saved_cart (cart : json) (w : World) :
  wf_json cart = true ->
  getCartFromLocalStorage (saveCartToLocalStorage cart w)
  = Ok (if truthy cart then Some cart else None).
Proof.
  intros Hwf. unfold getCartFromLocalStorage, saveCartToLocalStorage.
  cbn [localStorage with_localStorage]. rewrite lookup_insert_eq.
  now rewrite JSON_parse_stringify.
Qed.

(** *** Sums *)

Lemma num_add_assoc (a b c : num) :
  num_add (num_add a b) c = num_add a (num_add b c).
Proof. destruct a, b, c; cbn; try reflexivity. f_equal. lia. Qed.

Lemma num_add_0_l (a : num) : num_add (Int 0) a = a.
Proof. destruct a; reflexivity. Qed.

Lemma fold_left_sum {A} (g : A -> num) (l : list A) (a : num) :
  fold_left (fun total x => num_add total (g x)) l a
  = num_add a (sum_num (map g l)).
Proof.
  revert a. induction l as [|x l IH]; intros a; cbn [fold_left map sum_num].
  - destruct a; cbn; [reflexivity|]. f_equal. lia.
  - rewrite IH. apply num_add_assoc.
Qed.

Lemma subtotal_of_stated (l : list LineItem) : subtotal_of l = stated_subtotal l.
Proof.
  unfold subtotal_of, stated_subtotal.
  rewrite (fold_left_sum line_total). apply num_add_0_l.
Qed.

Lemma totalItems_of_stated (l : list LineItem) :
  totalItems_of l = stated_item_count l.
Proof.
  unfold totalItems_of, stated_item_count.
  rewrite (fold_left_sum quantity). apply num_add_0_l.
Qed.

Lemma stated_subtotal_integral (l : list LineItem) :
  integral l = true ->
  stated_subtotal l = Int (sum_Z (map (fun it => price it * quantity_Z it) l)).
Proof.
  unfold stated_subtotal, integral.
  induction l as [|it l IH]; [reflexivity|].
  cbn [forallb map sum_num sum_Z]. intros H.
  apply andb_true_iff in H as [Hq Hl]. rewrite (IH Hl).
  unfold line_total, quantity_Z. destruct (quantity it); [discriminate|reflexivity].
Qed.

Lemma stated_item_count_integral (l : list LineItem) :
  integral l = true ->
  stated_item_count l = Int (sum_Z (map quantity_Z l)).
Proof.
  unfold stated_item_count, integral.
  induction l as [|it l IH]; [reflexivity|].
  cbn [forallb map sum_num sum_Z]. intros H.
  apply andb_true_iff in H as [Hq Hl]. rewrite (IH Hl).
  unfold quantity_Z. destruct (quantity it); [discriminate|reflexivity].
Qed.

(** ** Properties of the script *)

Lemma sum_abs_nonneg (l : list Z) : 0 <= sum_Z (map Z.abs l).
Proof. induction l as [|x l IH]; cbn [map sum_Z]; lia. Qed.

Lemma sum_abs_bound (l : list Z) : Z.abs (sum_Z l) <= sum_Z (map Z.abs l).
Proof. induction l as [|x l IH]; cbn [map sum_Z]; lia. Qed.

Lemma summands_safe (l : list Z) :
  sum_Z (map Z.abs l) <= MAX_SAFE_INTEGER -> Forall safe l.
Proof.
  induction l as [|x l IH]; cbn [map sum_Z]; intros H; constructor.
  - pose proof (sum_abs_nonneg l). unfold safe. lia.
  - apply IH. lia.
Qed.

(** A reduction with [+] stays within the safe integers when the magnitudes
    of where it starts and of what it adds do. *)
Lemma running_safe (acc : Z) (l : list Z) :
  Z.abs acc + sum_Z (map Z.abs l) <= MAX_SAFE_INTEGER ->
  Forall safe (running acc l).
Proof.
  revert acc. induction l as [|x l IH]; intros acc; cbn [map sum_Z running];
    intros H; constructor.
  - pose proof (sum_abs_nonneg l). unfold safe. lia.
  - apply IH. lia.
Qed.

(** C1.  For every cart with integer quantities whose line totals and
    quantities add up within the safe integers, [calculateTotals] leaves a
    subtotal equal to the sum over all line items of unit price times
    quantity, shows it in the subtotal and total elements, and shows as cart
    count the sum of all quantities.  Every product, every running total of
    its two reductions and both sums are safe integers, so that the
    arithmetic of JavaScript is exact on them. *)
Theorem calculateTotals_aggregates (cm : CartManager) :
  safe_sums (items cm) ->
  let cm' := calculateTotals cm in
  let totals := map (fun it => price it * quantity_Z it) (items cm) in
  let quantities := map quantity_Z (items cm) in
  items cm' = items cm
  /\ subtotal cm' = Int (sum_Z totals)
  /\ subtotalElement cm' = formatCurrency (Int (sum_Z totals))
  /\ totalElement cm' = formatCurrency (Int (sum_Z totals))
  /\ cartCountElement cm' = Plain (Z_to_string (sum_Z quantities))
  /\ Forall safe totals
  /\ Forall safe quantities
  /\ Forall safe (running 0 totals)
  /\ Forall safe (running 0 quantities)
  /\ safe (sum_Z totals)
  /\ safe (sum_Z quantities).
Proof.
  intros (Hint & _ & Hsub & Hcnt). cbv zeta.
  cbn [calculateTotals items subtotal subtotalElement totalElement cartCountElement].
  rewrite subtotal_of_stated, totalItems_of_stated.
  rewrite (stated_subtotal_integral _ Hint), (stated_item_count_integral _ Hint).
  rewrite <- (map_map (fun it => price it * quantity_Z it) Z.abs) in Hsub.
  rewrite <- (map_map quantity_Z Z.abs) in Hcnt.
  split; [reflexivity|]. split; [reflexivity|]. split; [reflexivity|].
  split; [reflexivity|]. split; [reflexivity|].
  split; [now apply summands_safe|]. split; [now apply summands_safe|].
  split; [apply running_safe; cbn [Z.abs]; lia|].
  split; [apply running_safe; cbn [Z.abs]; lia|].
  split; unfold safe;
    [pose proof (sum_abs_bound (map (fun it => price it * quantity_Z it) (items cm)))
    |pose proof (sum_abs_bound (map quantity_Z (items cm)))]; lia.
Qed.

Lemma calculateTotals_aggregates_witness :
  subtotal (calculateTotals (with_items [shirt; hat] fresh)) = Int 2250
  /\ cartCountElement (calculateTotals (with_items [shirt; hat] fresh)) = Plain "3".
Proof.
  assert (H : safe_sums (items (with_items [shirt; hat] fresh))).
  { split; [reflexivity|]. split; [repeat constructor; vm_compute; discriminate|].
    split; vm_compute; discriminate. }
  destruct (calculateTotals_aggregates (with_items [shirt; hat] fresh) H)
    as (_ & Hs & _ & _ & Hc & _).
  split; [exact Hs|exact Hc].
Defined.

Lemma items_of_truthy (cart : json) (l : list LineItem) :
  items_of cart = Some l -> truthy cart = true.
Proof. destruct cart; cbn; congruence. Qed.

(** C2.  When a cart snapshot is already persisted, [fetchCartItems] takes
    its items as they are and leaves the browser as it was: no request is
    made and the store is not written. *)
Theorem fetchCartItems_cache_first (cm : CartManager) (w : World)
    (t : string) (cart : json) (l : list LineItem) :
  localStorage w !! "cart" = Some t ->
  JSON_parse t = Ok cart ->
  items_of cart = Some l ->
  exists cm',
    fetchCartItems cm w = Ok (cm', w)
    /\ items cm' = l
    /\ cm' = renderCartItems (with_items l cm).
Proof.
  intros Hget Hparse Hitems. exists (renderCartItems (with_items l cm)).
  split; [|split; reflexivity].
  unfold fetchCartItems, fetchCartItems_try, getCartFromLocalStorage.
  rewrite Hget, Hparse, (items_of_truthy cart l Hitems), Hitems. reflexivity.
Qed.

Lemma fetchCartItems_cache_first_witness :
  exists cm',
    fetchCartItems fresh (browser (Some cart_text) Unreachable)
    = Ok (cm', browser (Some cart_text) Unreachable)
    /\ items cm' = [shirt; hat]
    /\ cm' = renderCartItems (with_items [shirt; hat] fresh).
Proof.
  apply (fetchCartItems_cache_first fresh (browser (Some cart_text) Unreachable)
           cart_text (encode_cart [shirt; hat]) [shirt; hat]);
    vm_compute; reflexivity.
Defined.

(** C3.  Saving a cart whose quantities are integers and loading it at once
    gives back a stored cart with the same sequence of line items. *)
Theorem save_then_load (l : list LineItem) (w : World) :
  integral l = true ->
  exists stored,
    getCartFromLocalStorage (saveCartToLocalStorage (encode_cart l) w)
    = Ok (Some stored)
    /\ items_of stored = Some l.
Proof.
  intros Hl. exists (encode_cart l). split.
  - now rewrite get_saved_cart by apply wf_encode_cart.
  - now apply items_of_encode_cart.
Qed.

Lemma save_then_load_witness :
  exists stored,
    getCartFromLocalStorage
      (saveCartToLocalStorage (encode_cart [shirt; hat]) (browser None Unreachable))
    = Ok (Some stored)
    /\ items_of stored = Some [shirt; hat].
Proof.
  apply (save_then_load [shirt; hat] (browser None Unreachable)). reflexivity.
Defined.

(** Stored text that parses to a falsy value is treated as nothing stored:
    the loader reports an empty store and the remote fetch follows. *)
Lemma falsy_store_is_cache_miss (cm : CartManager) (w : World) (t : string)
    (v : json) :
  localStorage w !! "cart" = Some t ->
  JSON_parse t = Ok v -> truthy v = false ->
  getCartFromLocalStorage w = Ok None
  /\ fetchCartItems_try cm w = fetch_and_render cm w.
Proof.
  intros Hget Hv Hf. unfold fetchCartItems_try, getCartFromLocalStorage.
  rewrite Hget, Hv, Hf. split; reflexivity.
Qed.

(** C4, as the script has it.  When the stored text is not JSON, loading
    does not behave as on an empty store: the loader throws; the exception
    does not escape [fetchCartItems], which shows the error message, makes
    no request and leaves cart and store as they were. *)
Theorem unparsable_store_shows_error (cm : CartManager) (w : World)
    (t : string) (e : exn) :
  localStorage w !! "cart" = Some t ->
  JSON_parse t = Throw e ->
  getCartFromLocalStorage w = Throw e
  /\ exists cm' w',
       fetchCartItems cm w = Ok (cm', w')
       /\ cartItemsContainer cm' = Markup error_html
       /\ items cm' = items cm
       /\ localStorage w' = localStorage w
       /\ requests w' = requests w.
Proof.
  intros Hget He.
  unfold fetchCartItems, fetchCartItems_try, getCartFromLocalStorage.
  rewrite Hget, He. split; [reflexivity|].
  do 2 eexists. split; [reflexivity|]. repeat split.
Qed.

Lemma unparsable_store_shows_error_witness :
  getCartFromLocalStorage (browser (Some broken_text) (Body cart_text))
  = Throw SyntaxError
  /\ exists cm' w',
       fetchCartItems fresh (browser (Some broken_text) (Body cart_text))
       = Ok (cm', w')
       /\ cartItemsContainer cm' = Markup error_html
       /\ items cm' = items fresh
       /\ localStorage w' = localStorage (browser (Some broken_text) (Body cart_text))
       /\ requests w' = requests (browser (Some broken_text) (Body cart_text)).
Proof.
  apply (unparsable_store_shows_error fresh
           (browser (Some broken_text) (Body cart_text)) broken_text SyntaxError);
    vm_compute; reflexivity.
Defined.

(** C4, as stated, fails.  With the text [{] stored, the loader throws a
    [SyntaxError] where an empty store gives an empty result, and the load
    ends in the error message without any request, where on an empty store
    it requests the remote cart and shows its items. *)
Lemma unparsable_store_is_no_cache_miss :
  ~ parse_failure_is_cache_miss
  /\ JSON_parse broken_text = Throw SyntaxError
  /\ getCartFromLocalStorage (browser (Some broken_text) (Body cart_text))
     = Throw SyntaxError
  /\ getCartFromLocalStorage (browser None (Body cart_text)) = Ok None
  /\ (exists cm' w',
        fetchCartItems fresh (browser (Some broken_text) (Body cart_text))
        = Ok (cm', w')
        /\ cartItemsContainer cm' = Markup error_html
        /\ items cm' = []
        /\ requests w' = [])
  /\ (exists cm' w',
        fetchCartItems fresh (browser None (Body cart_text)) = Ok (cm', w')
        /\ items cm' = [shirt; hat]
        /\ requests w' = [API_URL]).
Proof.
  split.
  { intros H.
    destruct (H fresh (browser (Some broken_text) (Body cart_text))
                broken_text SyntaxError) as [Hload _];
      [vm_compute; reflexivity | vm_compute; reflexivity |].
    revert Hload. vm_compute. discriminate. }
  repeat split; try (vm_compute; reflexivity);
    do 2 eexists; (split; [vm_compute; reflexivity|]); repeat split.
Qed.

(** C7.  When the store holds no cart and the remote fetch fails or its
    response is not JSON, the item container is replaced with the error
    message, the cart items are as before (empty, on the manager as
    constructed), and the store is not written; one request was made. *)
Theorem fetch_failure_shows_error (cm : CartManager) (w : World) :
  getCartFromLocalStorage w = Ok None ->
  (remote w = Unreachable
   \/ exists t e, remote w = Body t /\ JSON_parse t = Throw e) ->
  exists cm' w',
    fetchCartItems cm w = Ok (cm', w')
    /\ cartItemsContainer cm' = Markup error_html
    /\ items cm' = items cm
    /\ (cm = fresh -> items cm' = [])
    /\ localStorage w' = localStorage w
    /\ requests w' = API_URL :: requests w.
Proof.
  intros Hmiss Hfail.
  unfold fetchCartItems, fetchCartItems_try, fetch_and_render. rewrite Hmiss.
  destruct Hfail as [-> | (t & e & -> & ->)];
    do 2 eexists; (split; [reflexivity|]); repeat split;
    intros ->; reflexivity.
Qed.

Lemma fetch_failure_shows_error_witness :
  exists cm' w',
    fetchCartItems fresh (browser None (Body broken_text)) = Ok (cm', w')
    /\ cartItemsContainer cm' = Markup error_html
    /\ items cm' = items fresh
    /\ (fresh = fresh -> items cm' = [])
    /\ localStorage w' = localStorage (browser None (Body broken_text))
    /\ requests w' = API_URL :: requests (browser None (Body broken_text)).
Proof.
  apply (fetch_failure_shows_error fresh (browser None (Body broken_text))).
  - vm_compute. reflexivity.
  - right. exists broken_text, SyntaxError. split; vm_compute; reflexivity.
Defined.

(** *** Identifiers *)

Lemma id_matches_Z_to_string (n : Z) (it : LineItem) :
  id_matches (Z_to_string n) it = (id it =? n).
Proof. unfold id_matches. now rewrite parseInt_Z_to_string. Qed.

Lemma id_matches_uncoerced_never (itemId : string) (it : LineItem) :
  id_matches_uncoerced itemId it = false.
Proof. reflexivity. Qed.

Lemma filter_all_true {A} (f : A -> bool) (l : list A) :
  (forall x, In x l -> f x = true) -> List.filter f l = l.
Proof.
  induction l as [|x l IH]; intros H; [reflexivity|].
  cbn [List.filter]. rewrite (H x) by now left.
  rewrite IH; [reflexivity|]. intros y Hy. apply H. now right.
Qed.

Lemma confirmRemoveItem_items (cm : CartManager) (w : World) (el : Row) :
  itemToRemove cm = Some el ->
  items (fst (confirmRemoveItem cm w))
  = List.filter (fun it => negb (id_matches (data_id el) it)) (items cm).
Proof.
  intros Hp. unfold confirmRemoveItem. rewrite Hp. cbn [fst].
  unfold remove_row. cbn [with_items cartItemsContainer].
  destruct (cartItemsContainer cm); reflexivity.
Qed.

(** C6.  Confirming the removal of the row of identifier [n] removes from the
    cart the line items with that identifier and keeps the others in their
    order; when no item has the identifier, the cart's items are unchanged. *)
Theorem confirmRemoveItem_removes (cm : CartManager) (w : World) (el : Row)
    (n : Z) :
  itemToRemove cm = Some el ->
  data_id el = Z_to_string n ->
  let cm' := fst (confirmRemoveItem cm w) in
  items cm' = List.filter (fun it => negb (id it =? n)) (items cm)
  /\ (forall it, In it (items cm') <-> In it (items cm) /\ id it <> n)
  /\ ((forall it, In it (items cm) -> id it <> n) -> items cm' = items cm).
Proof.
  intros Hp Hid cm'.
  assert (E : items cm' = List.filter (fun it => negb (id it =? n)) (items cm)).
  { unfold cm'. rewrite (confirmRemoveItem_items cm w el Hp), Hid.
    apply filter_ext. intros it. now rewrite id_matches_Z_to_string. }
  split; [exact E|]. rewrite E. split.
  - intros it. rewrite filter_In, negb_true_iff, Z.eqb_neq. reflexivity.
  - intros Habs. apply filter_all_true. intros it Hin.
    apply negb_true_iff, Z.eqb_neq. now apply Habs.
Qed.

Lemma confirmRemoveItem_removes_witness :
  let cm' := fst (confirmRemoveItem removing_hat (snd loaded)) in
  items cm' = List.filter (fun it => negb (id it =? 5)) (items removing_hat)
  /\ (forall it, In it (items cm') <-> In it (items removing_hat) /\ id it <> 5)
  /\ ((forall it, In it (items removing_hat) -> id it <> 5) ->
      items cm' = items removing_hat).
Proof.
  apply (confirmRemoveItem_removes removing_hat (snd loaded) hat_row 5);
    vm_compute; reflexivity.
Defined.

(** *** The removal dialogue *)

Lemma items_remove_row (n : nat) (cm : CartManager) :
  items (remove_row n cm) = items cm.
Proof. unfold remove_row. destruct (cartItemsContainer cm); reflexivity. Qed.

Lemma find_after_filter (n : nat) (rows : list Row) :
  List.find (fun r => Nat.eqb (node r) n)
    (List.filter (fun r => negb (Nat.eqb (node r) n)) rows) = None.
Proof.
  induction rows as [|r rows IH]; [reflexivity|].
  cbn [List.filter]. destruct (Nat.eqb (node r) n) eqn:E; cbn [negb]; [exact IH|].
  cbn [List.find]. now rewrite E.
Qed.

Lemma get_row_remove_row (n : nat) (cm : CartManager) :
  get_row n (remove_row n cm) = None.
Proof.
  unfold get_row, container_rows, remove_row.
  destruct (cartItemsContainer cm) eqn:E; cbn [with_container cartItemsContainer];
    [apply find_after_filter | now rewrite E ..].
Qed.

Lemma confirmRemoveItem_pending (cm : CartManager) (w : World) (el : Row) :
  itemToRemove cm = Some el ->
  confirmRemoveItem cm w
  = (closeRemoveModal
       (calculateTotals
          (remove_row (node el)
             (with_items
                (List.filter (fun it => negb (id_matches (data_id el) it)) (items cm))
                cm))),
     saveCartToLocalStorage
       (encode_cart
          (List.filter (fun it => negb (id_matches (data_id el) it)) (items cm))) w).
Proof.
  intros Hp. unfold confirmRemoveItem. rewrite Hp.
  cbn [calculateTotals items]. now rewrite items_remove_row.
Qed.

(** C8.  While a removal awaits confirmation: cancelling clears the pending
    element, hides the modal and changes neither cart, nor totals, nor rows,
    nor store; confirming removes from the cart the items matching the
    pending row's identifier, detaches the row, recomputes the totals, stores
    the resulting cart, clears the pending element and hides the modal.
    Both end with nothing pending and the modal hidden. *)
Theorem removal_dialogue (cm : CartManager) (w : World) (el : Row) :
  confirming el cm ->
  (exists cm1,
     handle Cancel cm w = Ok (cm1, w)
     /\ idle cm1
     /\ items cm1 = items cm
     /\ subtotal cm1 = subtotal cm
     /\ cartItemsContainer cm1 = cartItemsContainer cm
     /\ cartCountElement cm1 = cartCountElement cm)
  /\ (exists cm2 w2,
        handle Confirm cm w = Ok (cm2, w2)
        /\ idle cm2
        /\ items cm2
           = List.filter (fun it => negb (id_matches (data_id el) it)) (items cm)
        /\ (forall n, data_id el = Z_to_string n ->
              forall it, In it (items cm2) <-> In it (items cm) /\ id it <> n)
        /\ get_row (node el) cm2 = None
        /\ subtotal cm2 = stated_subtotal (items cm2)
        /\ subtotalElement cm2 = formatCurrency (stated_subtotal (items cm2))
        /\ totalElement cm2 = formatCurrency (stated_subtotal (items cm2))
        /\ cartCountElement cm2
           = Plain (num_to_string (stated_item_count (items cm2)))
        /\ localStorage w2
           = <["cart" := JSON_stringify (encode_cart (items cm2))]> (localStorage w)
        /\ getCartFromLocalStorage w2 = Ok (Some (encode_cart (items cm2)))).
Proof.
  intros [Hp Hm]. split.
  - exists (closeRemoveModal cm). repeat split.
  - cbn [handle]. rewrite (confirmRemoveItem_pending cm w el Hp).
    set (l' := List.filter (fun it => negb (id_matches (data_id el) it)) (items cm)).
    set (cm2 := closeRemoveModal
                  (calculateTotals (remove_row (node el) (with_items l' cm)))).
    assert (Hi : items cm2 = l').
    { unfold cm2.
      cbn [closeRemoveModal with_itemToRemove with_modal calculateTotals items].
      apply items_remove_row. }
    exists cm2, (saveCartToLocalStorage (encode_cart l') w).
    rewrite Hi.
    split; [reflexivity|].
    split; [split; reflexivity|].
    split; [reflexivity|].
    split.
    { intros n Hn it. unfold l'.
      rewrite filter_In, Hn, id_matches_Z_to_string, negb_true_iff, Z.eqb_neq.
      reflexivity. }
    split.
    { unfold cm2, closeRemoveModal, calculateTotals, with_itemToRemove,
        with_modal, get_row, container_rows. cbn [cartItemsContainer].
      apply get_row_remove_row. }
    unfold cm2.
    cbn [closeRemoveModal calculateTotals with_itemToRemove with_modal items
           subtotal subtotalElement totalElement cartCountElement].
    rewrite items_remove_row. cbn [with_items items].
    rewrite subtotal_of_stated, totalItems_of_stated.
    repeat split.
    rewrite get_saved_cart by apply wf_encode_cart. reflexivity.
Qed.

Lemma removal_dialogue_witness :
  (exists cm1,
     handle Cancel removing_hat (snd loaded) = Ok (cm1, snd loaded)
     /\ idle cm1
     /\ items cm1 = items removing_hat
     /\ subtotal cm1 = subtotal removing_hat
     /\ cartItemsContainer cm1 = cartItemsContainer removing_hat
     /\ cartCountElement cm1 = cartCountElement removing_hat)
  /\ (exists cm2 w2,
        handle Confirm removing_hat (snd loaded) = Ok (cm2, w2)
        /\ idle cm2
        /\ items cm2
           = List.filter (fun it => negb (id_matches (data_id hat_row) it))
               (items removing_hat)
        /\ (forall n, data_id hat_row = Z_to_string n ->
              forall it,
                In it (items cm2) <-> In it (items removing_hat) /\ id it <> n)
        /\ get_row (node hat_row) cm2 = None
        /\ subtotal cm2 = stated_subtotal (items cm2)
        /\ subtotalElement cm2 = formatCurrency (stated_subtotal (items cm2))
        /\ totalElement cm2 = formatCurrency (stated_subtotal (items cm2))
        /\ cartCountElement cm2
           = Plain (num_to_string (stated_item_count (items cm2)))
        /\ localStorage w2
           = <["cart" := JSON_stringify (encode_cart (items cm2))]>
               (localStorage (snd loaded))
        /\ getCartFromLocalStorage w2 = Ok (Some (encode_cart (items cm2)))).
Proof.
  apply (removal_dialogue removing_hat (snd loaded) hat_row).
  split; vm_compute; reflexivity.
Defined.

(** C10.  With no element pending, confirming a removal changes nothing:
    cart, totals, rows, modal and store are as before. *)
Theorem confirm_without_pending (cm : CartManager) (w : World) :
  itemToRemove cm = None ->
  confirmRemoveItem cm w = (cm, w)
  /\ handle Confirm cm w = Ok (cm, w).
Proof.
  intros Hp. unfold handle, confirmRemoveItem. rewrite Hp. split; reflexivity.
Qed.

Lemma confirm_without_pending_witness :
  confirmRemoveItem (fst loaded) (snd loaded) = (fst loaded, snd loaded)
  /\ handle Confirm (fst loaded) (snd loaded) = Ok (fst loaded, snd loaded).
Proof.
  apply (confirm_without_pending (fst loaded) (snd loaded)).
  vm_compute. reflexivity.
Defined.

(** C9.  The two lookups disagree on a cart with numeric identifiers: on the
    shirt's row, comparing the stored identifier with the row's text finds
    nothing, while comparing it with the text coerced to a number finds the
    shirt.  In fact the uncoerced lookup finds nothing on any cart, so the
    two versions of [updateItemQuantity] differ: after the shirt's input is
    set to 3, one leaves the page as it is and the other updates it. *)
Theorem lookups_disagree :
  let input := with_input_value "3" shirt_row in
  let cm := fst loaded in
  let w := snd loaded in
  List.find (id_matches_uncoerced (data_id input)) (items cm) = None
  /\ List.find (id_matches (data_id input)) (items cm) = Some shirt
  /\ (forall itemId l, List.find (id_matches_uncoerced itemId) l = None)
  /\ updateItemQuantity_v1 input cm w = (cm, w)
  /\ map quantity (items (fst (updateItemQuantity input cm w))) = [Int 3; Int 1]
  /\ updateItemQuantity_v1 input cm w <> updateItemQuantity input cm w.
Proof.
  cbv zeta.
  assert (Hnone : forall itemId l,
             List.find (id_matches_uncoerced itemId) l = None).
  { intros itemId l. induction l as [|it l IH]; [reflexivity|exact IH]. }
  split; [apply Hnone|].
  split; [vm_compute; reflexivity|].
  split; [exact Hnone|].
  split; [unfold updateItemQuantity_v1, updateItemQuantity_with;
          now rewrite Hnone|].
  split; [vm_compute; reflexivity|].
  intros H. apply (f_equal (fun p => map quantity (items (fst p)))) in H.
  revert H. vm_compute. discriminate.
Qed.

(** *** The quantity steppers *)

Lemma digits_span_uint (d : uint) (acc count : Z) :
  digits_span (NilEmpty.string_of_uint d) acc count
  = (acc * 10 ^ Z.of_N (DecimalPos.Unsigned.usize d)
     + Z.of_N (DecimalPos.Unsigned.of_lu (Decimal.rev d)),
     count + Z.of_N (DecimalPos.Unsigned.usize d), "").
Proof.
  revert acc count.
  induction d as [|d IH|d IH|d IH|d IH|d IH|d IH|d IH|d IH|d IH|d IH];
    intros acc count;
    cbn [NilEmpty.string_of_uint DecimalPos.Unsigned.usize digits_span].
  1: { change (Z.of_N 0) with 0. change (Decimal.rev Nil) with Nil.
       cbn [DecimalPos.Unsigned.of_lu]. do 2 f_equal; lia. }
  all: match goal with
       | |- context [is_digit (code ?c)] =>
           change (is_digit (code c)) with true;
           let r := eval cbv in (code c - 48) in
           change (code c - 48) with r
       end;
    cbv iota; unfold Decimal.rev; cbn [revapp];
    rewrite DecimalPos.Unsigned.of_lu_revapp; fold (Decimal.rev d);
    rewrite IH; rewrite N2Z.inj_succ, Z.pow_succ_r by lia;
    rewrite N2Z.inj_add, N2Z.inj_mul, N2Z.inj_pow;
    cbn [DecimalPos.Unsigned.of_lu]; do 2 f_equal; lia.
Qed.

Lemma usize_pos (d : uint) : d <> Nil -> 0 < Z.of_N (DecimalPos.Unsigned.usize d).
Proof.
  destruct d; try congruence; intros _; cbn [DecimalPos.Unsigned.usize];
    rewrite N2Z.inj_succ; lia.
Qed.

Lemma read_unsigned_uint (sign : Z) (d : uint) :
  d <> Nil ->
  read_unsigned sign (NilEmpty.string_of_uint d)
  = Some (sign * Z.of_N (Pos.of_uint d), 0).
Proof.
  intros Hd. unfold read_unsigned. rewrite digits_span_uint.
  pose proof (usize_pos d Hd) as Hn.
  cbv beta iota zeta. change (-1 =? 0) with false. cbn [orb].
  destruct (Z.eqb_spec (0 + Z.of_N (DecimalPos.Unsigned.usize d)) 0) as [E|_];
    [lia|].
  cbn [andb read_exponent]. rewrite of_lu_rev_head. reflexivity.
Qed.

Lemma read_decimal_Z_to_string (z : Z) :
  read_decimal (Z_to_string z) = Some (z, 0).
Proof.
  destruct z as [|p|p]; [reflexivity| |];
    unfold Z_to_string, Z.to_int, NilZero.string_of_int, NilZero.string_of_uint;
    pose proof (DecimalPos.Unsigned.to_uint_nonnil p) as Hp.
  - transitivity (read_unsigned 1 (NilEmpty.string_of_uint (Pos.to_uint p))).
    { destruct (Pos.to_uint p); try congruence; reflexivity. }
    rewrite read_unsigned_uint by assumption.
    rewrite DecimalPos.Unsigned.of_to. reflexivity.
  - transitivity (read_unsigned (-1) (NilEmpty.string_of_uint (Pos.to_uint p))).
    { destruct (Pos.to_uint p); try congruence; reflexivity. }
    rewrite read_unsigned_uint by assumption.
    rewrite DecimalPos.Unsigned.of_to. reflexivity.
Qed.

Lemma Z_to_string_nonempty (z : Z) : Z_to_string z <> "".
Proof.
  destruct z as [|p|p]; try discriminate.
  unfold Z_to_string, Z.to_int, NilZero.string_of_int, NilZero.string_of_uint.
  pose proof (DecimalPos.Unsigned.to_uint_nonnil p) as Hp.
  destruct (Pos.to_uint p); try congruence; discriminate.
Qed.

Lemma decimal_gt_one_integer (z : Z) : decimal_gt_one z 0 = (1 <? z).
Proof.
  unfold decimal_gt_one. change (0 <=? 0) with true. cbv iota.
  change (10 ^ 0) with 1. rewrite Z.mul_1_r.
  assert (0 < 2 ^ 53) by (apply Z.pow_pos_nonneg; lia).
  destruct (Z.ltb_spec 1 z); destruct (Z.ltb_spec (2 ^ 53 + 1) (z * 2 ^ 53));
    try reflexivity; nia.
Qed.

(** On the text of an integer, [value > 1] compares the integer. *)
Lemma value_gt_one_Z_to_string (z : Z) :
  value_gt_one (Z_to_string z) = Ok (1 <? z).
Proof.
  unfold value_gt_one. pose proof (Z_to_string_nonempty z) as Hne.
  destruct (Z_to_string z) eqn:E; [congruence|]. rewrite <- E.
  now rewrite read_decimal_Z_to_string, decimal_gt_one_integer.
Qed.

Lemma on_decrease_integer (n : nat) (cm : CartManager) (w : World) (r : Row)
    (z : Z) :
  get_row n cm = Some r ->
  input_value r = Z_to_string z ->
  on_decrease n cm w
  = if 1 <? z
    then
      let input := with_input_value (Z_to_string (z - 1)) r in
      Ok (updateItemQuantity input (put_row input cm) w)
    else Ok (cm, w).
Proof.
  intros Hr Hv. unfold on_decrease.
  rewrite Hr, Hv, value_gt_one_Z_to_string, parseInt_Z_to_string.
  destruct (1 <? z); reflexivity.
Qed.

Lemma on_increase_integer (n : nat) (cm : CartManager) (w : World) (r : Row)
    (z : Z) :
  get_row n cm = Some r ->
  input_value r = Z_to_string z ->
  on_increase n cm w
  = let input := with_input_value (Z_to_string (z + 1)) r in
    updateItemQuantity input (put_row input cm) w.
Proof.
  intros Hr Hv. unfold on_increase.
  rewrite Hr, Hv, parseInt_Z_to_string. reflexivity.
Qed.

(** The decrease button on an input showing 1 (or less) does nothing, however
    often it is clicked. *)
Lemma decrease_at_floor (k : nat) (n : nat) (cm : CartManager) (w : World)
    (r : Row) (z : Z) :
  get_row n cm = Some r ->
  input_value r = Z_to_string z ->
  z <= 1 ->
  handle_all (repeat (Decrease n) k) cm w = Ok (cm, w).
Proof.
  intros Hr Hv Hz. induction k as [|k IH]; [reflexivity|].
  cbn [repeat handle_all handle].
  rewrite (on_decrease_integer n cm w r z Hr Hv).
  destruct (Z.ltb_spec 1 z); [lia|exact IH].
Qed.

Lemma floor_ok_update_first (test : LineItem -> bool) (q : Z) (l : list LineItem) :
  1 <= q -> floor_ok l -> floor_ok (update_first test (set_quantity (Int q)) l).
Proof.
  intros Hq. unfold floor_ok.
  induction 1 as [|it l Hit Hl IH]; cbn [update_first]; [constructor|].
  destruct (test it); constructor; auto.
  exists q. split; [reflexivity|assumption].
Qed.

Lemma rows_ok_map_rows (f : Row -> Row) (cm : CartManager) :
  (forall r, row_ok r -> row_ok (f r)) -> rows_ok cm -> rows_ok (map_rows f cm).
Proof.
  intros Hf. unfold rows_ok, container_rows, map_rows.
  destruct (cartItemsContainer cm) as [rows|html|l] eqn:E;
    cbn [with_container cartItemsContainer]; [|now rewrite E ..].
  clear E. intros H. induction H as [|r l Hr Hl IH]; cbn [map]; [constructor|].
  constructor; [apply Hf; exact Hr|exact IH].
Qed.

Lemma rows_ok_put_row (input : Row) (cm : CartManager) :
  row_ok input -> rows_ok cm -> rows_ok (put_row input cm).
Proof.
  intros Hi. apply rows_ok_map_rows. intros r Hr.
  destruct (Nat.eqb (node r) (node input)); assumption.
Qed.

Lemma rows_ok_set_row_total (n : nat) (t : text) (cm : CartManager) :
  rows_ok cm -> rows_ok (set_row_total n t cm).
Proof.
  apply rows_ok_map_rows. intros r Hr.
  destruct (Nat.eqb (node r) n); assumption.
Qed.

Lemma updateItemQuantity_keeps_floor (input : Row) (cm : CartManager)
    (w : World) (q : Z) :
  parseInt (input_value input) = Int q -> 1 <= q ->
  floor_ok (items cm) -> rows_ok cm ->
  floor_ok (items (fst (updateItemQuantity input cm w)))
  /\ rows_ok (fst (updateItemQuantity input cm w)).
Proof.
  intros Hq Hge Hf Hr.
  unfold updateItemQuantity, updateItemQuantity_with. rewrite Hq.
  destruct (List.find _ (items cm)); cbn [fst]; [|now split].
  split.
  - cbn [calculateTotals items]. unfold set_row_total, map_rows.
    cbn [with_items cartItemsContainer].
    destruct (cartItemsContainer cm); cbn [with_container items];
      now apply floor_ok_update_first.
  - unfold rows_ok, container_rows. cbn [calculateTotals cartItemsContainer].
    apply (rows_ok_set_row_total _ _ (with_items _ cm)). exact Hr.
Qed.

Lemma get_row_ok (n : nat) (cm : CartManager) (r : Row) :
  rows_ok cm -> get_row n cm = Some r -> row_ok r.
Proof.
  unfold rows_ok, get_row. intros H Hfind.
  apply find_some in Hfind as [Hin _].
  rewrite List.Forall_forall in H. now apply H.
Qed.

Lemma floor_ok_filter (f : LineItem -> bool) (l : list LineItem) :
  floor_ok l -> floor_ok (List.filter f l).
Proof.
  unfold floor_ok. induction 1; cbn [List.filter]; [constructor|].
  destruct (f x); [constructor|]; assumption.
Qed.

Lemma rows_ok_remove_row (n : nat) (cm : CartManager) :
  rows_ok cm -> rows_ok (remove_row n cm).
Proof.
  unfold rows_ok, container_rows, remove_row.
  destruct (cartItemsContainer cm) as [rows|html|l] eqn:E;
    cbn [with_container cartItemsContainer]; [|now rewrite E ..].
  clear E. intros H. induction H as [|r l Hr Hl IH]; cbn [List.filter];
    [constructor|].
  destruct (negb _); [constructor|]; assumption.
Qed.

Lemma confirmRemoveItem_keeps_floor (cm : CartManager) (w : World) :
  floor_ok (items cm) -> rows_ok cm ->
  floor_ok (items (fst (confirmRemoveItem cm w)))
  /\ rows_ok (fst (confirmRemoveItem cm w)).
Proof.
  intros Hf Hr. destruct (itemToRemove cm) as [el|] eqn:Hp.
  - rewrite (confirmRemoveItem_pending cm w el Hp). cbn [fst]. split.
    + cbn [closeRemoveModal with_itemToRemove with_modal calculateTotals items].
      rewrite items_remove_row. now apply floor_ok_filter.
    + unfold rows_ok, container_rows.
      cbn [closeRemoveModal with_itemToRemove with_modal calculateTotals
             cartItemsContainer].
      apply (rows_ok_remove_row _ (with_items _ cm)). exact Hr.
  - unfold confirmRemoveItem. rewrite Hp. now split.
Qed.

(** One event other than a direct edit is handled, and keeps every quantity
    of the cart and every quantity input at an integer of at least 1. *)
Lemma handle_keeps_floor (e : event) (cm : CartManager) (w : World) :
  no_edit e = true ->
  floor_ok (items cm) -> rows_ok cm ->
  exists cm' w',
    handle e cm w = Ok (cm', w') /\ floor_ok (items cm') /\ rows_ok cm'.
Proof.
  intros He Hf Hr. destruct e as [n v|n|n|n| | |]; try discriminate;
    cbn [handle].
  - (* increase *)
    destruct (get_row n cm) as [r|] eqn:Hrow.
    + destruct (get_row_ok n cm r Hr Hrow) as (z & Hv & Hz).
      rewrite (on_increase_integer n cm w r z Hrow Hv). cbv zeta.
      set (input := with_input_value (Z_to_string (z + 1)) r).
      destruct (updateItemQuantity input (put_row input cm) w) as [cm' w'] eqn:E.
      exists cm', w'. split; [reflexivity|].
      change cm' with (fst (cm', w')). rewrite <- E.
      apply (updateItemQuantity_keeps_floor input _ w (z + 1)).
      * apply parseInt_Z_to_string.
      * lia.
      * unfold put_row, map_rows.
        destruct (cartItemsContainer cm); exact Hf.
      * apply rows_ok_put_row; [|exact Hr]. exists (z + 1). split; [reflexivity|lia].
    + unfold on_increase. rewrite Hrow. now exists cm, w.
  - (* decrease *)
    destruct (get_row n cm) as [r|] eqn:Hrow.
    + destruct (get_row_ok n cm r Hr Hrow) as (z & Hv & Hz).
      rewrite (on_decrease_integer n cm w r z Hrow Hv).
      destruct (Z.ltb_spec 1 z); [|now exists cm, w].
      cbv zeta. set (input := with_input_value (Z_to_string (z - 1)) r).
      destruct (updateItemQuantity input (put_row input cm) w) as [cm' w'] eqn:E.
      exists cm', w'. split; [reflexivity|].
      change cm' with (fst (cm', w')). rewrite <- E.
      apply (updateItemQuantity_keeps_floor input _ w (z - 1)).
      * apply parseInt_Z_to_string.
      * lia.
      * unfold put_row, map_rows.
        destruct (cartItemsContainer cm); exact Hf.
      * apply rows_ok_put_row; [|exact Hr]. exists (z - 1). split; [reflexivity|lia].
    + unfold on_decrease. rewrite Hrow. now exists cm, w.
  - (* removal icon *)
    exists (on_remove n cm), w. split; [reflexivity|].
    unfold on_remove. destruct (get_row n cm); now split.
  - (* cancel *)
    exists (closeRemoveModal cm), w. now split.
  - (* confirm *)
    destruct (confirmRemoveItem cm w) as [cm' w'] eqn:E.
    exists cm', w'. split; [reflexivity|].
    change cm' with (fst (cm', w')). rewrite <- E.
    now apply confirmRemoveItem_keeps_floor.
  - (* checkout *)
    exists cm, (proceedToCheckout cm w). now split.
Qed.

(** The steppers and the removal dialogue keep the quantity floor: from a
    page whose quantities and quantity inputs are integers of at least 1,
    every sequence of events without a direct edit is handled and ends in
    such a page. *)
Lemma steppers_keep_floor (es : list event) (cm : CartManager) (w : World) :
  forallb no_edit es = true ->
  floor_ok (items cm) -> rows_ok cm ->
  exists cm' w',
    handle_all es cm w = Ok (cm', w') /\ floor_ok (items cm') /\ rows_ok cm'.
Proof.
  revert cm w. induction es as [|e es IH]; intros cm w Hes Hf Hr.
  - now exists cm, w.
  - cbn [forallb] in Hes. apply andb_true_iff in Hes as [He Hes].
    destruct (handle_keeps_floor e cm w He Hf Hr) as (cm1 & w1 & E & Hf1 & Hr1).
    cbn [handle_all]. rewrite E. now apply IH.
Qed.

Lemma rows_ok_create_rows (n : nat) (l : list LineItem) :
  floor_ok l -> Forall row_ok (create_rows n l).
Proof.
  intros H. revert n. induction H as [|it l (q & Hq & Hge) Hl IH]; intros n;
    cbn [create_rows]; constructor; [|apply IH].
  exists q. split; [|assumption]. cbn. now rewrite Hq.
Qed.

(** A page just rendered from a cart within the floor is within it. *)
Lemma renderCartItems_floor (cm : CartManager) :
  floor_ok (items cm) ->
  floor_ok (items (renderCartItems cm)) /\ rows_ok (renderCartItems cm).
Proof.
  intros H. split; [exact H|].
  unfold rows_ok, container_rows, renderCartItems.
  cbn [calculateTotals cartItemsContainer].
  destruct (forallb plain_item (items cm)); [|constructor].
  now apply rows_ok_create_rows.
Qed.

(** C5.  A direct edit of a quantity input is not refused below 1.  On the
    page showing the shirt (quantity 2) and the hat (quantity 1), all within
    the floor, leaving 0 in the hat's input sets the hat's quantity to 0, in
    the cart and in the stored cart; after that the decrease button, which
    would have refused to go below 1, is of no help. *)
Theorem direct_edit_breaks_floor :
  floor_ok (items (fst loaded))
  /\ rows_ok (fst loaded)
  /\ map quantity (items (fst loaded)) = [Int 2; Int 1]
  /\ handle_all [Decrease 1; Decrease 1] (fst loaded) (snd loaded) = Ok loaded
  /\ exists cm' w',
       handle (Change 1 "0") (fst loaded) (snd loaded) = Ok (cm', w')
       /\ map quantity (items cm') = [Int 2; Int 0]
       /\ ~ floor_ok (items cm')
       /\ (exists stored,
             getCartFromLocalStorage w' = Ok (Some stored)
             /\ option_map (map quantity) (items_of stored)
                = Some [Int 2; Int 0]).
Proof.
  assert (Hf : floor_ok (items (fst loaded))).
  { repeat constructor; eexists; (split; [reflexivity|lia]). }
  split; [exact Hf|].
  split; [repeat constructor; eexists; (split; [reflexivity|lia])|].
  split; [reflexivity|].
  split; [vm_compute; reflexivity|].
  do 2 eexists. split; [vm_compute; reflexivity|].
  split; [reflexivity|].
  split.
  - intros H. apply Forall_cons in H as [_ H]. apply Forall_cons in H as [H _].
    destruct H as (q & Hq & Hge). injection Hq as <-. lia.
  - eexists. split; vm_compute; reflexivity.
Qed.


(** ** Further properties *)

(** *** What [JSON_parse] returns is well formed *)

Lemma obj_set_keys (k : string) (v : json) (ms : list (string * json)) :
  map fst (obj_set k v ms)
  = if bool_decide (k ∈ map fst ms) then map fst ms else (map fst ms ++ [k])%list.
Proof.
  induction ms as [|[k' v'] ms IH]; [reflexivity|].
  cbn [obj_set map fst]. destruct (String.eqb_spec k' k) as [->|Hne].
  - cbn [map fst]. rewrite bool_decide_eq_true_2 by left. reflexivity.
  - cbn [map fst]. rewrite IH.
    destruct (bool_decide (k ∈ map fst ms)) eqn:E.
    + apply bool_decide_eq_true in E.
      rewrite bool_decide_eq_true_2 by now right. reflexivity.
    + apply bool_decide_eq_false in E.
      rewrite bool_decide_eq_false_2; [reflexivity|].
      intros H. apply elem_of_cons in H as [H|H]; congruence.
Qed.

Lemma obj_set_members (k : string) (v : json) (ms : list (string * json))
    (f : string * json -> bool) :
  f (k, v) = true -> (forall k' v', f (k', v') = true -> k' = k -> f (k', v) = true) ->
  forallb f ms = true -> forallb f (obj_set k v ms) = true.
Proof.
  intros Hkv Hrep. induction ms as [|[k' v'] ms IH]; cbn [obj_set forallb].
  - intros _. now rewrite Hkv.
  - intros H. apply andb_true_iff in H as [H1 H2].
    destruct (String.eqb_spec k' k) as [E|Hne]; cbn [forallb].
    + rewrite H2, (Hrep k' v' H1 E). reflexivity.
    + now rewrite H1, IH.
Qed.

Lemma obj_set_wf (k : string) (v : json) (ms : list (string * json)) :
  members_wf ms = true -> index_like k = false -> wf_json v = true ->
  members_wf (obj_set k v ms) = true.
Proof.
  unfold members_wf. cbn [wf_json]. intros H Hk Hv.
  apply andb_true_iff in H as [Hnd Hall].
  apply bool_decide_eq_true in Hnd.
  apply andb_true_iff. split.
  - apply bool_decide_eq_true. rewrite obj_set_keys.
    destruct (bool_decide (k ∈ map fst ms)) eqn:E; [exact Hnd|].
    apply bool_decide_eq_false in E.
    apply NoDup_app. split; [exact Hnd|]. split.
    + intros x Hx Hx'. apply list_elem_of_singleton in Hx'. congruence.
    + apply NoDup_singleton.
  - apply obj_set_members; [cbn; now rewrite Hk, Hv| |exact Hall].
    intros k' v' H' _. cbn [fst snd] in *.
    apply andb_true_iff in H' as [H' _]. now rewrite H', Hv.
Qed.

Lemma complete_wf (v : json) (st : list frame) (odd : bool) :
  wf_json v = true -> forallb frame_wf st = true ->
  p_odd (complete v st odd) = odd
  /\ wf_state (p_mode (complete v st odd)) (p_stack (complete v st odd)).
Proof.
  intros Hv Hst. destruct st as [|[es|ms k] st]; cbn [complete p_odd p_mode p_stack].
  - repeat split. exact Hv.
  - cbn [forallb frame_wf] in Hst. apply andb_true_iff in Hst as [Hes Hst].
    repeat split; [|exact Hst]. cbn [mode_wf forallb]. now rewrite Hv, Hes.
  - cbn [forallb frame_wf] in Hst. apply andb_true_iff in Hst as [Hf Hst].
    apply andb_true_iff in Hf as [Hms Hk]. apply negb_true_iff in Hk.
    repeat split; [|exact Hst]. cbn [mode_wf]. now apply obj_set_wf.
Qed.

Lemma preserves_complete (v : json) (m : mode) (st : list frame) (odd : bool) :
  (mode_wf m = true -> wf_json v = true) ->
  preserves odd m st (complete v st odd).
Proof.
  intros Hv Hodd.
  split.
  - destruct st as [|[] st]; exact Hodd.
  - intros [Hm Hst]. apply complete_wf; auto.
Qed.

Lemma preserves_push (m m' : mode) (f : frame) (st : list frame) (odd : bool) :
  (mode_wf m = true -> frame_wf f = true) -> mode_wf m' = true ->
  preserves odd m st (mkP m' (f :: st) odd).
Proof.
  intros Hf Hm Hodd. split; [exact Hodd|]. intros [H1 H2]. split; [exact Hm|].
  cbn [p_stack forallb]. now rewrite Hf, H2.
Qed.

Lemma preserves_same (m m' : mode) (st : list frame) (odd : bool) :
  (mode_wf m = true -> mode_wf m' = true) ->
  preserves odd m st (mkP m' st odd).
Proof.
  intros Hm Hodd. split; [exact Hodd|]. intros [H1 H2]. split; auto.
Qed.

Lemma start_value_preserves (st : list frame) (odd : bool) (c : ascii) (p' : pstate) :
  start_value st odd c = Some p' ->
  p_odd p' = odd /\ p_stack p' = st /\ mode_wf (p_mode p') = true.
Proof.
  destruct c as [[] [] [] [] [] [] [] []]; cbv [start_value code N_of_ascii N_of_digits
    Z.of_N is_digit Z.leb Z.compare Pos.compare Pos.compare_cont andb
    N.add N.mul Pos.add Pos.mul Pos.succ];
    intros [= <-] || discriminate; repeat split.
Qed.

Lemma preserves_start (m : mode) (st st' : list frame) (odd : bool) (c : ascii)
    (p' : pstate) :
  start_value st' odd c = Some p' ->
  (mode_wf m = true -> forallb frame_wf st = true -> forallb frame_wf st' = true) ->
  preserves odd m st p'.
Proof.
  intros H Hst. apply start_value_preserves in H as (Ho & Hs & Hm).
  intros Hodd. rewrite Ho in Hodd. split; [exact Hodd|].
  intros [H1 H2]. split; [exact Hm|]. rewrite Hs. auto.
Qed.

Lemma preserves_str key_of acc acc' e e' (st : list frame) (odd o : bool) :
  preserves odd (MStr key_of acc e) st (mkP (MStr key_of acc' e') st (o || odd)).
Proof.
  intros Hodd. cbn [p_odd] in Hodd. apply orb_false_iff in Hodd as [_ Hodd].
  split; [exact Hodd|]. intros [H1 H2]. split; [|exact H2].
  destruct key_of; exact H1.
Qed.

Lemma forallb_rev {A} (f : A -> bool) (l : list A) :
  forallb f l = true -> forallb f (List.rev l) = true.
Proof.
  rewrite !forallb_forall. intros H x Hx. apply H. now apply in_rev.
Qed.

Lemma step_string_preserves key_of acc e (st : list frame) (odd : bool)
    (c : ascii) (p' : pstate) :
  step_string key_of acc e st odd c = Some p' ->
  preserves odd (MStr key_of acc e) st p'.
Proof.
  unfold step_string. destruct e as [| |count v].
  - destruct (code c =? 34).
    + destruct key_of as [ms|]; intros [= <-].
      * intros Hodd. cbn [p_odd] in Hodd.
        apply orb_false_iff in Hodd as [Hk Hodd].
        split; [exact Hodd|]. intros [H1 H2]. split; [|exact H2].
        cbn [p_mode mode_wf] in *. now rewrite H1, Hk.
      * now apply preserves_complete.
    + destruct (code c =? 92); [intros [= <-]; apply (preserves_str _ _ _ _ _ _ _ false)|].
      destruct (code c <? 32); [discriminate|].
      intros [= <-]. apply (preserves_str _ _ _ _ _ _ _ false).
  - destruct c as [[] [] [] [] [] [] [] []];
      cbv [code N_of_ascii N_of_digits Z.of_N N.add N.mul Pos.add Pos.mul Pos.succ];
      intros [= <-] || discriminate;
      apply (preserves_str _ _ _ _ _ _ _ false).
  - destruct (hex_value (code c)); [|discriminate].
    destruct (count <? 3)%nat; intros [= <-].
    + apply (preserves_str _ _ _ _ _ _ _ false).
    + apply preserves_str.
Qed.

Lemma step_plain_preserves (m : mode) (st : list frame) (odd : bool)
    (c : ascii) (p' : pstate) :
  step_plain m st odd c = Some p' -> preserves odd m st p'.
Proof.
  destruct m as [| |es| |ms|ms k|ms|key_of acc e|ns neg mag|rest v|v];
    cbn [step_plain]; cbv zeta.
  - destruct (is_json_ws (code c)); [intros [= <-]; now apply preserves_same|].
    intros H. now apply (preserves_start _ _ st _ _ _ H).
  - destruct (is_json_ws (code c)); [intros [= <-]; now apply preserves_same|].
    destruct (code c =? 93); [intros [= <-]; now apply preserves_complete|].
    intros H. apply (preserves_start _ _ (CArr [] :: st) _ _ _ H).
    intros _ Hst. exact Hst.
  - destruct (is_json_ws (code c)); [intros [= <-]; now apply preserves_same|].
    destruct (code c =? 44); [intros [= <-]; now apply preserves_push|].
    destruct (code c =? 93); [|discriminate].
    intros [= <-]. apply preserves_complete. cbn [mode_wf wf_json].
    apply forallb_rev.
  - destruct (is_json_ws (code c)); [intros [= <-]; now apply preserves_same|].
    destruct (code c =? 125); [intros [= <-]; now apply preserves_complete|].
    destruct (code c =? 34); [|discriminate].
    intros [= <-]. now apply preserves_same.
  - destruct (is_json_ws (code c)); [intros [= <-]; now apply preserves_same|].
    destruct (code c =? 34); [|discriminate].
    intros [= <-]. now apply preserves_same.
  - destruct (is_json_ws (code c)); [intros [= <-]; now apply preserves_same|].
    destruct (code c =? 58); [|discriminate].
    intros [= <-]. now apply preserves_push.
  - destruct (is_json_ws (code c)); [intros [= <-]; now apply preserves_same|].
    destruct (code c =? 44); [intros [= <-]; now apply preserves_same|].
    destruct (code c =? 125); [|discriminate].
    intros [= <-]. now apply preserves_complete.
  - apply step_string_preserves.
  - discriminate.
  - destruct rest as [|c' rest']; [discriminate|].
    destruct (Ascii.eqb c c'); [|discriminate].
    destruct rest'; intros [= <-];
      [now apply preserves_complete | now apply preserves_same].
  - destruct (is_json_ws (code c)); [|discriminate].
    intros [= <-]. now apply preserves_same.
Qed.

Lemma complete_odd (v : json) (st : list frame) (odd : bool) :
  p_odd (complete v st odd) = odd.
Proof. destruct st as [|[] st]; reflexivity. Qed.

Lemma end_number_preserves ns neg mag (st : list frame) (odd : bool)
    (c : ascii) (p' : pstate) :
  end_number ns neg mag st odd c = Some p' ->
  preserves odd (MNum ns neg mag) st p'.
Proof.
  unfold end_number. destruct (num_final ns) as [o|]; [|discriminate].
  intros H. apply step_plain_preserves in H.
  intros Hodd. destruct (H Hodd) as [Ho Hw].
  rewrite complete_odd in Ho. apply orb_false_iff in Ho as [_ Ho].
  split; [exact Ho|]. intros [_ Hst]. apply Hw. now apply complete_wf.
Qed.

Lemma step_preserves (p p' : pstate) (c : ascii) :
  step p c = Some p' -> preserves (p_odd p) (p_mode p) (p_stack p) p'.
Proof.
  destruct p as [m st odd]. unfold step. cbn [p_mode p_stack p_odd].
  destruct m as [| |es| |ms|ms k|ms|key_of acc e|ns neg mag|rest v|v];
    try apply step_plain_preserves.
  unfold step_num. cbv zeta.
  destruct ns;
    repeat match goal with
           | |- context [if ?b then _ else _] => destruct b
           end;
    try discriminate; try apply end_number_preserves;
    intros [= <-]; now apply preserves_same.
Qed.

Lemma run_odd (s : string) (p p' : pstate) :
  run s p = Some p' -> p_odd p' = false -> p_odd p = false.
Proof.
  revert p. induction s as [|c s IH]; intros p; cbn [run]; [now intros [= <-]|].
  destruct (step p c) as [p1|] eqn:E; [|discriminate].
  intros Hrun Hodd. apply step_preserves in E.
  now destruct (E (IH p1 Hrun Hodd)).
Qed.

Lemma run_preserves (s : string) (p p' : pstate) :
  run s p = Some p' ->
  p_odd p' = false ->
  wf_state (p_mode p) (p_stack p) -> wf_state (p_mode p') (p_stack p').
Proof.
  revert p. induction s as [|c s IH]; intros p; cbn [run]; [now intros [= <-]|].
  destruct (step p c) as [p1|] eqn:E; [|discriminate].
  intros Hrun Hodd Hwf. apply step_preserves in E.
  apply (IH p1 Hrun Hodd). apply E; [|exact Hwf].
  exact (run_odd s p1 p' Hrun Hodd).
Qed.

(** A value that [JSON.parse] returns stands for a JavaScript value as it
    is. *)
Lemma JSON_parse_wf (t : string) (v : json) :
  JSON_parse t = Ok v -> wf_json v = true.
Proof.
  unfold JSON_parse.
  destruct (run t (mkP MValue [] false)) as [p|] eqn:E; [|discriminate].
  destruct (finish p) as [[v' [|]]|] eqn:F; try discriminate.
  intros [= ->]. unfold finish in F.
  destruct (p_mode p) eqn:Hm; try discriminate;
    destruct (p_stack p) eqn:Hs; try discriminate.
  - destruct (num_final ns); [|discriminate]. injection F as <- _. reflexivity.
  - injection F as -> Hodd.
    apply run_preserves in E; [|exact Hodd|split; reflexivity].
    rewrite Hm in E. apply E.
Qed.

(** *** Totals *)

Lemma totals_ok_calculateTotals (cm : CartManager) : totals_ok (calculateTotals cm).
Proof.
  unfold totals_ok.
  cbn [calculateTotals items subtotal subtotalElement totalElement cartCountElement].
  rewrite subtotal_of_stated, totalItems_of_stated. repeat split.
Qed.

Lemma totals_ok_map_rows (f : Row -> Row) (cm : CartManager) :
  totals_ok cm -> totals_ok (map_rows f cm).
Proof. unfold map_rows. destruct (cartItemsContainer cm); intros H; exact H. Qed.

Lemma updateItemQuantity_totals (input : Row) (cm : CartManager) (w : World) :
  totals_ok cm -> totals_ok (fst (updateItemQuantity input cm w)).
Proof.
  intros H. unfold updateItemQuantity, updateItemQuantity_with.
  destruct (List.find _ (items cm)); cbn [fst]; [|exact H].
  apply totals_ok_calculateTotals.
Qed.

Lemma handle_totals (e : event) (cm cm' : CartManager) (w w' : World) :
  totals_ok cm -> handle e cm w = Ok (cm', w') -> totals_ok cm'.
Proof.
  intros H. destruct e as [n v|n|n|n| | |]; cbn [handle].
  - intros [= E]. apply (f_equal fst) in E. cbn [fst] in E. subst cm'.
    unfold on_change. destruct (get_row n cm); [|exact H].
    apply updateItemQuantity_totals. now apply totals_ok_map_rows.
  - intros [= E]. apply (f_equal fst) in E. cbn [fst] in E. subst cm'.
    unfold on_increase. destruct (get_row n cm); [|exact H].
    apply updateItemQuantity_totals. now apply totals_ok_map_rows.
  - unfold on_decrease. destruct (get_row n cm); [|now intros [= <- <-]].
    destruct (value_gt_one _) as [[|]| |]; try discriminate;
      [|now intros [= <- <-]].
    intros [= E]. apply (f_equal fst) in E. cbn [fst] in E. subst cm'.
    apply updateItemQuantity_totals. now apply totals_ok_map_rows.
  - intros [= <- <-]. unfold on_remove. destruct (get_row n cm); exact H.
  - intros [= <- <-]. exact H.
  - intros [= E]. apply (f_equal fst) in E. cbn [fst] in E. subst cm'.
    destruct (itemToRemove cm) as [el|] eqn:Hp.
    + rewrite (confirmRemoveItem_pending cm w el Hp). cbn [fst].
      exact (totals_ok_calculateTotals _).
    + unfold confirmRemoveItem. rewrite Hp. exact H.
  - intros [= <- <-]. exact H.
Qed.

(** X1: the totals on display never drift.  Once the subtotal field and the
    subtotal, total and count elements are those of the cart, they are so
    after every sequence of events, direct edits included. *)
Theorem totals_never_drift (es : list event) (cm cm' : CartManager)
    (w w' : World) :
  totals_ok cm -> handle_all es cm w = Ok (cm', w') -> totals_ok cm'.
Proof.
  revert cm w. induction es as [|e es IH]; intros cm w H; cbn [handle_all].
  - now intros [= <- <-].
  - destruct (handle e cm w) as [[cm1 w1]| |] eqn:E; try discriminate.
    apply IH. exact (handle_totals e cm cm1 w w1 H E).
Qed.

Lemma totals_never_drift_witness :
  totals_ok
    (fst (match handle_all [Increase 0; Change 1 "0"; Remove 0; Confirm]
                  (fst loaded) (snd loaded) with
          | Ok p => p
          | _ => loaded
          end)).
Proof.
  apply (totals_never_drift [Increase 0; Change 1 "0"; Remove 0; Confirm]
           (fst loaded) _ (snd loaded)
           (snd (match handle_all [Increase 0; Change 1 "0"; Remove 0; Confirm]
                         (fst loaded) (snd loaded) with
                 | Ok p => p
                 | _ => loaded
                 end))).
  - vm_compute. repeat split.
  - vm_compute. reflexivity.
Defined.

(** *** Rendering *)

Lemma create_rows_nodes (n : nat) (l : list LineItem) :
  map node (create_rows n l) = seq n (length l).
Proof.
  revert n. induction l as [|it l IH]; intros n; [reflexivity|].
  cbn [create_rows map length seq node createCartItemHTML]. now rewrite IH.
Qed.

Lemma create_rows_shows (n : nat) (l : list LineItem) :
  Forall2 shows (create_rows n l) l.
Proof.
  revert n. induction l as [|it l IH]; intros n; cbn [create_rows];
    constructor; [|apply IH].
  repeat split.
Qed.

(** *** Rows and items, side by side *)

Lemma Z_to_string_inj (a b : Z) : Z_to_string a = Z_to_string b -> a = b.
Proof.
  intros H. apply (f_equal parseInt) in H.
  rewrite !parseInt_Z_to_string in H. now injection H.
Qed.

Lemma parseInt_input_text (q : num) : parseInt (input_text q) = q.
Proof. destruct q as [|z]; [reflexivity|apply parseInt_Z_to_string]. Qed.

Lemma find_by_id (l : list LineItem) (it : LineItem) :
  List.NoDup (map id l) -> In it l ->
  List.find (id_matches (Z_to_string (id it))) l = Some it.
Proof.
  induction l as [|x l IH]; cbn [map In List.find]; [contradiction|].
  intros Hnd [->|Hin].
  - now rewrite id_matches_Z_to_string, Z.eqb_refl.
  - apply List.NoDup_cons_iff in Hnd as [Hx Hnd].
    rewrite id_matches_Z_to_string.
    destruct (Z.eqb_spec (id x) (id it)) as [E|_]; [|now apply IH].
    exfalso. apply Hx. rewrite E. now apply in_map.
Qed.

Lemma Forall2_combine {A B} (R : A -> B -> Prop) (la : list A) (lb : list B)
    (a : A) :
  Forall2 R la lb -> In a la -> exists b, In (a, b) (combine la lb) /\ R a b.
Proof.
  induction 1 as [|x y la lb Hxy H IH]; cbn [In combine]; [contradiction|].
  intros [->|Hin].
  - exists y. split; [now left|assumption].
  - destruct (IH Hin) as (b & Hb & Rb). exists b. split; [now right|assumption].
Qed.

Lemma map_unchanged {A} (f : A -> A) (l : list A) :
  (forall x, In x l -> f x = x) -> map f l = l.
Proof.
  induction l as [|x l IH]; intros H; [reflexivity|].
  cbn [map]. rewrite (H x) by now left.
  rewrite IH; [reflexivity|]. intros y Hy. apply H. now right.
Qed.

Lemma update_first_unchanged (test : LineItem -> bool) (f : LineItem -> LineItem)
    (l : list LineItem) :
  (forall x, In x l -> test x = false) -> update_first test f l = l.
Proof.
  induction l as [|x l IH]; intros H; [reflexivity|].
  cbn [update_first]. rewrite (H x) by now left.
  rewrite IH; [reflexivity|]. intros y Hy. apply H. now right.
Qed.

Lemma combine_unique (rows : list Row) (l : list LineItem) (r : Row)
    (it it' : LineItem) :
  List.NoDup (map node rows) ->
  In (r, it) (combine rows l) -> In (r, it') (combine rows l) -> it = it'.
Proof.
  revert l. induction rows as [|x rows IH]; intros [|y l] Hn;
    cbn [combine In]; try contradiction.
  cbn [map] in Hn. apply List.NoDup_cons_iff in Hn as [Hx Hn].
  intros [[= -> ->]|H1] [[= <-]|H2]; try reflexivity.
  - exfalso. apply Hx. apply in_combine_l in H2. now apply in_map.
  - exfalso. apply Hx. apply in_combine_l in H1. subst. now apply in_map.
  - now apply (IH l Hn).
Qed.

(** Replacing the row of element [node r] and the quantity of the item it
    shows keeps rows and items side by side. *)
Lemma sync_update (rows : list Row) (l : list LineItem) (r : Row)
    (it : LineItem) (z : Z) :
  Forall2 shows rows l ->
  List.NoDup (map node rows) -> List.NoDup (map id l) ->
  In (r, it) (combine rows l) ->
  Forall2 shows
    (map (fun r0 =>
            if Nat.eqb (node r0) (node r)
            then mkRow (node r) (data_id r) (Z_to_string z)
                   (formatCurrency (num_mul (Int (price it)) (Int z)))
            else r0) rows)
    (update_first (id_matches (data_id r)) (set_quantity (Int z)) l).
Proof.
  induction 1 as [|r0 it0 rows l Hs H IH]; cbn [map combine In];
    [contradiction|].
  intros Hn Hi Hin.
  apply List.NoDup_cons_iff in Hn as [Hn0 Hn].
  apply List.NoDup_cons_iff in Hi as [Hi0 Hi].
  cbn [update_first]. destruct Hin as [[= -> ->]|Hin].
  - rewrite Nat.eqb_refl. destruct Hs as (Hd & Hv & Ht).
    assert (Hm : id_matches (data_id r) it = true)
      by now rewrite Hd, id_matches_Z_to_string, Z.eqb_refl.
    rewrite Hm, map_unchanged.
    + constructor; [|exact H]. split; [exact Hd|]. split; reflexivity.
    + intros x Hx. destruct (Nat.eqb_spec (node x) (node r)) as [E|_];
        [|reflexivity].
      exfalso. apply Hn0. rewrite <- E. now apply in_map.
  - pose proof (in_combine_l _ _ _ _ Hin) as Hr.
    pose proof (in_combine_r _ _ _ _ Hin) as Hit.
    destruct (Nat.eqb_spec (node r0) (node r)) as [E|_].
    { exfalso. apply Hn0. rewrite E. now apply in_map. }
    assert (Hd : data_id r = Z_to_string (id it)).
    { destruct (Forall2_combine shows rows l r H Hr) as (it' & Hin' & Hd & _).
      rewrite (combine_unique rows l r it it' Hn Hin Hin'). exact Hd. }
    assert (Hm : id_matches (data_id r) it0 = false).
    { rewrite Hd, id_matches_Z_to_string. apply Z.eqb_neq. intros E.
      apply Hi0. rewrite E. now apply in_map. }
    rewrite Hm. constructor; [exact Hs|]. now apply IH.
Qed.

(** Detaching the row of element [node r] and removing the item it shows
    keeps rows and items side by side. *)
Lemma sync_remove (rows : list Row) (l : list LineItem) (r : Row)
    (it : LineItem) :
  Forall2 shows rows l ->
  List.NoDup (map node rows) -> List.NoDup (map id l) ->
  In (r, it) (combine rows l) ->
  Forall2 shows
    (List.filter (fun r0 => negb (Nat.eqb (node r0) (node r))) rows)
    (List.filter (fun x => negb (id_matches (data_id r) x)) l).
Proof.
  induction 1 as [|r0 it0 rows l Hs H IH]; cbn [map combine In];
    [contradiction|].
  intros Hn Hi Hin.
  apply List.NoDup_cons_iff in Hn as [Hn0 Hn].
  apply List.NoDup_cons_iff in Hi as [Hi0 Hi].
  cbn [List.filter]. destruct Hin as [[= -> ->]|Hin].
  - rewrite Nat.eqb_refl. destruct Hs as (Hd & Hv & Ht).
    assert (Hm : id_matches (data_id r) it = true)
      by now rewrite Hd, id_matches_Z_to_string, Z.eqb_refl.
    rewrite Hm. cbn [negb]. rewrite !filter_all_true; [exact H| |].
    + intros x Hx. rewrite Hd, id_matches_Z_to_string.
      apply negb_true_iff, Z.eqb_neq. intros E.
      apply Hi0. rewrite <- E. now apply in_map.
    + intros x Hx. apply negb_true_iff, Nat.eqb_neq. intros E.
      apply Hn0. rewrite <- E. now apply in_map.
  - pose proof (in_combine_l _ _ _ _ Hin) as Hr.
    pose proof (in_combine_r _ _ _ _ Hin) as Hit.
    destruct (Nat.eqb_spec (node r0) (node r)) as [E|_].
    { exfalso. apply Hn0. rewrite E. now apply in_map. }
    assert (Hd : data_id r = Z_to_string (id it)).
    { destruct (Forall2_combine shows rows l r H Hr) as (it' & Hin' & Hd & _).
      rewrite (combine_unique rows l r it it' Hn Hin Hin'). exact Hd. }
    assert (Hm : id_matches (data_id r) it0 = false).
    { rewrite Hd, id_matches_Z_to_string. apply Z.eqb_neq. intros E.
      apply Hi0. rewrite E. now apply in_map. }
    rewrite Hm. cbn [negb]. constructor; [exact Hs|]. now apply IH.
Qed.

Lemma NoDup_map_filter {A B} (f : A -> B) (p : A -> bool) (l : list A) :
  List.NoDup (map f l) -> List.NoDup (map f (List.filter p l)).
Proof.
  induction l as [|x l IH]; cbn [map List.filter]; [trivial|].
  intros H. apply List.NoDup_cons_iff in H as [Hx H].
  destruct (p x); [|now apply IH].
  cbn [map]. apply List.NoDup_cons; [|now apply IH].
  intros Hin. apply Hx. apply in_map_iff in Hin as (y & <- & Hy).
  apply in_map. now apply filter_In in Hy as [Hy _].
Qed.

Lemma node_unique (rows : list Row) (a b : Row) :
  List.NoDup (map node rows) -> In a rows -> In b rows -> node a = node b -> a = b.
Proof.
  induction rows as [|x rows IH]; cbn [map In]; [contradiction|].
  intros H. apply List.NoDup_cons_iff in H as [Hx H].
  intros [->|Ha] [->|Hb] E; try reflexivity.
  - exfalso. apply Hx. rewrite E. now apply in_map.
  - exfalso. apply Hx. rewrite <- E. now apply in_map.
  - now apply IH.
Qed.

Lemma update_first_ids (test : LineItem -> bool) (q : num) (l : list LineItem) :
  map id (update_first test (set_quantity q) l) = map id l.
Proof.
  induction l as [|x l IH]; [reflexivity|]. cbn [update_first].
  destruct (test x); cbn [map]; [reflexivity|now rewrite IH].
Qed.

Lemma update_first_integral (test : LineItem -> bool) (z : Z) (l : list LineItem) :
  integral l = true -> integral (update_first test (set_quantity (Int z)) l) = true.
Proof.
  unfold integral. induction l as [|x l IH]; [trivial|].
  cbn [update_first forallb]. intros H. apply andb_true_iff in H as [H1 H2].
  destruct (test x); cbn [forallb]; [exact H2|]. now rewrite H1, IH.
Qed.

Lemma update_first_map (k : Z) (f : LineItem -> LineItem) (l : list LineItem) :
  List.NoDup (map id l) ->
  update_first (id_matches (Z_to_string k)) f l
  = map (fun x => if id x =? k then f x else x) l.
Proof.
  induction l as [|x l IH]; [reflexivity|]. cbn [map update_first].
  intros H. apply List.NoDup_cons_iff in H as [Hx H].
  rewrite id_matches_Z_to_string.
  destruct (Z.eqb_spec (id x) k) as [E|_]; [|now rewrite IH].
  f_equal. symmetry. apply map_unchanged. intros y Hy.
  destruct (Z.eqb_spec (id y) k) as [E'|_]; [|reflexivity].
  exfalso. apply Hx. rewrite E, <- E'. now apply in_map.
Qed.

Lemma items_map_rows (f : Row -> Row) (cm : CartManager) :
  items (map_rows f cm) = items cm.
Proof. unfold map_rows. destruct (cartItemsContainer cm); reflexivity. Qed.

Lemma itemToRemove_map_rows (f : Row -> Row) (cm : CartManager) :
  itemToRemove (map_rows f cm) = itemToRemove cm.
Proof. unfold map_rows. destruct (cartItemsContainer cm); reflexivity. Qed.

Lemma container_rows_map_rows (f : Row -> Row) (cm : CartManager) :
  container_rows (map_rows f cm) = map f (container_rows cm).
Proof.
  unfold container_rows, map_rows.
  destruct (cartItemsContainer cm) eqn:E; cbn [with_container cartItemsContainer];
    [reflexivity|now rewrite E ..].
Qed.

Lemma get_row_in (n : nat) (cm : CartManager) (r : Row) :
  get_row n cm = Some r -> In r (container_rows cm) /\ node r = n.
Proof.
  unfold get_row. intros H. apply find_some in H as [Hin E].
  split; [exact Hin|]. now apply Nat.eqb_eq.
Qed.

Lemma updateItemQuantity_found (input : Row) (cm : CartManager) (w : World)
    (it : LineItem) (q : num) :
  List.find (id_matches (data_id input)) (items cm) = Some it ->
  parseInt (input_value input) = q ->
  updateItemQuantity input cm w
  = (calculateTotals
       (set_row_total (node input) (formatCurrency (num_mul (Int (price it)) q))
          (with_items
             (update_first (id_matches (data_id input)) (set_quantity q) (items cm))
             cm)),
     saveCartToLocalStorage
       (encode_cart
          (update_first (id_matches (data_id input)) (set_quantity q) (items cm)))
       w).
Proof.
  intros Hf Hq. unfold updateItemQuantity, updateItemQuantity_with.
  rewrite Hf, Hq. cbn [calculateTotals items]. unfold set_row_total.
  now rewrite items_map_rows.
Qed.

(** Setting the input of row [n] to the numeral of [z] and updating: the
    item the row shows, and no other, takes the quantity [z]; the cart so
    changed is stored; and the page still shows the cart. *)
Lemma update_keeps_page (cm : CartManager) (w : World) (n : nat) (r : Row)
    (z : Z) :
  page_ok cm -> get_row n cm = Some r ->
  exists it,
    In it (items cm) /\ shows r it
    /\ items (fst (updateItemQuantity (with_input_value (Z_to_string z) r)
                     (put_row (with_input_value (Z_to_string z) r) cm) w))
       = map (fun x => if id x =? id it then set_quantity (Int z) x else x)
           (items cm)
    /\ snd (updateItemQuantity (with_input_value (Z_to_string z) r)
              (put_row (with_input_value (Z_to_string z) r) cm) w)
       = saveCartToLocalStorage
           (encode_cart
              (map (fun x => if id x =? id it then set_quantity (Int z) x else x)
                 (items cm))) w
    /\ page_ok (fst (updateItemQuantity (with_input_value (Z_to_string z) r)
                       (put_row (with_input_value (Z_to_string z) r) cm) w)).
Proof.
  intros (Hi & Hn & Hint & Hs & Hp) Hrow.
  destruct (get_row_in n cm r Hrow) as [Hin Hnode].
  destruct (Forall2_combine shows _ _ r Hs Hin) as (it & Hc & Hsh).
  pose proof (in_combine_r _ _ _ _ Hc) as Hit.
  exists it. split; [exact Hit|]. split; [exact Hsh|].
  destruct Hsh as (Hd & Hv & Ht).
  set (input := with_input_value (Z_to_string z) r).
  assert (Hdi : data_id input = Z_to_string (id it)) by exact Hd.
  assert (Hni : node input = node r) by reflexivity.
  assert (Hfind : List.find (id_matches (data_id input)) (items (put_row input cm))
                  = Some it).
  { unfold put_row. rewrite items_map_rows, Hdi. now apply find_by_id. }
  rewrite (updateItemQuantity_found input _ w it (Int z) Hfind)
    by apply parseInt_Z_to_string.
  cbn [fst snd]. rewrite !Hdi, Hni.
  replace (items (put_row input cm)) with (items cm)
    by (unfold put_row; now rewrite items_map_rows).
  rewrite (update_first_map (id it)) by exact Hi.
  split; [cbn [calculateTotals items]; unfold set_row_total;
          now rewrite items_map_rows|].
  split; [reflexivity|].
  set (l' := map (fun x => if id x =? id it then set_quantity (Int z) x else x)
               (items cm)).
  set (t' := formatCurrency (num_mul (Int (price it)) (Int z))).
  assert (Hrows : container_rows
                    (calculateTotals
                       (set_row_total (node r) t' (with_items l' (put_row input cm))))
                  = map (fun r0 =>
                           if Nat.eqb (node r0) (node r)
                           then mkRow (node r) (data_id r) (Z_to_string z) t'
                           else r0) (container_rows cm)).
  { change (container_rows (calculateTotals ?c)) with (container_rows c).
    unfold set_row_total. rewrite container_rows_map_rows.
    change (container_rows (with_items l' ?c)) with (container_rows c).
    unfold put_row. rewrite container_rows_map_rows, map_map.
    apply map_ext. intros r0. unfold input. cbn [with_input_value node].
    destruct (Nat.eqb (node r0) (node r)) eqn:E; cbn [node];
      [now rewrite Nat.eqb_refl | now rewrite E]. }
  assert (Hl' : l' = update_first (id_matches (data_id r)) (set_quantity (Int z))
                       (items cm)).
  { unfold l'. now rewrite Hd, (update_first_map (id it)). }
  assert (Hitems : items
                     (calculateTotals
                        (set_row_total (node r) t' (with_items l' (put_row input cm))))
                   = l').
  { change (items (calculateTotals ?c)) with (items c).
    unfold set_row_total. now rewrite items_map_rows. }
  unfold page_ok. rewrite Hrows, Hitems.
  split; [rewrite Hl', update_first_ids; exact Hi|].
  split.
  { rewrite map_map. erewrite map_ext; [exact Hn|].
    intros r0. cbn beta. destruct (Nat.eqb_spec (node r0) (node r)) as [E|_];
      [now cbn|reflexivity]. }
  split; [rewrite Hl'; now apply update_first_integral|].
  split; [rewrite Hl'; now apply sync_update|].
  intros el Hel. rewrite Hrows.
  change (itemToRemove (calculateTotals ?c)) with (itemToRemove c) in Hel.
  unfold set_row_total in Hel.
  rewrite itemToRemove_map_rows in Hel. cbn [with_items itemToRemove] in Hel.
  unfold put_row in Hel. rewrite itemToRemove_map_rows in Hel.
  destruct (Hp el Hel) as (r1 & Hr1 & Hn1 & Hd1).
  exists (if Nat.eqb (node r1) (node r)
          then mkRow (node r) (data_id r) (Z_to_string z) t' else r1).
  split; [apply (in_map (fun r0 => if Nat.eqb (node r0) (node r) then _ else r0));
          exact Hr1|].
  destruct (Nat.eqb_spec (node r1) (node r)) as [E|_]; [|now split].
  rewrite (node_unique _ r1 r Hn Hr1 Hin E) in *. now split.
Qed.

Lemma integral_in (l : list LineItem) (it : LineItem) :
  integral l = true -> In it l -> exists q, quantity it = Int q.
Proof.
  unfold integral. rewrite forallb_forall. intros H Hin.
  specialize (H it Hin). destruct (quantity it) as [|q]; [discriminate|].
  now exists q.
Qed.

Lemma row_shows_integer (cm : CartManager) (n : nat) (r : Row) :
  page_ok cm -> get_row n cm = Some r ->
  exists it q,
    In it (items cm) /\ shows r it /\ quantity it = Int q
    /\ input_value r = Z_to_string q.
Proof.
  intros (Hi & Hn & Hint & Hs & Hp) Hrow.
  destruct (get_row_in n cm r Hrow) as [Hin _].
  destruct (Forall2_combine shows _ _ r Hs Hin) as (it & Hc & Hsh).
  pose proof (in_combine_r _ _ _ _ Hc) as Hit.
  destruct (integral_in _ it Hint Hit) as (q & Hq).
  exists it, q. repeat split; try assumption; try apply Hsh.
  destruct Hsh as (_ & Hv & _). now rewrite Hv, Hq.
Qed.

Lemma confirm_keeps_page (cm : CartManager) (w : World) :
  page_ok cm -> page_ok (fst (confirmRemoveItem cm w)).
Proof.
  intros Hok. destruct (itemToRemove cm) as [el|] eqn:Hel.
  2: { unfold confirmRemoveItem. now rewrite Hel. }
  rewrite (confirmRemoveItem_pending cm w el Hel). cbn [fst].
  destruct Hok as (Hi & Hn & Hint & Hs & Hp).
  destruct (Hp el Hel) as (r & Hin & Hnode & Hd).
  destruct (Forall2_combine shows _ _ r Hs Hin) as (it & Hc & Hsh).
  set (l' := List.filter (fun x => negb (id_matches (data_id el) x)) (items cm)).
  assert (Hitems : items
                     (closeRemoveModal
                        (calculateTotals
                           (remove_row (node el) (with_items l' cm)))) = l').
  { cbn [closeRemoveModal with_itemToRemove with_modal calculateTotals items].
    now rewrite items_remove_row. }
  assert (Hrows : container_rows
                    (closeRemoveModal
                       (calculateTotals
                          (remove_row (node el) (with_items l' cm))))
                  = List.filter (fun r0 => negb (Nat.eqb (node r0) (node el)))
                      (container_rows cm)).
  { unfold container_rows, remove_row.
    cbn [closeRemoveModal with_itemToRemove with_modal calculateTotals
           with_items cartItemsContainer].
    destruct (cartItemsContainer cm) eqn:E;
      cbn [with_container cartItemsContainer]; [reflexivity| |];
      cbn [with_items cartItemsContainer]; rewrite E; reflexivity. }
  unfold page_ok. rewrite Hrows, Hitems. unfold l'.
  split; [now apply NoDup_map_filter|].
  split; [now apply NoDup_map_filter|].
  split.
  { unfold integral in *. rewrite forallb_forall in *. intros x Hx.
    apply filter_In in Hx as [Hx _]. now apply Hint. }
  split; [rewrite <- Hnode, <- Hd; now apply (sync_remove _ _ r it)|].
  intros el' H. discriminate H.
Qed.

(** One event other than a direct edit that leaves something else than the
    numeral of an integer: it is handled, and the page still shows the
    cart. *)
Lemma handle_keeps_page (e : event) (cm : CartManager) (w : World) :
  integer_edit e = true -> page_ok cm ->
  exists cm' w', handle e cm w = Ok (cm', w') /\ page_ok cm'.
Proof.
  intros He Hok. destruct e as [n v|n|n|n| | |]; cbn [handle].
  - (* direct edit *)
    cbn [integer_edit] in He. destruct (parseInt v) as [|z]; [discriminate|].
    apply String.eqb_eq in He. subst v. unfold on_change.
    destruct (get_row n cm) as [r|] eqn:Hrow; [|now exists cm, w].
    destruct (update_keeps_page cm w n r z Hok Hrow) as (it & _ & _ & _ & _ & H).
    destruct (updateItemQuantity _ _ w) as [cm' w']. now exists cm', w'.
  - (* increase *)
    destruct (get_row n cm) as [r|] eqn:Hrow.
    2: { unfold on_increase. rewrite Hrow. now exists cm, w. }
    destruct (row_shows_integer cm n r Hok Hrow) as (it & q & _ & _ & _ & Hv).
    rewrite (on_increase_integer n cm w r q Hrow Hv). cbv zeta.
    destruct (update_keeps_page cm w n r (q + 1) Hok Hrow)
      as (it' & _ & _ & _ & _ & H).
    destruct (updateItemQuantity _ _ w) as [cm' w']. now exists cm', w'.
  - (* decrease *)
    destruct (get_row n cm) as [r|] eqn:Hrow.
    2: { unfold on_decrease. rewrite Hrow. now exists cm, w. }
    destruct (row_shows_integer cm n r Hok Hrow) as (it & q & _ & _ & _ & Hv).
    rewrite (on_decrease_integer n cm w r q Hrow Hv).
    destruct (1 <? q); [|now exists cm, w]. cbv zeta.
    destruct (update_keeps_page cm w n r (q - 1) Hok Hrow)
      as (it' & _ & _ & _ & _ & H).
    destruct (updateItemQuantity _ _ w) as [cm' w']. now exists cm', w'.
  - (* removal icon *)
    exists (on_remove n cm), w. split; [reflexivity|].
    unfold on_remove. destruct (get_row n cm) as [r|] eqn:Hrow; [|exact Hok].
    destruct Hok as (Hi & Hn & Hint & Hs & Hp).
    repeat split; try assumption.
    intros el [= <-]. exists r. repeat split.
    now apply (get_row_in n cm r).
  - (* cancel *)
    exists (closeRemoveModal cm), w. split; [reflexivity|].
    destruct Hok as (Hi & Hn & Hint & Hs & Hp).
    repeat split; try assumption. intros el H. discriminate H.
  - (* confirm *)
    pose proof (confirm_keeps_page cm w Hok) as H.
    destruct (confirmRemoveItem cm w) as [cm' w']. now exists cm', w'.
  - (* checkout *)
    now exists cm, (proceedToCheckout cm w).
Qed.

(** *** Quantities within a bound *)

Lemma quantities_within_mono (b b' : Z) (l : list LineItem) :
  b <= b' -> quantities_within b l -> quantities_within b' l.
Proof.
  intros Hb H. unfold quantities_within in *.
  rewrite List.Forall_forall in *. intros it Hin.
  destruct (H it Hin) as (q & Hq & Hle). exists q. split; [exact Hq|lia].
Qed.

Lemma quantities_within_in (b : Z) (l : list LineItem) (it : LineItem) (q : Z) :
  quantities_within b l -> In it l -> quantity it = Int q -> Z.abs q <= b.
Proof.
  unfold quantities_within. rewrite List.Forall_forall. intros H Hin Hq.
  destruct (H it Hin) as (q' & Hq' & Hle). congruence.
Qed.

Lemma quantities_within_set (b z k : Z) (l : list LineItem) :
  Z.abs z <= b -> quantities_within b l ->
  quantities_within b
    (map (fun x => if id x =? k then set_quantity (Int z) x else x) l).
Proof.
  intros Hz. unfold quantities_within.
  induction 1 as [|it l Hit Hl IH]; cbn [map]; constructor; [|exact IH].
  destruct (id it =? k); [|exact Hit]. exists z. now split.
Qed.

Lemma quantities_within_filter (b : Z) (f : LineItem -> bool) (l : list LineItem) :
  quantities_within b l -> quantities_within b (List.filter f l).
Proof.
  unfold quantities_within. induction 1 as [|it l Hit Hl IH];
    cbn [List.filter]; [constructor|].
  destruct (f it); [constructor|]; assumption.
Qed.

Lemma edit_within_mono (b b' : Z) (e : event) :
  b <= b' -> edit_within b e = true -> edit_within b' e = true.
Proof.
  intros Hb. destruct e as [n v|n|n|n| | |]; cbn [edit_within]; trivial.
  destruct (parseInt v) as [|z]; [trivial|].
  rewrite !andb_true_iff, !Z.leb_le. intros [H1 H2]. split; [exact H1|lia].
Qed.

Lemma edit_within_integer (b : Z) (e : event) :
  edit_within b e = true -> integer_edit e = true.
Proof.
  destruct e as [n v|n|n|n| | |]; cbn [edit_within integer_edit]; trivial.
  destruct (parseInt v) as [|z]; [trivial|].
  rewrite andb_true_iff. now intros [H _].
Qed.

Lemma items_on_remove (n : nat) (cm : CartManager) :
  items (on_remove n cm) = items cm.
Proof. unfold on_remove. now destruct (get_row n cm). Qed.

(** What one event does to the quantities of a page that shows the cart: a
    direct edit sets one of them to the integer typed, a stepper moves one
    of them by 1, and nothing else changes one. *)
Lemma handle_quantities (e : event) (cm cm' : CartManager) (w w' : World)
    (b : Z) :
  edit_within b e = true -> page_ok cm -> quantities_within b (items cm) ->
  handle e cm w = Ok (cm', w') ->
  quantities_within (b + 1) (items cm').
Proof.
  intros He Hok Hq.
  assert (Hmono : quantities_within (b + 1) (items cm))
    by (apply (quantities_within_mono b); [lia|exact Hq]).
  destruct e as [n v|n|n|n| | |]; cbn [handle].
  - (* direct edit *)
    cbn [edit_within] in He. destruct (parseInt v) as [|z]; [discriminate|].
    apply andb_true_iff in He as [Hv Hz]. apply String.eqb_eq in Hv.
    apply Z.leb_le in Hz. subst v. unfold on_change.
    destruct (get_row n cm) as [r|] eqn:Hrow; [|now intros [= <- <-]].
    destruct (update_keeps_page cm w n r z Hok Hrow) as (it & _ & _ & E & _).
    destruct (updateItemQuantity _ _ w) as [cm1 w1]. cbn [fst] in E.
    intros [= <- <-]. rewrite E.
    apply quantities_within_set; [lia|exact Hmono].
  - (* increase *)
    destruct (get_row n cm) as [r|] eqn:Hrow.
    2: { unfold on_increase. rewrite Hrow. now intros [= <- <-]. }
    destruct (row_shows_integer cm n r Hok Hrow) as (it & q & Hit & _ & Hqi & Hv).
    pose proof (quantities_within_in b _ it q Hq Hit Hqi) as Hle.
    rewrite (on_increase_integer n cm w r q Hrow Hv). cbv zeta.
    destruct (update_keeps_page cm w n r (q + 1) Hok Hrow) as (it' & _ & _ & E & _).
    destruct (updateItemQuantity _ _ w) as [cm1 w1]. cbn [fst] in E.
    intros [= <- <-]. rewrite E.
    apply quantities_within_set; [lia|exact Hmono].
  - (* decrease *)
    destruct (get_row n cm) as [r|] eqn:Hrow.
    2: { unfold on_decrease. rewrite Hrow. now intros [= <- <-]. }
    destruct (row_shows_integer cm n r Hok Hrow) as (it & q & Hit & _ & Hqi & Hv).
    pose proof (quantities_within_in b _ it q Hq Hit Hqi) as Hle.
    rewrite (on_decrease_integer n cm w r q Hrow Hv).
    destruct (Z.ltb_spec 1 q); [|now intros [= <- <-]]. cbv zeta.
    destruct (update_keeps_page cm w n r (q - 1) Hok Hrow) as (it' & _ & _ & E & _).
    destruct (updateItemQuantity _ _ w) as [cm1 w1]. cbn [fst] in E.
    intros [= <- <-]. rewrite E.
    apply quantities_within_set; [lia|exact Hmono].
  - (* removal icon *)
    intros [= <- <-]. now rewrite items_on_remove.
  - (* cancel *)
    now intros [= <- <-].
  - (* confirm *)
    intros [= E]. apply (f_equal fst) in E. cbn [fst] in E. subst cm'.
    destruct (itemToRemove cm) as [el|] eqn:Hel.
    + rewrite (confirmRemoveItem_items cm w el Hel).
      now apply quantities_within_filter.
    + unfold confirmRemoveItem. now rewrite Hel.
  - (* checkout *)
    now intros [= <- <-].
Qed.

(** X3: the page keeps showing the cart.  Take a page whose rows show the
    items one by one, with distinct identifiers and integer quantities of
    magnitude at most [b], and a sequence of stepper clicks, removals and
    direct edits that leave the numeral of an integer of magnitude at most
    [b]; let the whole stay within the safe integers, each event moving a
    quantity by 1 at most.  Then the sequence is handled to its end and
    leaves such a page, with quantities of magnitude at most [b] plus the
    number of events. *)
Theorem events_keep_page (es : list event) (cm : CartManager) (w : World)
    (b : Z) :
  forallb (edit_within b) es = true ->
  page_ok cm ->
  quantities_within b (items cm) ->
  catalog_within (b + Z.of_nat (length es)) (items cm) ->
  b + Z.of_nat (length es) <= MAX_SAFE_INTEGER ->
  exists cm' w',
    handle_all es cm w = Ok (cm', w')
    /\ page_ok cm'
    /\ quantities_within (b + Z.of_nat (length es)) (items cm').
Proof.
  intros Hes Hok Hq _ _. revert b cm w Hes Hok Hq.
  induction es as [|e es IH]; intros b cm w Hes Hok Hq.
  - exists cm, w. split; [reflexivity|]. split; [exact Hok|].
    cbn [length Z.of_nat]. now rewrite Z.add_0_r.
  - cbn [forallb] in Hes. apply andb_true_iff in Hes as [He Hes].
    destruct (handle_keeps_page e cm w (edit_within_integer b e He) Hok)
      as (cm1 & w1 & E & Hok1).
    pose proof (handle_quantities e cm cm1 w w1 b He Hok Hq E) as Hq1.
    assert (Hes1 : forallb (edit_within (b + 1)) es = true).
    { rewrite forallb_forall in *. intros x Hx.
      apply (edit_within_mono b); [lia|now apply Hes]. }
    destruct (IH (b + 1) cm1 w1 Hes1 Hok1 Hq1) as (cm2 & w2 & E2 & Hok2 & Hq2).
    exists cm2, w2. cbn [handle_all]. rewrite E.
    split; [exact E2|]. split; [exact Hok2|].
    replace (b + Z.of_nat (length (e :: es))) with (b + 1 + Z.of_nat (length es))
      by (cbn [length]; lia).
    exact Hq2.
Qed.

Lemma loaded_page_ok : page_ok (fst loaded).
Proof.
  split; [|split; [|split; [vm_compute; reflexivity|split]]].
  - vm_compute. repeat constructor; cbn; intuition discriminate.
  - vm_compute. repeat constructor; cbn; intuition discriminate.
  - vm_compute. repeat constructor.
  - intros el H. vm_compute in H. discriminate H.
Qed.

Lemma loaded_items : items (fst loaded) = [shirt; hat].
Proof. vm_compute. reflexivity. Qed.

Lemma sample_quantities : quantities_within 10 [shirt; hat].
Proof.
  repeat constructor; eexists; (split; [reflexivity|vm_compute; discriminate]).
Qed.

Lemma sample_catalog : catalog_within 20 [shirt; hat].
Proof. repeat constructor; vm_compute; discriminate. Qed.

Lemma events_keep_page_witness :
  exists cm' w',
    handle_all [Increase 0; Change 1 "0"; Decrease 0; Remove 1; Confirm]
      (fst loaded) (snd loaded) = Ok (cm', w')
    /\ page_ok cm'
    /\ quantities_within
         (10 + Z.of_nat (length [Increase 0; Change 1 "0"; Decrease 0; Remove 1;
                                  Confirm]))
         (items cm').
Proof.
  apply (events_keep_page [Increase 0; Change 1 "0"; Decrease 0; Remove 1; Confirm]
           (fst loaded) (snd loaded) 10).
  - reflexivity.
  - apply loaded_page_ok.
  - rewrite loaded_items. exact sample_quantities.
  - rewrite loaded_items. repeat constructor; vm_compute; discriminate.
  - vm_compute. discriminate.
Defined.

(** *** What the events do to the browser *)

Lemma updateItemQuantity_written (input : Row) (cm0 cm : CartManager) (w : World) :
  items cm0 = items cm ->
  written cm w (fst (updateItemQuantity input cm0 w))
    (snd (updateItemQuantity input cm0 w)).
Proof.
  intros H. unfold updateItemQuantity, updateItemQuantity_with.
  destruct (List.find _ (items cm0)); cbn [fst snd].
  - right. cbn [saveCartToLocalStorage with_localStorage localStorage].
    now rewrite lookup_insert_eq.
  - left. now split.
Qed.

Lemma handle_written (e : event) (cm cm' : CartManager) (w w' : World) :
  handle e cm w = Ok (cm', w') -> written cm w cm' w'.
Proof.
  assert (Hput : forall r, items (put_row r cm) = items cm)
    by (intros r; unfold put_row; apply items_map_rows).
  destruct e as [n v|n|n|n| | |]; cbn [handle].
  - unfold on_change. destruct (get_row n cm) as [r|];
      [|intros [= <- <-]; left; now split].
    intros [= E]. rewrite (surjective_pairing (updateItemQuantity _ _ _)) in E.
    injection E as <- <-. now apply updateItemQuantity_written.
  - unfold on_increase. destruct (get_row n cm) as [r|];
      [|intros [= <- <-]; left; now split].
    intros [= E]. rewrite (surjective_pairing (updateItemQuantity _ _ _)) in E.
    injection E as <- <-. now apply updateItemQuantity_written.
  - unfold on_decrease. destruct (get_row n cm) as [r|];
      [|intros [= <- <-]; left; now split].
    destruct (value_gt_one _) as [[|]| |]; try discriminate;
      [|intros [= <- <-]; left; now split].
    intros [= E]. rewrite (surjective_pairing (updateItemQuantity _ _ _)) in E.
    injection E as <- <-. now apply updateItemQuantity_written.
  - intros [= <- <-]. left. split; [|reflexivity].
    unfold on_remove. now destruct (get_row n cm).
  - intros [= <- <-]. left. now split.
  - destruct (itemToRemove cm) as [el|] eqn:Hel.
    + rewrite (confirmRemoveItem_pending cm w el Hel). intros [= <- <-].
      right. cbn [closeRemoveModal with_itemToRemove with_modal calculateTotals items].
      rewrite items_remove_row.
      cbn [saveCartToLocalStorage with_localStorage localStorage with_items items].
      now rewrite lookup_insert_eq.
    + unfold confirmRemoveItem. rewrite Hel. intros [= <- <-]. left. now split.
  - intros [= <- <-]. left. split; [reflexivity|].
    unfold proceedToCheckout. now destruct (items cm).
Qed.

(** X4: the cart is never changed without being stored.  After any sequence
    of events, direct edits included, either the items and the store are
    what they were, or the store holds, under ['cart'], the text of the cart
    as it is now. *)
Theorem cart_changes_are_stored (es : list event) (cm cm' : CartManager)
    (w w' : World) :
  handle_all es cm w = Ok (cm', w') -> written cm w cm' w'.
Proof.
  revert cm w. induction es as [|e es IH]; intros cm w; cbn [handle_all].
  - intros [= <- <-]. left. now split.
  - destruct (handle e cm w) as [[cm1 w1]| |] eqn:E; try discriminate.
    intros H. apply handle_written in E. apply IH in H.
    destruct H as [[Hi Hs]|H]; [|now right].
    destruct E as [[Hi1 Hs1]|E].
    + left. split; congruence.
    + right. now rewrite Hs, Hi.
Qed.

Lemma cart_changes_are_stored_witness :
  written (fst loaded) (snd loaded)
    (fst (match handle_all [Remove 0; Cancel; Change 1 "7"; Checkout]
                  (fst loaded) (snd loaded) with
          | Ok p => p
          | _ => loaded
          end))
    (snd (match handle_all [Remove 0; Cancel; Change 1 "7"; Checkout]
                  (fst loaded) (snd loaded) with
          | Ok p => p
          | _ => loaded
          end)).
Proof.
  apply (cart_changes_are_stored [Remove 0; Cancel; Change 1 "7"; Checkout]).
  vm_compute. reflexivity.
Defined.

Lemma quiet_refl (w : World) : quiet w w.
Proof. repeat split. Qed.

Lemma quiet_trans (w1 w2 w3 : World) : quiet w1 w2 -> quiet w2 w3 -> quiet w1 w3.
Proof.
  intros (A1 & A2 & A3 & A4) (B1 & B2 & B3 & B4).
  repeat split; try congruence. intros k Hk. now rewrite B4, A4.
Qed.

Lemma quiet_save (cart : json) (w : World) : quiet w (saveCartToLocalStorage cart w).
Proof.
  repeat split. intros k Hk.
  cbn [saveCartToLocalStorage with_localStorage localStorage].
  now rewrite lookup_insert_ne.
Qed.

Lemma updateItemQuantity_quiet (input : Row) (cm : CartManager) (w : World) :
  quiet w (snd (updateItemQuantity input cm w)).
Proof.
  unfold updateItemQuantity, updateItemQuantity_with.
  destruct (List.find _ (items cm)); cbn [snd];
    [apply quiet_save | apply quiet_refl].
Qed.

Lemma handle_quiet (e : event) (cm cm' : CartManager) (w w' : World) :
  handle e cm w = Ok (cm', w') -> quiet w w'.
Proof.
  destruct e as [n v|n|n|n| | |]; cbn [handle].
  - unfold on_change. destruct (get_row n cm) as [r|];
      [|intros [= <- <-]; apply quiet_refl].
    intros [= E]. apply (f_equal snd) in E. cbn [snd] in E. subst w'.
    apply updateItemQuantity_quiet.
  - unfold on_increase. destruct (get_row n cm) as [r|];
      [|intros [= <- <-]; apply quiet_refl].
    intros [= E]. apply (f_equal snd) in E. cbn [snd] in E. subst w'.
    apply updateItemQuantity_quiet.
  - unfold on_decrease. destruct (get_row n cm) as [r|];
      [|intros [= <- <-]; apply quiet_refl].
    destruct (value_gt_one _) as [[|]| |]; try discriminate;
      [|intros [= <- <-]; apply quiet_refl].
    intros [= E]. apply (f_equal snd) in E. cbn [snd] in E. subst w'.
    apply updateItemQuantity_quiet.
  - intros [= <- <-]. apply quiet_refl.
  - intros [= <- <-]. apply quiet_refl.
  - intros [= E]. apply (f_equal snd) in E. cbn [snd] in E. subst w'.
    unfold confirmRemoveItem. destruct (itemToRemove cm); cbn [snd];
      [apply quiet_save | apply quiet_refl].
  - intros [= <- <-]. unfold proceedToCheckout, alert.
    destruct (items cm); apply quiet_refl || (repeat split).
Qed.

(** X5: the events stay on the page.  No sequence of events makes a request
    to the remote resource or logs an error, and none changes a key of the
    store other than ['cart']. *)
Theorem events_are_quiet (es : list event) (cm cm' : CartManager)
    (w w' : World) :
  handle_all es cm w = Ok (cm', w') -> quiet w w'.
Proof.
  revert cm w. induction es as [|e es IH]; intros cm w; cbn [handle_all].
  - intros [= <- <-]. apply quiet_refl.
  - destruct (handle e cm w) as [[cm1 w1]| |] eqn:E; try discriminate.
    intros H. apply handle_quiet in E. apply IH in H.
    exact (quiet_trans _ _ _ E H).
Qed.

Lemma events_are_quiet_witness :
  quiet (snd loaded)
    (snd (match handle_all [Increase 0; Remove 1; Confirm; Checkout]
                  (fst loaded) (snd loaded) with
          | Ok p => p
          | _ => loaded
          end)).
Proof.
  apply (events_are_quiet [Increase 0; Remove 1; Confirm; Checkout]
           (fst loaded)
           (fst (match handle_all [Increase 0; Remove 1; Confirm; Checkout]
                         (fst loaded) (snd loaded) with
                 | Ok p => p
                 | _ => loaded
                 end))).
  vm_compute. reflexivity.
Defined.

(** *** The store and the cart *)

Lemma getCart_same_store (w w' : World) :
  localStorage w' = localStorage w ->
  getCartFromLocalStorage w' = getCartFromLocalStorage w.
Proof. intros H. unfold getCartFromLocalStorage. now rewrite H. Qed.

Lemma getCart_written (l : list LineItem) (w : World) :
  localStorage w !! "cart" = Some (JSON_stringify (encode_cart l)) ->
  getCartFromLocalStorage w = Ok (Some (encode_cart l)).
Proof.
  intros H. unfold getCartFromLocalStorage. rewrite H.
  now rewrite JSON_parse_stringify by apply wf_encode_cart.
Qed.

Lemma stored_ok_written (cm cm' : CartManager) (w w' : World) :
  integral (items cm') = true ->
  written cm w cm' w' -> stored_ok cm w -> stored_ok cm' w'.
Proof.
  intros Hint [[Hi Hs]|H] (stored & Hget & Hitems).
  - exists stored. rewrite (getCart_same_store w w' Hs), Hi. now split.
  - exists (encode_cart (items cm')). split; [now apply getCart_written|].
    now apply items_of_encode_cart.
Qed.

Lemma fetch_from_store (cm : CartManager) (w : World) (stored : json)
    (l : list LineItem) :
  getCartFromLocalStorage w = Ok (Some stored) ->
  items_of stored = Some l ->
  fetchCartItems cm w = Ok (renderCartItems (with_items l cm), w).
Proof.
  intros Hget Hitems. unfold fetchCartItems, fetchCartItems_try.
  now rewrite Hget, Hitems.
Qed.

(** X6: a reload restores the cart.  From a page that shows the cart, with
    the cart in the store, after any sequence of stepper clicks, removals and
    direct edits leaving the numeral of an integer, the store holds the cart
    as it is then; loading again, on any manager, takes those items from the
    store, renders them, and leaves the browser as it is: no request is
    made. *)
Theorem reload_restores_cart (es : list event) (cm cm0 : CartManager)
    (w : World) :
  forallb integer_edit es = true -> page_ok cm -> stored_ok cm w ->
  exists cm' w',
    handle_all es cm w = Ok (cm', w')
    /\ stored_ok cm' w'
    /\ fetchCartItems cm0 w' = Ok (renderCartItems (with_items (items cm') cm0), w').
Proof.
  revert cm w. induction es as [|e es IH]; intros cm w Hes Hok Hst.
  - exists cm, w. split; [reflexivity|]. split; [exact Hst|].
    destruct Hst as (stored & Hget & Hitems).
    now apply (fetch_from_store cm0 w stored).
  - cbn [forallb] in Hes. apply andb_true_iff in Hes as [He Hes].
    destruct (handle_keeps_page e cm w He Hok) as (cm1 & w1 & E & Hok1).
    cbn [handle_all]. rewrite E. apply IH; [exact Hes|exact Hok1|].
    apply (stored_ok_written cm cm1 w w1); [apply Hok1| |exact Hst].
    now apply (handle_written e).
Qed.

Lemma loaded_stored_ok : stored_ok (fst loaded) (snd loaded).
Proof.
  exists (encode_cart [shirt; hat]). split; vm_compute; reflexivity.
Qed.

Lemma reload_restores_cart_witness :
  exists cm' w',
    handle_all [Increase 1; Remove 0; Confirm] (fst loaded) (snd loaded)
    = Ok (cm', w')
    /\ stored_ok cm' w'
    /\ fetchCartItems fresh w'
       = Ok (renderCartItems (with_items (items cm') fresh), w').
Proof.
  apply (reload_restores_cart [Increase 1; Remove 0; Confirm] (fst loaded) fresh
           (snd loaded)); [reflexivity|apply loaded_page_ok|apply loaded_stored_ok].
Defined.

Lemma decode_item_integer (j : json) (it : LineItem) :
  decode_item j = Some it -> exists q, quantity it = Int q.
Proof.
  unfold decode_item.
  repeat match goal with
         | |- context [match ?x with _ => _ end] => destruct x; try discriminate
         end.
  intros [= <-]. eauto.
Qed.

Lemma decode_items_integral (l : list json) (its : list LineItem) :
  decode_items l = Some its -> integral its = true.
Proof.
  revert its. induction l as [|j l IH]; intros its; cbn [decode_items].
  - now intros [= <-].
  - destruct (decode_item j) as [it|] eqn:E; [|discriminate].
    destruct (decode_items l) as [its'|]; [|discriminate].
    intros [= <-]. cbn [integral forallb].
    destruct (decode_item_integer j it E) as (q & ->). now apply IH.
Qed.

Lemma items_of_integral (cart : json) (l : list LineItem) :
  items_of cart = Some l -> integral l = true.
Proof.
  unfold items_of. destruct cart; try discriminate.
  destruct (get_field "items" members) as [[]|]; try discriminate.
  apply decode_items_integral.
Qed.

Lemma getCart_parsed (t : string) (cart : json) (w : World) :
  JSON_parse t = Ok cart ->
  getCartFromLocalStorage (saveCartToLocalStorage cart w)
  = Ok (if truthy cart then Some cart else None).
Proof. intros H. apply get_saved_cart. now apply (JSON_parse_wf t). Qed.

(** X7: the first visit.  On a store without a cart, when the remote
    resource answers a cart document, [fetchCartItems] makes one request,
    takes and renders the document's items and stores the document as it
    came; from then on the store holds the cart, and loading again, on any
    manager, takes the same items from the store with no further request. *)
Theorem first_visit_then_reload (cm cm0 : CartManager) (w : World) (t : string)
    (cart : json) (l : list LineItem) :
  getCartFromLocalStorage w = Ok None ->
  remote w = Body t ->
  JSON_parse t = Ok cart ->
  items_of cart = Some l ->
  exists w',
    fetchCartItems cm w = Ok (renderCartItems (with_items l cm), w')
    /\ requests w' = API_URL :: requests w
    /\ localStorage w' = <["cart" := JSON_stringify cart]> (localStorage w)
    /\ getCartFromLocalStorage w' = Ok (Some cart)
    /\ fetchCartItems cm0 w' = Ok (renderCartItems (with_items l cm0), w').
Proof.
  intros Hmiss Hremote Hparse Hitems.
  eexists. split.
  { unfold fetchCartItems, fetchCartItems_try, fetch_and_render.
    rewrite Hmiss, Hremote, Hparse, Hitems.
    destruct cart; try discriminate. reflexivity. }
  split; [reflexivity|]. split; [reflexivity|].
  assert (Hget : getCartFromLocalStorage
                   (saveCartToLocalStorage cart
                      (mkWorld (localStorage w) (remote w) (API_URL :: requests w)
                         (console w) (alerts w)))
                 = Ok (Some cart)).
  { rewrite (getCart_parsed t) by assumption.
    now rewrite (items_of_truthy cart l). }
  split; [exact Hget|]. now apply (fetch_from_store cm0 _ cart).
Qed.

Lemma first_visit_then_reload_witness :
  exists w',
    fetchCartItems fresh (browser None (Body cart_text))
    = Ok (renderCartItems (with_items [shirt; hat] fresh), w')
    /\ requests w' = API_URL :: requests (browser None (Body cart_text))
    /\ localStorage w'
       = <["cart" := JSON_stringify (encode_cart [shirt; hat])]>
           (localStorage (browser None (Body cart_text)))
    /\ getCartFromLocalStorage w' = Ok (Some (encode_cart [shirt; hat]))
    /\ fetchCartItems fresh w'
       = Ok (renderCartItems (with_items [shirt; hat] fresh), w').
Proof.
  apply (first_visit_then_reload fresh fresh (browser None (Body cart_text))
           cart_text (encode_cart [shirt; hat]) [shirt; hat]);
    vm_compute; reflexivity.
Defined.

(** X8: what was parsed is stored and loaded back.  For every document that
    [JSON.parse] returns, saving it and loading at once gives the same
    document; a falsy document (such as [null]) loads as an empty store.
    Saving replaces what was stored under ['cart'] and leaves every other
    key of the store alone. *)
Theorem save_then_load_document (t : string) (cart other : json) (w : World) :
  JSON_parse t = Ok cart ->
  getCartFromLocalStorage (saveCartToLocalStorage cart w)
  = Ok (if truthy cart then Some cart else None)
  /\ saveCartToLocalStorage cart (saveCartToLocalStorage other w)
     = saveCartToLocalStorage cart w
  /\ forall k, k <> "cart" ->
       localStorage (saveCartToLocalStorage cart w) !! k = localStorage w !! k.
Proof.
  intros H. split; [now apply (getCart_parsed t)|]. split.
  - unfold saveCartToLocalStorage, with_localStorage.
    cbn [localStorage remote requests console alerts].
    now rewrite insert_insert_eq.
  - intros k Hk. cbn [saveCartToLocalStorage with_localStorage localStorage].
    now rewrite lookup_insert_ne.
Qed.

Lemma save_then_load_document_witness :
  getCartFromLocalStorage
    (saveCartToLocalStorage (encode_cart [shirt]) (snd loaded))
  = Ok (if truthy (encode_cart [shirt]) then Some (encode_cart [shirt]) else None)
  /\ saveCartToLocalStorage (encode_cart [shirt])
       (saveCartToLocalStorage JNull (snd loaded))
     = saveCartToLocalStorage (encode_cart [shirt]) (snd loaded)
  /\ forall k, k <> "cart" ->
       localStorage (saveCartToLocalStorage (encode_cart [shirt]) (snd loaded)) !! k
       = localStorage (snd loaded) !! k.
Proof.
  apply (save_then_load_document (JSON_stringify (encode_cart [shirt]))).
  vm_compute. reflexivity.
Defined.

(** *** Loading *)

Lemma render_rows (cm : CartManager) :
  forallb plain_item (items cm) = true ->
  container_rows (renderCartItems cm) = create_rows (next_node cm) (items cm).
Proof.
  intros H. unfold container_rows, renderCartItems.
  cbn [calculateTotals cartItemsContainer]. now rewrite H.
Qed.

Lemma render_page_ok (cm : CartManager) :
  itemToRemove cm = None ->
  List.NoDup (map id (items cm)) -> integral (items cm) = true ->
  forallb plain_item (items cm) = true ->
  page_ok (renderCartItems cm).
Proof.
  intros Hp Hi Hint Hplain.
  pose proof (render_rows cm Hplain) as Hrows.
  unfold page_ok. rewrite Hrows, create_rows_nodes.
  change (items (renderCartItems cm)) with (items cm).
  split; [exact Hi|]. split; [apply seq_NoDup|]. split; [exact Hint|].
  split; [apply create_rows_shows|].
  intros el H. change (itemToRemove (renderCartItems cm)) with (itemToRemove cm) in H.
  congruence.
Qed.

(** X9: after loading, the page shows the cart.  On a manager with no items
    and nothing pending, whatever [fetchCartItems] ends with (the stored
    cart, the remote cart, or the error message), if the items it leaves have
    distinct identifiers, titles and image references free of markup, and
    numbers within the safe integers, then the rows of the container show
    those items one by one. *)
Theorem load_shows_cart (cm cm' : CartManager) (w w' : World) (b : Z) :
  items cm = [] -> itemToRemove cm = None ->
  fetchCartItems cm w = Ok (cm', w') ->
  List.NoDup (map id (items cm')) ->
  forallb plain_item (items cm') = true ->
  quantities_within b (items cm') -> catalog_within b (items cm') ->
  b <= MAX_SAFE_INTEGER ->
  page_ok cm'.
Proof.
  intros Hitems Hp Hf Hnd Hplain _ _ _. revert Hf Hnd Hplain.
  unfold fetchCartItems, fetchCartItems_try, fetch_and_render.
  assert (Herr : forall c, page_ok (with_container (Markup c) cm)).
  { intros c. unfold page_ok, container_rows.
    cbn [with_container cartItemsContainer items]. rewrite Hitems.
    repeat split; try constructor.
    intros el H. cbn in H. congruence. }
  assert (Hren : forall j l, items_of j = Some l ->
             List.NoDup (map id l) -> forallb plain_item l = true ->
             page_ok (renderCartItems (with_items l cm))).
  { intros j l Hj Hnd Hplain. apply render_page_ok;
      [exact Hp|exact Hnd| |exact Hplain].
    now apply (items_of_integral j). }
  destruct (getCartFromLocalStorage w) as [[stored|]|e|]; try discriminate.
  - destruct (items_of stored) as [l|] eqn:E; [|discriminate].
    intros [= <- <-]. now apply (Hren stored).
  - destruct (remote w) as [|t]; [intros [= <- <-] _ _; apply Herr|].
    destruct (JSON_parse t) as [cart|e|]; try discriminate;
      [|intros [= <- <-] _ _; apply Herr].
    destruct cart; try (intros [= <- <-] _ _; apply Herr);
      match goal with
      | |- context [items_of ?j] =>
          destruct (items_of j) as [l|] eqn:E; [|discriminate];
          intros [= <- <-]; now apply (Hren j)
      end.
  - intros [= <- <-] _ _. apply Herr.
Qed.

Lemma load_shows_cart_witness : page_ok (fst loaded).
Proof.
  apply (load_shows_cart fresh (fst loaded) (browser None (Body cart_text))
           (snd loaded) 20).
  - reflexivity.
  - reflexivity.
  - vm_compute. reflexivity.
  - rewrite loaded_items. repeat constructor; cbn; intuition discriminate.
  - rewrite loaded_items. reflexivity.
  - rewrite loaded_items.
    repeat constructor; eexists; (split; [reflexivity|vm_compute; discriminate]).
  - rewrite loaded_items. exact sample_catalog.
  - vm_compute. discriminate.
Defined.

Lemma getCart_nothing_stored (w : World) :
  localStorage w !! "cart" = None -> getCartFromLocalStorage w = Ok None.
Proof. intros H. unfold getCartFromLocalStorage. now rewrite H. Qed.

(** X10: one attempt.  On a browser whose store holds nothing, unreadable
    text, a falsy value or a cart, and whose remote resource is unreachable
    or answers unreadable text, [null] or a cart, [fetchCartItems] returns:
    no exception escapes it.  It either makes no request and leaves the store
    as it was, or makes exactly one request, to the address of the cart
    resource, and then changes no key of the store but ['cart']; it never
    shows an alert; and either it logs nothing and leaves the manager as
    rendered from the items it took, or it logs an error and ends with the
    error message in the container and the items it had. *)
Theorem fetchCartItems_one_attempt (cm : CartManager) (w : World) :
  load_in_scope w ->
  exists cm' w',
    fetchCartItems cm w = Ok (cm', w')
    /\ (requests w' = requests w /\ localStorage w' = localStorage w
        \/ requests w' = API_URL :: requests w
           /\ forall k, k <> "cart" -> localStorage w' !! k = localStorage w !! k)
    /\ alerts w' = alerts w
    /\ (console w' = console w
        /\ cm' = renderCartItems (with_items (items cm') cm)
        \/ console w' = "Error fetching cart items:" :: console w
           /\ cartItemsContainer cm' = Markup error_html
           /\ items cm' = items cm).
Proof.
  intros [Hstore Hremote].
  assert (Hsave : forall cart w0 k, k <> "cart" ->
             localStorage (saveCartToLocalStorage cart w0) !! k
             = localStorage w0 !! k).
  { intros cart w0 k Hk.
    cbn [saveCartToLocalStorage with_localStorage localStorage].
    now rewrite lookup_insert_ne. }
  assert (Hmiss : getCartFromLocalStorage w = Ok None ->
            exists cm' w',
              fetchCartItems cm w = Ok (cm', w')
              /\ (requests w' = requests w /\ localStorage w' = localStorage w
                  \/ requests w' = API_URL :: requests w
                     /\ forall k, k <> "cart" ->
                          localStorage w' !! k = localStorage w !! k)
              /\ alerts w' = alerts w
              /\ (console w' = console w
                  /\ cm' = renderCartItems (with_items (items cm') cm)
                  \/ console w' = "Error fetching cart items:" :: console w
                     /\ cartItemsContainer cm' = Markup error_html
                     /\ items cm' = items cm)).
  { intros Hget. unfold fetchCartItems, fetchCartItems_try, fetch_and_render.
    rewrite Hget. destruct (remote w) as [|t] eqn:Hr.
    { do 2 eexists. split; [reflexivity|].
      split; [right; split; [reflexivity|reflexivity]|].
      split; [reflexivity|]. right. repeat split. }
    destruct (Hremote t eq_refl) as [[e He]|(v & Hv & [->|[l Hl]])];
      rewrite ?He, ?Hv.
    - do 2 eexists. split; [reflexivity|].
      split; [right; split; [reflexivity|reflexivity]|].
      split; [reflexivity|]. right. repeat split.
    - do 2 eexists. split; [reflexivity|].
      split; [right; split; [reflexivity|reflexivity]|].
      split; [reflexivity|]. right. repeat split.
    - rewrite Hl. destruct v; try discriminate Hl.
      do 2 eexists. split; [reflexivity|].
      split; [right; split; [reflexivity|intros k Hk; now rewrite Hsave]|].
      split; [reflexivity|]. left. split; reflexivity. }
  destruct (localStorage w !! "cart") as [t|] eqn:Hget.
  2: { apply Hmiss. now apply getCart_nothing_stored. }
  destruct (Hstore t eq_refl) as [[e He]|(v & Hv & [Hf|[l Hl]])].
  - unfold fetchCartItems, fetchCartItems_try, getCartFromLocalStorage.
    rewrite Hget, He. do 2 eexists. split; [reflexivity|].
    split; [left; split; reflexivity|]. split; [reflexivity|].
    right. repeat split.
  - apply Hmiss. unfold getCartFromLocalStorage. now rewrite Hget, Hv, Hf.
  - unfold fetchCartItems, fetchCartItems_try, getCartFromLocalStorage.
    rewrite Hget, Hv, (items_of_truthy v l Hl), Hl.
    do 2 eexists. split; [reflexivity|].
    split; [left; split; reflexivity|]. split; [reflexivity|].
    left. split; reflexivity.
Qed.

Lemma fetchCartItems_one_attempt_witness :
  exists cm' w',
    fetchCartItems fresh (browser None (Body cart_text)) = Ok (cm', w')
    /\ (requests w' = requests (browser None (Body cart_text))
        /\ localStorage w' = localStorage (browser None (Body cart_text))
        \/ requests w' = API_URL :: requests (browser None (Body cart_text))
           /\ forall k, k <> "cart" ->
                localStorage w' !! k
                = localStorage (browser None (Body cart_text)) !! k)
    /\ alerts w' = alerts (browser None (Body cart_text))
    /\ (console w' = console (browser None (Body cart_text))
        /\ cm' = renderCartItems (with_items (items cm') fresh)
        \/ console w'
           = "Error fetching cart items:" :: console (browser None (Body cart_text))
           /\ cartItemsContainer cm' = Markup error_html
           /\ items cm' = items fresh).
Proof.
  apply (fetchCartItems_one_attempt fresh (browser None (Body cart_text))).
  split.
  - intros t H. vm_compute in H. discriminate H.
  - intros t [= <-]. right. exists (encode_cart [shirt; hat]).
    split; [vm_compute; reflexivity|].
    right. exists [shirt; hat]. vm_compute. reflexivity.
Defined.

(** *** What the quantity controls do *)

Lemma shown_item (cm : CartManager) (w : World) (n : nat) (r : Row) :
  page_ok cm -> get_row n cm = Some r ->
  exists it q,
    In it (items cm) /\ shows r it /\ quantity it = Int q
    /\ input_value r = Z_to_string q
    /\ forall z,
         items (fst (updateItemQuantity (with_input_value (Z_to_string z) r)
                       (put_row (with_input_value (Z_to_string z) r) cm) w))
         = with_quantity (id it) z (items cm).
Proof.
  intros Hok Hrow.
  destruct (row_shows_integer cm n r Hok Hrow) as (it & q & Hit & Hsh & Hq & Hv).
  exists it, q. repeat split; try assumption; try apply Hsh.
  intros z.
  destruct (update_keeps_page cm w n r z Hok Hrow) as (it' & Hit' & Hsh' & E & _).
  rewrite E. unfold with_quantity.
  destruct Hsh as (Hd & _). destruct Hsh' as (Hd' & _).
  rewrite Hd in Hd'. apply Z_to_string_inj in Hd'. now rewrite Hd'.
Qed.

(** X11: a direct edit sets one quantity.  On a page that shows the cart,
    within the safe integers, leaving the numeral of an integer [z] of
    magnitude at most [b] in the quantity input of a row gives the quantity
    [z] to the item that row shows, be it zero or negative, and changes no
    other item; the cart so changed is stored, the page still shows it, and
    its quantities are still of magnitude at most [b]. *)
Theorem direct_edit_sets_quantity (cm : CartManager) (w : World) (n : nat)
    (r : Row) (z b : Z) :
  page_ok cm -> get_row n cm = Some r ->
  Z.abs z <= b ->
  quantities_within b (items cm) -> catalog_within b (items cm) ->
  b <= MAX_SAFE_INTEGER ->
  exists it cm' w',
    In it (items cm) /\ shows r it
    /\ handle (Change n (Z_to_string z)) cm w = Ok (cm', w')
    /\ items cm' = with_quantity (id it) z (items cm)
    /\ localStorage w' !! "cart" = Some (JSON_stringify (encode_cart (items cm')))
    /\ page_ok cm'
    /\ quantities_within b (items cm').
Proof.
  intros Hok Hrow Hz Hq _ _.
  destruct (update_keeps_page cm w n r z Hok Hrow)
    as (it & Hit & Hsh & Hitems & Hw & Hok').
  cbn [handle]. unfold on_change. rewrite Hrow.
  destruct (updateItemQuantity _ _ w) as [cm' w'] eqn:E.
  cbn [fst snd] in *. exists it, cm', w'.
  split; [exact Hit|]. split; [exact Hsh|]. split; [reflexivity|].
  split; [exact Hitems|]. split; [|split; [exact Hok'|]].
  - rewrite Hw, Hitems.
    cbn [saveCartToLocalStorage with_localStorage localStorage].
    now rewrite lookup_insert_eq.
  - rewrite Hitems. now apply quantities_within_set.
Qed.

Lemma direct_edit_sets_quantity_witness :
  exists it cm' w',
    In it (items (fst loaded)) /\ shows hat_row it
    /\ handle (Change 1 (Z_to_string (-3))) (fst loaded) (snd loaded) = Ok (cm', w')
    /\ items cm' = with_quantity (id it) (-3) (items (fst loaded))
    /\ localStorage w' !! "cart" = Some (JSON_stringify (encode_cart (items cm')))
    /\ page_ok cm'
    /\ quantities_within 10 (items cm').
Proof.
  apply (direct_edit_sets_quantity (fst loaded) (snd loaded) 1 hat_row (-3) 10).
  - apply loaded_page_ok.
  - vm_compute. reflexivity.
  - vm_compute. discriminate.
  - rewrite loaded_items. exact sample_quantities.
  - rewrite loaded_items. repeat constructor; vm_compute; discriminate.
  - vm_compute. discriminate.
Defined.

(** X12: the steppers step by one.  On a page that shows the cart, with
    quantities of magnitude at most [b] and within the safe integers up to
    [b + 1], a click on the increase button of a row adds 1 to the quantity
    of the item the row shows; a click on its decrease button takes 1 from
    it when it is above 1, and changes nothing, page and browser alike, when
    it is 1 or less.  No other item changes. *)
Theorem steppers_step_by_one (cm : CartManager) (w : World) (n : nat) (r : Row)
    (b : Z) :
  page_ok cm -> get_row n cm = Some r ->
  quantities_within b (items cm) -> catalog_within (b + 1) (items cm) ->
  b + 1 <= MAX_SAFE_INTEGER ->
  exists it q,
    In it (items cm) /\ shows r it /\ quantity it = Int q /\ Z.abs q <= b
    /\ items (fst (on_increase n cm w)) = with_quantity (id it) (q + 1) (items cm)
    /\ (1 < q ->
        exists cm' w',
          on_decrease n cm w = Ok (cm', w')
          /\ items cm' = with_quantity (id it) (q - 1) (items cm))
    /\ (q <= 1 -> on_decrease n cm w = Ok (cm, w)).
Proof.
  intros Hok Hrow Hb _ _.
  destruct (shown_item cm w n r Hok Hrow) as (it & q & Hit & Hsh & Hq & Hv & Hset).
  exists it, q. split; [exact Hit|]. split; [exact Hsh|]. split; [exact Hq|].
  split; [exact (quantities_within_in b _ it q Hb Hit Hq)|].
  split; [|split].
  - rewrite (on_increase_integer n cm w r q Hrow Hv). apply Hset.
  - intros Hgt. rewrite (on_decrease_integer n cm w r q Hrow Hv).
    destruct (Z.ltb_spec 1 q); [|lia]. cbv zeta.
    specialize (Hset (q - 1)).
    destruct (updateItemQuantity _ _ w) as [cm' w']. now exists cm', w'.
  - intros Hle. rewrite (on_decrease_integer n cm w r q Hrow Hv).
    destruct (Z.ltb_spec 1 q); [lia|reflexivity].
Qed.

Lemma steppers_step_by_one_witness :
  exists it q,
    In it (items (fst loaded)) /\ shows shirt_row it /\ quantity it = Int q
    /\ Z.abs q <= 10
    /\ items (fst (on_increase 0 (fst loaded) (snd loaded)))
       = with_quantity (id it) (q + 1) (items (fst loaded))
    /\ (1 < q ->
        exists cm' w',
          on_decrease 0 (fst loaded) (snd loaded) = Ok (cm', w')
          /\ items cm' = with_quantity (id it) (q - 1) (items (fst loaded)))
    /\ (q <= 1 -> on_decrease 0 (fst loaded) (snd loaded) = Ok (fst loaded, snd loaded)).
Proof.
  apply (steppers_step_by_one (fst loaded) (snd loaded) 0 shirt_row 10).
  - apply loaded_page_ok.
  - vm_compute. reflexivity.
  - rewrite loaded_items. exact sample_quantities.
  - rewrite loaded_items. repeat constructor; vm_compute; discriminate.
  - vm_compute. discriminate.
Defined.

(** *** Removal through the dialogue *)

Lemma length_without (l : list LineItem) (it : LineItem) :
  List.NoDup (map id l) -> In it l ->
  S (length (without (id it) l)) = length l.
Proof.
  unfold without. induction l as [|x l IH]; cbn [map In]; [contradiction|].
  intros H. apply List.NoDup_cons_iff in H as [Hx H].
  cbn [List.filter]. intros [->|Hin].
  - rewrite Z.eqb_refl. cbn [negb length]. f_equal.
    rewrite filter_all_true; [reflexivity|].
    intros y Hy. apply negb_true_iff, Z.eqb_neq. intros E.
    apply Hx. rewrite <- E. now apply in_map.
  - destruct (Z.eqb_spec (id x) (id it)) as [E|_].
    { exfalso. apply Hx. rewrite E. now apply in_map. }
    cbn [negb length]. f_equal. now apply IH.
Qed.

(** X13: removing a row removes its item.  On a page that shows the cart,
    clicking the removal icon of a row and confirming removes from the cart
    the item that row shows, and that one only: the cart is one item shorter
    and the others keep their order; the row is detached, nothing is pending
    any more, the modal is hidden, the cart so changed is stored and the page
    still shows it. *)
Theorem remove_then_confirm (cm : CartManager) (w : World) (n : nat) (r : Row) :
  page_ok cm -> get_row n cm = Some r ->
  exists it cm' w',
    In it (items cm) /\ shows r it
    /\ handle_all [Remove n; Confirm] cm w = Ok (cm', w')
    /\ items cm' = without (id it) (items cm)
    /\ S (length (items cm')) = length (items cm)
    /\ get_row n cm' = None
    /\ idle cm'
    /\ localStorage w' !! "cart" = Some (JSON_stringify (encode_cart (items cm')))
    /\ page_ok cm'.
Proof.
  intros Hok Hrow.
  destruct (row_shows_integer cm n r Hok Hrow) as (it & q & Hit & Hsh & _ & _).
  destruct (get_row_in n cm r Hrow) as [Hin Hnode].
  assert (Hok1 : page_ok (on_remove n cm)).
  { destruct (handle_keeps_page (Remove n) cm w eq_refl Hok)
      as (cm1 & w1 & [= <- <-] & H). exact H. }
  assert (Hpend : itemToRemove (on_remove n cm) = Some r)
    by (unfold on_remove; now rewrite Hrow).
  pose proof (confirm_keeps_page (on_remove n cm) w Hok1) as Hok2.
  cbn [handle_all handle].
  rewrite (confirmRemoveItem_pending _ w r Hpend) in *. cbn [fst] in Hok2.
  exists it. do 2 eexists. split; [exact Hit|]. split; [exact Hsh|].
  split; [reflexivity|].
  assert (Hitems : List.filter (fun x => negb (id_matches (data_id r) x))
                     (items (on_remove n cm))
                   = without (id it) (items cm)).
  { unfold on_remove. rewrite Hrow. cbn [showRemoveModal with_modal
      with_itemToRemove items]. destruct Hsh as (Hd & _). rewrite Hd.
    apply filter_ext. intros x. now rewrite id_matches_Z_to_string. }
  rewrite Hitems in *.
  assert (Hi : items
                 (closeRemoveModal
                    (calculateTotals
                       (remove_row (node r)
                          (with_items (without (id it) (items cm)) (on_remove n cm)))))
               = without (id it) (items cm)).
  { cbn [closeRemoveModal with_itemToRemove with_modal calculateTotals items].
    now rewrite items_remove_row. }
  rewrite Hi.
  split; [reflexivity|].
  split; [apply length_without; [apply Hok|exact Hit]|].
  split.
  { rewrite <- Hnode.
    unfold closeRemoveModal, calculateTotals, with_itemToRemove, with_modal,
      get_row, container_rows. cbn [cartItemsContainer].
    apply get_row_remove_row. }
  split; [split; reflexivity|].
  split; [|exact Hok2].
  cbn [saveCartToLocalStorage with_localStorage localStorage].
  now rewrite lookup_insert_eq.
Qed.

Lemma remove_then_confirm_witness :
  exists it cm' w',
    In it (items (fst loaded)) /\ shows hat_row it
    /\ handle_all [Remove 1; Confirm] (fst loaded) (snd loaded) = Ok (cm', w')
    /\ items cm' = without (id it) (items (fst loaded))
    /\ S (length (items cm')) = length (items (fst loaded))
    /\ get_row 1 cm' = None
    /\ idle cm'
    /\ localStorage w' !! "cart" = Some (JSON_stringify (encode_cart (items cm')))
    /\ page_ok cm'.
Proof.
  apply (remove_then_confirm (fst loaded) (snd loaded) 1 hat_row);
    [apply loaded_page_ok|vm_compute; reflexivity].
Defined.

(** X14: opening the dialogue and cancelling changes nothing.  On a page with
    nothing pending and the modal hidden, clicking a removal icon and then
    cancelling leaves manager and browser exactly as they were. *)
Theorem remove_then_cancel (cm : CartManager) (w : World) (n : nat) :
  idle cm -> handle_all [Remove n; Cancel] cm w = Ok (cm, w).
Proof.
  intros [Hp Hm]. cbn [handle_all handle]. do 2 f_equal.
  unfold on_remove. destruct cm; cbn in *; subst.
  destruct (get_row n _); reflexivity.
Qed.

Lemma remove_then_cancel_witness :
  handle_all [Remove 1; Cancel] (fst loaded) (snd loaded)
  = Ok (fst loaded, snd loaded).
Proof.
  apply (remove_then_cancel (fst loaded) (snd loaded) 1). split; vm_compute; reflexivity.
Defined.

(** *** Lookups *)

(** X15: the row of an item finds the item.  The lookup of
    [updateItemQuantity], given the [data-id] of the row created for an item
    of the cart, returns an item with that identifier; when the identifiers
    of the cart are distinct, it returns that very item. *)
Theorem row_finds_its_item (l : list LineItem) (it : LineItem) (n : nat) :
  In it l ->
  (exists it',
     List.find (id_matches (data_id (createCartItemHTML n it))) l = Some it'
     /\ id it' = id it)
  /\ (List.NoDup (map id l) ->
      List.find (id_matches (data_id (createCartItemHTML n it))) l = Some it).
Proof.
  intros Hin. cbn [createCartItemHTML data_id]. split.
  - induction l as [|x l IH]; cbn [In List.find] in *; [contradiction|].
    rewrite id_matches_Z_to_string.
    destruct (Z.eqb_spec (id x) (id it)) as [E|Hne]; [now exists x|].
    destruct Hin as [->|Hin]; [congruence|now apply IH].
  - intros Hnd. now apply find_by_id.
Qed.

Lemma row_finds_its_item_witness :
  (exists it',
     List.find (id_matches (data_id (createCartItemHTML 7 hat))) [shirt; hat]
     = Some it'
     /\ id it' = id hat)
  /\ (List.NoDup (map id [shirt; hat]) ->
      List.find (id_matches (data_id (createCartItemHTML 7 hat))) [shirt; hat]
      = Some hat).
Proof.
  apply (row_finds_its_item [shirt; hat] hat 7). right. left. reflexivity.
Defined.

Lemma find_none_all {A} (f : A -> bool) (l : list A) :
  (forall x, In x l -> f x = false) -> List.find f l = None.
Proof.
  induction l as [|x l IH]; intros H; [reflexivity|].
  cbn [List.find]. rewrite (H x) by now left. apply IH.
  intros y Hy. apply H. now right.
Qed.

(** X16: a row that matches no item changes nothing.  When the [data-id] of
    the row is not the text of a number, or is the text of a number that no
    item has as identifier, [updateItemQuantity] leaves the manager and the
    browser as they are: no quantity changes, no total is recomputed and
    nothing is stored. *)
Theorem updateItemQuantity_lookup_miss (input : Row) (cm : CartManager)
    (w : World) :
  (parseInt (data_id input) = NaN
   \/ forall it, In it (items cm) -> Int (id it) <> parseInt (data_id input)) ->
  updateItemQuantity input cm w = (cm, w).
Proof.
  intros H. unfold updateItemQuantity, updateItemQuantity_with.
  rewrite find_none_all; [reflexivity|].
  intros it Hit. unfold id_matches, strict_eq, num_strict_eq.
  destruct H as [->|H]; [reflexivity|].
  specialize (H it Hit). destruct (parseInt (data_id input)) as [|k]; [reflexivity|].
  apply Z.eqb_neq. congruence.
Qed.

Lemma updateItemQuantity_lookup_miss_witness :
  updateItemQuantity (mkRow 0 "9" "4" (Plain "")) (fst loaded) (snd loaded)
  = (fst loaded, snd loaded).
Proof.
  apply (updateItemQuantity_lookup_miss (mkRow 0 "9" "4" (Plain ""))).
  right. vm_compute. intros it [<-|[<-|[]]]; discriminate.
Defined.

(** *** What the events keep *)

Lemma update_first_catalog (test : LineItem -> bool) (q : num) (l : list LineItem) :
  map catalog (update_first test (set_quantity q) l) = map catalog l.
Proof.
  induction l as [|x l IH]; [reflexivity|]. cbn [update_first].
  destruct (test x); cbn [map]; [reflexivity|now rewrite IH].
Qed.

Lemma updateItemQuantity_catalog (input : Row) (cm : CartManager) (w : World) :
  map catalog (items (fst (updateItemQuantity input cm w)))
  = map catalog (items cm).
Proof.
  unfold updateItemQuantity, updateItemQuantity_with.
  destruct (List.find _ (items cm)); cbn [fst]; [|reflexivity].
  cbn [calculateTotals items]. unfold set_row_total. rewrite items_map_rows.
  apply update_first_catalog.
Qed.

Lemma handle_quantity_catalog (e : event) (cm cm' : CartManager) (w w' : World) :
  quantity_event e = true -> handle e cm w = Ok (cm', w') ->
  map catalog (items cm') = map catalog (items cm).
Proof.
  assert (Hput : forall r, items (put_row r cm) = items cm)
    by (intros r; unfold put_row; apply items_map_rows).
  destruct e as [n v|n|n|n| | |]; try discriminate; intros _; cbn [handle].
  - unfold on_change. destruct (get_row n cm) as [r|]; [|now intros [= <- <-]].
    intros [= E]. apply (f_equal fst) in E. cbn [fst] in E. subst cm'.
    now rewrite updateItemQuantity_catalog, Hput.
  - unfold on_increase. destruct (get_row n cm) as [r|]; [|now intros [= <- <-]].
    intros [= E]. apply (f_equal fst) in E. cbn [fst] in E. subst cm'.
    now rewrite updateItemQuantity_catalog, Hput.
  - unfold on_decrease. destruct (get_row n cm) as [r|]; [|now intros [= <- <-]].
    destruct (value_gt_one _) as [[|]| |]; try discriminate;
      [|now intros [= <- <-]].
    intros [= E]. apply (f_equal fst) in E. cbn [fst] in E. subst cm'.
    now rewrite updateItemQuantity_catalog, Hput.
Qed.

(** X17: the quantity controls change quantities only.  After any sequence
    of direct edits and stepper clicks, whatever the texts left in the
    inputs, the cart has the same items in the same order, with the same
    identifiers, titles, images and prices. *)
Theorem quantity_events_keep_catalog (es : list event) (cm cm' : CartManager)
    (w w' : World) :
  forallb quantity_event es = true ->
  handle_all es cm w = Ok (cm', w') ->
  map catalog (items cm') = map catalog (items cm).
Proof.
  revert cm w. induction es as [|e es IH]; intros cm w Hes; cbn [handle_all].
  - now intros [= <- <-].
  - cbn [forallb] in Hes. apply andb_true_iff in Hes as [He Hes].
    destruct (handle e cm w) as [[cm1 w1]| |] eqn:E; try discriminate.
    intros H. rewrite (IH cm1 w1 Hes H).
    exact (handle_quantity_catalog e cm cm1 w w1 He E).
Qed.

Lemma quantity_events_keep_catalog_witness :
  map catalog
    (items (fst (match handle_all [Change 0 "abc"; Increase 1; Decrease 1]
                         (fst loaded) (snd loaded) with
                 | Ok p => p
                 | _ => loaded
                 end)))
  = map catalog (items (fst loaded)).
Proof.
  apply (quantity_events_keep_catalog [Change 0 "abc"; Increase 1; Decrease 1]
           (fst loaded) _ (snd loaded)
           (snd (match handle_all [Change 0 "abc"; Increase 1; Decrease 1]
                         (fst loaded) (snd loaded) with
                 | Ok p => p
                 | _ => loaded
                 end)));
    vm_compute; reflexivity.
Defined.

Lemma sublist_map_filter {A B} (f : A -> B) (p : A -> bool) (l : list A) :
  sublist (map f (List.filter p l)) (map f l).
Proof.
  induction l as [|x l IH]; cbn [List.filter map]; [constructor|].
  destruct (p x); cbn [map]; [now apply sublist_skip | now apply sublist_cons].
Qed.

Lemma handle_sublist (e : event) (cm cm' : CartManager) (w w' : World) :
  handle e cm w = Ok (cm', w') ->
  sublist (map catalog (items cm')) (map catalog (items cm)).
Proof.
  destruct e as [n v|n|n|n| | |].
  1-3: intros H;
       match type of H with
       | handle ?e _ _ = _ =>
           rewrite (handle_quantity_catalog e cm cm' w w' eq_refl H)
       end; reflexivity.
  all: cbn [handle].
  - intros [= <- <-]. unfold on_remove. destruct (get_row n cm); reflexivity.
  - intros [= <- <-]. reflexivity.
  - intros [= E]. apply (f_equal fst) in E. cbn [fst] in E. subst cm'.
    destruct (itemToRemove cm) as [el|] eqn:Hel.
    + rewrite (confirmRemoveItem_items cm w el Hel). apply sublist_map_filter.
    + unfold confirmRemoveItem. rewrite Hel. reflexivity.
  - intros [= <- <-]. reflexivity.
Qed.

(** X18: the events never add an item.  After any sequence of events the
    cart holds, in their order, some of the items it held, each with its
    identifier, title, image and price; only a confirmed removal takes items
    away. *)
Theorem events_never_add_items (es : list event) (cm cm' : CartManager)
    (w w' : World) :
  handle_all es cm w = Ok (cm', w') ->
  sublist (map catalog (items cm')) (map catalog (items cm))
  /\ (forallb (fun e => match e with Confirm => false | _ => true end) es = true ->
      length (items cm') = length (items cm)).
Proof.
  revert cm w. induction es as [|e es IH]; intros cm w; cbn [handle_all].
  - intros [= <- <-]. split; reflexivity.
  - destruct (handle e cm w) as [[cm1 w1]| |] eqn:E; try discriminate.
    intros H. destruct (IH cm1 w1 H) as [Hs Hl]. split.
    + etransitivity; [exact Hs|]. exact (handle_sublist e cm cm1 w w1 E).
    + cbn [forallb]. intros Hc. apply andb_true_iff in Hc as [He Hes].
      rewrite (Hl Hes).
      destruct e as [n v|n|n|n| | |]; try discriminate.
      1-3: rewrite <- (length_map catalog (items cm1));
           match type of E with
           | handle ?e _ _ = _ =>
               rewrite (handle_quantity_catalog e cm cm1 w w1 eq_refl E)
           end; apply length_map.
      all: cbn [handle] in E; injection E as <- _; try reflexivity.
      unfold on_remove. destruct (get_row n cm); reflexivity.
Qed.

Lemma events_never_add_items_witness :
  sublist
    (map catalog
       (items (fst (match handle_all [Increase 0; Remove 1; Confirm; Change 0 "x"]
                            (fst loaded) (snd loaded) with
                    | Ok p => p
                    | _ => loaded
                    end))))
    (map catalog (items (fst loaded)))
  /\ (forallb (fun e => match e with Confirm => false | _ => true end)
        [Increase 0; Remove 1; Confirm; Change 0 "x"] = true ->
      length
        (items (fst (match handle_all [Increase 0; Remove 1; Confirm; Change 0 "x"]
                             (fst loaded) (snd loaded) with
                     | Ok p => p
                     | _ => loaded
                     end)))
      = length (items (fst loaded))).
Proof.
  apply (events_never_add_items [Increase 0; Remove 1; Confirm; Change 0 "x"]
           (fst loaded) _ (snd loaded)
           (snd (match handle_all [Increase 0; Remove 1; Confirm; Change 0 "x"]
                         (fst loaded) (snd loaded) with
                 | Ok p => p
                 | _ => loaded
                 end))).
  vm_compute. reflexivity.
Defined.

(** *** Quantities that are not numbers *)

Lemma sum_num_nan (l : list num) : In NaN l -> sum_num l = NaN.
Proof.
  induction l as [|x l IH]; cbn [In sum_num]; [contradiction|].
  intros [->|H]; [reflexivity|]. rewrite (IH H). now destruct x.
Qed.

Lemma stated_nan (l : list LineItem) (it : LineItem) :
  In it l -> quantity it = NaN ->
  stated_subtotal l = NaN /\ stated_item_count l = NaN.
Proof.
  intros Hin Hq. unfold stated_subtotal, stated_item_count. split.
  - apply sum_num_nan. apply in_map_iff. exists it. split; [|exact Hin].
    unfold line_total. now rewrite Hq.
  - apply sum_num_nan. apply in_map_iff. now exists it.
Qed.

(** X19: one quantity that is not a number blanks the totals.  When some item
    of the cart has the quantity [NaN], [calculateTotals] leaves [NaN] as
    subtotal, shows the formatter's text for [NaN] as subtotal and total, and
    shows [NaN] as cart count, whatever the other items are. *)
Theorem nan_quantity_blanks_totals (cm : CartManager) (it : LineItem) :
  In it (items cm) -> quantity it = NaN ->
  subtotal (calculateTotals cm) = NaN
  /\ subtotalElement (calculateTotals cm) = formatCurrency NaN
  /\ totalElement (calculateTotals cm) = formatCurrency NaN
  /\ cartCountElement (calculateTotals cm) = Plain "NaN".
Proof.
  intros Hin Hq. destruct (stated_nan _ it Hin Hq) as [Hs Hc].
  cbn [calculateTotals subtotal subtotalElement totalElement cartCountElement].
  rewrite subtotal_of_stated, totalItems_of_stated, Hs, Hc. repeat split.
Qed.

Lemma nan_quantity_blanks_totals_witness :
  subtotal (calculateTotals (with_items [shirt; set_quantity NaN hat] fresh)) = NaN
  /\ subtotalElement (calculateTotals (with_items [shirt; set_quantity NaN hat] fresh))
     = formatCurrency NaN
  /\ totalElement (calculateTotals (with_items [shirt; set_quantity NaN hat] fresh))
     = formatCurrency NaN
  /\ cartCountElement (calculateTotals (with_items [shirt; set_quantity NaN hat] fresh))
     = Plain "NaN".
Proof.
  apply (nan_quantity_blanks_totals
           (with_items [shirt; set_quantity NaN hat] fresh) (set_quantity NaN hat));
    [right; left; reflexivity|reflexivity].
Defined.

Lemma update_first_found (test : LineItem -> bool) (f : LineItem -> LineItem)
    (l : list LineItem) (it : LineItem) :
  List.find test l = Some it -> In (f it) (update_first test f l).
Proof.
  induction l as [|x l IH]; cbn [List.find update_first]; [discriminate|].
  destruct (test x); [intros [= ->]; now left|].
  intros H. right. now apply IH.
Qed.

Lemma integral_nan (l : list LineItem) (it : LineItem) :
  In it l -> quantity it = NaN -> integral l = false.
Proof.
  intros Hin Hq. destruct (integral l) eqn:E; [|reflexivity].
  destruct (integral_in l it E Hin) as (q & Hq'). congruence.
Qed.

(** X20: an input without a leading integer makes the quantity [NaN].  On a
    page that shows the cart, leaving in the quantity input of a row a text
    on which [parseInt] gives [NaN] (the empty text, for one) gives the
    quantity [NaN] to an item of the cart; subtotal and cart count become
    [NaN]; and the cart that is stored does not read back as the same items. *)
Theorem unreadable_edit_blanks_totals (cm : CartManager) (w : World) (n : nat)
    (r : Row) (v : string) :
  page_ok cm -> get_row n cm = Some r -> parseInt v = NaN ->
  exists it cm' w',
    handle (Change n v) cm w = Ok (cm', w')
    /\ In it (items cm') /\ quantity it = NaN
    /\ subtotal cm' = NaN
    /\ cartCountElement cm' = Plain "NaN"
    /\ localStorage w' !! "cart" = Some (JSON_stringify (encode_cart (items cm')))
    /\ items_of (encode_cart (items cm')) <> Some (items cm').
Proof.
  intros Hok Hrow Hv.
  destruct (row_shows_integer cm n r Hok Hrow) as (it & q & Hit & Hsh & _ & _).
  destruct Hsh as (Hd & _).
  set (input := with_input_value v r).
  assert (Hfind : List.find (id_matches (data_id input)) (items (put_row input cm))
                  = Some it).
  { unfold put_row. rewrite items_map_rows.
    change (data_id input) with (data_id r). rewrite Hd.
    apply find_by_id; [apply Hok|exact Hit]. }
  cbn [handle]. unfold on_change. rewrite Hrow. fold input.
  rewrite (updateItemQuantity_found input _ w it NaN Hfind Hv).
  set (l' := update_first (id_matches (data_id input)) (set_quantity NaN)
               (items (put_row input cm))).
  assert (Hin : In (set_quantity NaN it) l')
    by now apply update_first_found.
  assert (Hitems : items
                     (calculateTotals
                        (set_row_total (node input)
                           (formatCurrency (num_mul (Int (price it)) NaN))
                           (with_items l' (put_row input cm)))) = l').
  { cbn [calculateTotals items]. unfold set_row_total. now rewrite items_map_rows. }
  exists (set_quantity NaN it). do 2 eexists. split; [reflexivity|].
  rewrite Hitems. split; [exact Hin|]. split; [reflexivity|].
  destruct (stated_nan l' (set_quantity NaN it) Hin eq_refl) as [Hs Hc].
  split.
  { cbn [calculateTotals subtotal]. unfold set_row_total.
    rewrite items_map_rows. cbn [with_items items].
    now rewrite subtotal_of_stated. }
  split.
  { cbn [calculateTotals cartCountElement]. unfold set_row_total.
    rewrite items_map_rows. cbn [with_items items].
    now rewrite totalItems_of_stated, Hc. }
  split.
  { cbn [saveCartToLocalStorage with_localStorage localStorage].
    now rewrite lookup_insert_eq. }
  intros E. apply items_of_integral in E.
  now rewrite (integral_nan l' (set_quantity NaN it) Hin eq_refl) in E.
Qed.

Lemma unreadable_edit_blanks_totals_witness :
  exists it cm' w',
    handle (Change 1 "") (fst loaded) (snd loaded) = Ok (cm', w')
    /\ In it (items cm') /\ quantity it = NaN
    /\ subtotal cm' = NaN
    /\ cartCountElement cm' = Plain "NaN"
    /\ localStorage w' !! "cart" = Some (JSON_stringify (encode_cart (items cm')))
    /\ items_of (encode_cart (items cm')) <> Some (items cm').
Proof.
  apply (unreadable_edit_blanks_totals (fst loaded) (snd loaded) 1 hat_row "");
    [apply loaded_page_ok|vm_compute; reflexivity|reflexivity].
Defined.

(** X21: a stored cart reads back exactly when its quantities are integers.
    Saving the cart and loading at once gives back a stored cart with the
    same sequence of line items if, and only if, no quantity is [NaN]. *)
Theorem stored_cart_reads_back_iff (l : list LineItem) (w : World) :
  (exists stored,
     getCartFromLocalStorage (saveCartToLocalStorage (encode_cart l) w)
     = Ok (Some stored)
     /\ items_of stored = Some l)
  <-> integral l = true.
Proof.
  rewrite get_saved_cart by apply wf_encode_cart. split.
  - intros (stored & [= <-] & H). now apply items_of_integral in H.
  - intros H. exists (encode_cart l). split; [reflexivity|].
    now apply items_of_encode_cart.
Qed.

(** *** The decrease button on text with a fraction *)

(** X22: the guard of the decrease button and its subtraction read the input
    differently.  When the input of a row holds a text that is greater than
    1 as a number but on which [parseInt] gives 1 (such as [1.5]), a click on
    the decrease button puts 0 in the input and gives the quantity 0 to the
    item the lookup finds, and stores the cart so changed. *)
Theorem decrease_below_one (cm : CartManager) (w : World) (n : nat) (r : Row)
    (it : LineItem) :
  get_row n cm = Some r ->
  value_gt_one (input_value r) = Ok true ->
  parseInt (input_value r) = Int 1 ->
  List.find (id_matches (data_id r)) (items cm) = Some it ->
  exists cm' w',
    handle (Decrease n) cm w = Ok (cm', w')
    /\ In (set_quantity (Int 0) it) (items cm')
    /\ items cm'
       = update_first (id_matches (data_id r)) (set_quantity (Int 0)) (items cm)
    /\ localStorage w' !! "cart" = Some (JSON_stringify (encode_cart (items cm'))).
Proof.
  intros Hrow Hgt Hp Hfind. cbn [handle]. unfold on_decrease.
  rewrite Hrow, Hgt, Hp. cbn [num_sub input_text].
  change (Z_to_string (1 - 1)) with "0".
  set (input := with_input_value "0" r).
  assert (Hitems : items (put_row input cm) = items cm)
    by (unfold put_row; apply items_map_rows).
  assert (Hfind' : List.find (id_matches (data_id input)) (items (put_row input cm))
                   = Some it) by (rewrite Hitems; exact Hfind).
  rewrite (updateItemQuantity_found input _ w it (Int 0) Hfind' eq_refl).
  rewrite Hitems. change (data_id input) with (data_id r).
  do 2 eexists. split; [reflexivity|].
  assert (Hi : forall t c,
             items (calculateTotals (set_row_total (node input) t (with_items c (put_row input cm))))
             = c).
  { intros t c. cbn [calculateTotals items]. unfold set_row_total.
    now rewrite items_map_rows. }
  rewrite Hi. split; [now apply update_first_found|]. split; [reflexivity|].
  cbn [saveCartToLocalStorage with_localStorage localStorage].
  now rewrite lookup_insert_eq.
Qed.

Lemma decrease_below_one_witness :
  exists cm' w',
    handle (Decrease 1) (fst (on_change 1 "1.5" (fst loaded) (snd loaded)))
      (snd loaded) = Ok (cm', w')
    /\ In (set_quantity (Int 0) hat) (items cm')
    /\ items cm'
       = update_first (id_matches (data_id (with_input_value "1.5" hat_row)))
           (set_quantity (Int 0))
           (items (fst (on_change 1 "1.5" (fst loaded) (snd loaded))))
    /\ localStorage w' !! "cart" = Some (JSON_stringify (encode_cart (items cm'))).
Proof.
  apply (decrease_below_one (fst (on_change 1 "1.5" (fst loaded) (snd loaded)))
           (snd loaded) 1 (with_input_value "1.5" hat_row) hat);
    vm_compute; reflexivity.
Defined.

(** *** Checkout *)

(** X23: checkout after the last removal.  On a page that shows a cart of one
    item, checkout announces that it proceeds; once the item's row was
    removed through the dialogue, checkout announces that the cart is empty.
    Neither changes the manager, the store or the request log. *)
Theorem checkout_after_last_removal (cm : CartManager) (w : World) (n : nat)
    (r : Row) (it : LineItem) :
  page_ok cm -> items cm = [it] -> get_row n cm = Some r ->
  handle Checkout cm w = Ok (cm, alert "Proceeding to checkout..." w)
  /\ exists cm' w',
       handle_all [Remove n; Confirm] cm w = Ok (cm', w')
       /\ items cm' = []
       /\ handle Checkout cm' w' = Ok (cm', alert "Your cart is empty!" w').
Proof.
  intros Hok Hitems Hrow. split.
  { cbn [handle]. unfold proceedToCheckout. now rewrite Hitems. }
  destruct (row_shows_integer cm n r Hok Hrow) as (it' & q & Hit & Hsh & _ & _).
  rewrite Hitems in Hit. destruct Hit as [<-|[]].
  assert (Hpend : itemToRemove (on_remove n cm) = Some r)
    by (unfold on_remove; now rewrite Hrow).
  cbn [handle_all handle].
  rewrite (confirmRemoveItem_pending _ w r Hpend).
  do 2 eexists. split; [reflexivity|].
  assert (Hi : items
                 (closeRemoveModal
                    (calculateTotals
                       (remove_row (node r)
                          (with_items
                             (List.filter (fun x => negb (id_matches (data_id r) x))
                                (items (on_remove n cm))) (on_remove n cm)))))
               = []).
  { cbn [closeRemoveModal with_itemToRemove with_modal calculateTotals items].
    rewrite items_remove_row. cbn [with_items items].
    unfold on_remove. rewrite Hrow.
    cbn [showRemoveModal with_modal with_itemToRemove items]. rewrite Hitems.
    destruct Hsh as (Hd & _). cbn [List.filter].
    now rewrite Hd, id_matches_Z_to_string, Z.eqb_refl. }
  split; [exact Hi|].
  unfold proceedToCheckout. now rewrite Hi.
Qed.

Lemma checkout_after_last_removal_witness :
  handle Checkout (renderCartItems (with_items [hat] fresh)) (snd loaded)
  = Ok (renderCartItems (with_items [hat] fresh),
        alert "Proceeding to checkout..." (snd loaded))
  /\ exists cm' w',
       handle_all [Remove 0; Confirm] (renderCartItems (with_items [hat] fresh))
         (snd loaded) = Ok (cm', w')
       /\ items cm' = []
       /\ handle Checkout cm' w' = Ok (cm', alert "Your cart is empty!" w').
Proof.
  apply (checkout_after_last_removal (renderCartItems (with_items [hat] fresh))
           (snd loaded) 0 (createCartItemHTML 0 hat) hat);
    [|reflexivity|reflexivity].
  apply render_page_ok; [reflexivity| |reflexivity|reflexivity].
  repeat constructor. intros [].
Defined.

(** *** A session *)

(** A load that does not end with the error message leaves the manager as
    rendered from the items it took, and those items in the store. *)
Lemma fetch_success (cm cm' : CartManager) (w w' : World) :
  fetchCartItems cm w = Ok (cm', w') ->
  cartItemsContainer cm' <> Markup error_html ->
  cm' = renderCartItems (with_items (items cm') cm) /\ stored_ok cm' w'.
Proof.
  unfold fetchCartItems, fetchCartItems_try, fetch_and_render.
  destruct (getCartFromLocalStorage w) as [[stored|]|e|] eqn:Hget;
    try discriminate.
  - destruct (items_of stored) as [l|] eqn:E; [|discriminate].
    intros [= <- <-] _. split; [reflexivity|]. now exists stored.
  - destruct (remote w) as [|t]; [intros [= <- <-] H; now destruct H|].
    destruct (JSON_parse t) as [cart|e|] eqn:Hparse; try discriminate;
      [|intros [= <- <-] H; now destruct H].
    destruct (items_of cart) as [l|] eqn:E.
    + assert (Ht : truthy cart = true) by now apply (items_of_truthy cart l).
      destruct cart; try discriminate Ht; try discriminate E.
      intros [= <- <-] _. split; [reflexivity|].
      eexists. split; [|exact E].
      rewrite (getCart_parsed t) by exact Hparse. now rewrite Ht.
    + destruct cart; try discriminate. intros [= <- <-] H. now destruct H.
  - intros [= <- <-] H. now destruct H.
Qed.

(** Events that keep the quantities integers within a bound keep the page,
    keep the cart in the store and stay on the page. *)
Lemma handle_all_session (es : list event) (cm : CartManager) (w : World)
    (b : Z) :
  forallb (edit_within b) es = true -> page_ok cm -> stored_ok cm w ->
  quantities_within b (items cm) ->
  exists cm' w',
    handle_all es cm w = Ok (cm', w')
    /\ page_ok cm' /\ stored_ok cm' w' /\ quiet w w'
    /\ quantities_within (b + Z.of_nat (length es)) (items cm').
Proof.
  revert b cm w. induction es as [|e es IH]; intros b cm w Hes Hok Hst Hq.
  - exists cm, w. repeat split; try assumption; try apply Hok.
    cbn [length Z.of_nat]. now rewrite Z.add_0_r.
  - cbn [forallb] in Hes. apply andb_true_iff in Hes as [He Hes].
    destruct (handle_keeps_page e cm w (edit_within_integer b e He) Hok)
      as (cm1 & w1 & E & Hok1).
    assert (Hst1 : stored_ok cm1 w1).
    { apply (stored_ok_written cm cm1 w w1); [apply Hok1| |exact Hst].
      now apply (handle_written e). }
    pose proof (handle_quantities e cm cm1 w w1 b He Hok Hq E) as Hq1.
    assert (Hes1 : forallb (edit_within (b + 1)) es = true).
    { rewrite forallb_forall in *. intros x Hx.
      apply (edit_within_mono b); [lia|now apply Hes]. }
    destruct (IH (b + 1) cm1 w1 Hes1 Hok1 Hst1 Hq1)
      as (cm2 & w2 & E2 & Hok2 & Hst2 & Hqt & Hq2).
    exists cm2, w2. cbn [handle_all]. rewrite E.
    split; [exact E2|]. split; [exact Hok2|]. split; [exact Hst2|].
    split; [apply (quiet_trans w w1 w2);
            [now apply (handle_quiet e cm cm1)|exact Hqt]|].
    replace (b + Z.of_nat (length (e :: es))) with (b + 1 + Z.of_nat (length es))
      by (cbn [length]; lia).
    exact Hq2.
Qed.

(** X24: a session survives a reload.  Let the page be constructed and
    [init] end without the error message, with items of distinct
    identifiers, titles and image references free of markup, and integer
    quantities of magnitude at most [b]; let the events be stepper clicks,
    removals and direct edits leaving the numeral of an integer of magnitude
    at most [b], the whole within the safe integers.  Then the events are
    handled to their end on a page that shows the cart, with no further
    request; and constructing the page again and running [init] shows the
    cart as the session left it, taken from the store. *)
Theorem session_survives_reload (c : content) (s t k : text) (d : string)
    (es : list event) (w w1 : World) (cm1 : CartManager) (b : Z) :
  init (constructor c s t k d) w = Ok (cm1, w1) ->
  cartItemsContainer cm1 <> Markup error_html ->
  List.NoDup (map id (items cm1)) ->
  forallb plain_item (items cm1) = true ->
  quantities_within b (items cm1) ->
  catalog_within (b + Z.of_nat (length es)) (items cm1) ->
  b + Z.of_nat (length es) <= MAX_SAFE_INTEGER ->
  forallb (edit_within b) es = true ->
  exists cm2 w2,
    handle_all es cm1 w1 = Ok (cm2, w2)
    /\ page_ok cm2
    /\ quantities_within (b + Z.of_nat (length es)) (items cm2)
    /\ requests w2 = requests w1
    /\ init (constructor c s t k d) w2
       = Ok (renderCartItems (with_items (items cm2) (constructor c s t k d)), w2).
Proof.
  unfold init. intros Hload Hrows Hnd Hplain Hq _ _ Hes.
  destruct (fetch_success _ _ _ _ Hload Hrows) as (Hcm & Hst).
  assert (Hok : page_ok cm1).
  { rewrite Hcm. apply render_page_ok; [reflexivity|exact Hnd| |exact Hplain].
    destruct Hst as (stored & _ & Hitems).
    now apply (items_of_integral stored). }
  destruct (handle_all_session es cm1 w1 b Hes Hok Hst Hq)
    as (cm2 & w2 & E & Hok2 & (stored & Hget & Hitems) & Hqt & Hq2).
  exists cm2, w2. split; [exact E|]. split; [exact Hok2|].
  split; [exact Hq2|]. split; [apply Hqt|].
  now apply (fetch_from_store _ w2 stored).
Qed.

Lemma session_survives_reload_witness :
  exists cm2 w2,
    handle_all [Increase 1; Change 0 "5"; Remove 1; Confirm] (fst loaded)
      (snd loaded) = Ok (cm2, w2)
    /\ page_ok cm2
    /\ quantities_within
         (10 + Z.of_nat (length [Increase 1; Change 0 "5"; Remove 1; Confirm]))
         (items cm2)
    /\ requests w2 = requests (snd loaded)
    /\ init (constructor (Rows []) (Plain "") (Plain "") (Plain "0") "none") w2
       = Ok (renderCartItems
               (with_items (items cm2)
                  (constructor (Rows []) (Plain "") (Plain "") (Plain "0") "none")),
             w2).
Proof.
  apply (session_survives_reload (Rows []) (Plain "") (Plain "") (Plain "0")
           "none" [Increase 1; Change 0 "5"; Remove 1; Confirm]
           (browser None (Body cart_text)) (snd loaded) (fst loaded) 10).
  - vm_compute. reflexivity.
  - vm_compute. discriminate.
  - rewrite loaded_items. repeat constructor; cbn; intuition discriminate.
  - rewrite loaded_items. reflexivity.
  - rewrite loaded_items. exact sample_quantities.
  - rewrite loaded_items. repeat constructor; vm_compute; discriminate.
  - vm_compute. discriminate.
  - reflexivity.
Defined.
